(** * Grade calculator: aggregation engine, grade store and page events

    A shallow embedding of [script.js].  The embedding follows the source
    function by function.  The DOM code (templates, focus handling,
    rendering) is not part of it.

    Numbers.  A JavaScript number is a binary64 floating-point number:
    Rocq's primitive [float], with the operations of IEEE 754 (round to
    nearest, ties to even), two zeros, two infinities and one [NaN].

    Strings.  A string is the sequence of its code units; the strings of
    the embedding hold code units below 256.

    Data.  The store works on the shapes the script builds: a grade item
    [{id, name, score, max}], a category [{id, name, weight, grades}], and
    the [state] object.  The calculation functions are given twice: on
    these shapes, and, in [Untyped], on any value, as [loadState] can
    leave any value in the state.

    Storage.  A stored string is represented by what [JSON.parse] makes of
    it, and [JSON.stringify] by the value a later [JSON.parse] gives
    back. *)

From Stdlib Require Import List String Ascii Bool ZArith Lia Floats.
From Stdlib Require Import DecimalString DecimalZ DecimalN DecimalPos.
Import ListNotations.

Set Warnings "-register-all".
Set Warnings "-inexact-float".

(** ** Numbers *)

Definition number : Type := float.

Module Num.

Definition zero : number := 0%float.

Definition nan : number := PrimFloat.nan.

(** The number nearest to an integer: the integer itself up to 2^53. *)
Definition of_Z (z : Z) : number := SF2Prim (binary_normalize prec emax z 0 false).

Definition of_nat (n : nat) : number := of_Z (Z.of_nat n).

(** [a + b], [a * b] and [a / b] on two numbers. *)
Definition add (a b : number) : number := PrimFloat.add a b.

Definition mul (a b : number) : number := PrimFloat.mul a b.

Definition div (a b : number) : number := PrimFloat.div a b.

(** [a > b] and [a >= b]: false as soon as one side is [NaN]. *)
Definition gt (a b : number) : bool := PrimFloat.ltb b a.

Definition ge (a b : number) : bool := PrimFloat.leb b a.

(** [a === b] on two numbers: [NaN] is not equal to itself, and the two
    zeros are equal. *)
Definition strict_eq (a b : number) : bool := PrimFloat.eqb a b.

Definition is_nan (a : number) : bool := PrimFloat.is_nan a.

(** Truthiness of a number: the zeros and [NaN] are falsy. *)
Definition truthy (a : number) : bool :=
  negb (strict_eq a zero) && negb (is_nan a).

(** [a || b] on two numbers. *)
Definition or (a b : number) : number := if truthy a then a else b.

(** Neither an infinity nor [NaN]. *)
Definition is_finite (a : number) : bool := PrimFloat.is_finite a.

End Num.

(** *** Numbers and strings *)

(** The decimal digits of a natural number. *)
Definition digitsOf (n : Z) : string := NilZero.string_of_uint (N.to_uint (Z.to_N n)).

(** The value of a finite number that is not zero, as a fraction. *)
Definition fraction (m : positive) (e : Z) : Z * Z :=
  match e with
  | Z0 => (Z.pos m, 1%Z)
  | Z.pos p => ((Z.pos m * 2 ^ Z.pos p)%Z, 1%Z)
  | Z.neg p => (Z.pos m, (2 ^ Z.pos p)%Z)
  end.

(** The number nearest to [s * 10^p], for a natural number [s]. *)
Definition decimal (negative : bool) (s : Z) (p : Z) : spec_float :=
  match s with
  | Z.pos d =>
      match p with
      | Z.neg q =>
          SFdiv prec emax (S754_finite negative d 0)
                (S754_finite false (Pos.pow 10 q) 0)
      | _ => binary_normalize prec emax
               (if negative then Z.opp (Z.pos d * 10 ^ p) else Z.pos d * 10 ^ p)%Z
               0 negative
      end
  | _ => S754_zero negative
  end.

Definition SFsame (a b : spec_float) : bool :=
  match a, b with
  | S754_zero s, S754_zero s' => Bool.eqb s s'
  | S754_infinity s, S754_infinity s' => Bool.eqb s s'
  | S754_nan, S754_nan => true
  | S754_finite s m e, S754_finite s' m' e' =>
      Bool.eqb s s' && Pos.eqb m m' && Z.eqb e e'
  | _, _ => false
  end.

Module Shortest.

(** For a positive fraction [x = a / b]. *)

(** [10^n <= x], for any integer [n]. *)
Definition pow10_le (n : Z) (x : Z * Z) : bool :=
  let '(a, b) := x in
  match n with
  | Z.neg q => (b <=? a * 10 ^ Z.pos q)%Z
  | _ => (b * 10 ^ n <=? a)%Z
  end.

(** The [n] with [10^(n-1) <= x < 10^n]: looked for upwards from [1]
    when [1 <= x], downwards from [0] otherwise. *)
Fixpoint magnitudeUp (fuel : nat) (n : Z) (x : Z * Z) : Z :=
  match fuel with
  | O => n
  | S fuel' => if pow10_le n x then magnitudeUp fuel' (n + 1)%Z x else n
  end.

Fixpoint magnitudeDown (fuel : nat) (n : Z) (x : Z * Z) : Z :=
  match fuel with
  | O => n
  | S fuel' => if pow10_le (n - 1) x then n else magnitudeDown fuel' (n - 1)%Z x
  end.

Definition magnitude (x : Z * Z) : Z :=
  if pow10_le 0 x then magnitudeUp 400 1 x else magnitudeDown 400 0 x.

(** The integer part of [x / 10^p]. *)
Definition scaled (x : Z * Z) (p : Z) : Z :=
  let '(a, b) := x in
  match p with
  | Z.neg q => (a * 10 ^ Z.pos q / b)%Z
  | _ => (a / (b * 10 ^ p))%Z
  end.

(** The sign of [|s * 10^p - x| - |s' * 10^p - x|] for [s <= x / 10^p <= s']
    and [s' = s + 1]: which of the two is nearer to [x]. *)
Definition nearer (x : Z * Z) (p s : Z) : comparison :=
  let '(a, b) := x in
  (* x / 10^p - s  against  s + 1 - x / 10^p *)
  match p with
  | Z.neg q => (2 * a * 10 ^ Z.pos q ?= (2 * s + 1) * b)%Z
  | _ => (2 * a ?= (2 * s + 1) * b * 10 ^ p)%Z
  end.

(** The digits [s] and the exponent [n] of the shortest decimal
    [s * 10^(n - k)], [k] the number of digits of [s], that rounds to the
    number [v] whose value is [x]; of two decimals of that length the
    nearer one, and of two equally near the even one. *)
Fixpoint search (fuel : nat) (k : Z) (v : spec_float) (x : Z * Z) (n : Z) : Z * Z :=
  let p := (n - k)%Z in
  let s := scaled x p in
  let low := (0 <? s)%Z && SFsame (decimal false s p) v in
  let high := SFsame (decimal false (s + 1) p) v in
  let chosen :=
    match low, high with
    | true, true =>
        match nearer x p s with
        | Lt => Some s
        | Gt => Some (s + 1)%Z
        | Eq => Some (if Z.even s then s else s + 1)%Z
        end
    | true, false => Some s
    | false, true => Some (s + 1)%Z
    | false, false => None
    end in
  match chosen with
  | Some d => if (d =? 10 ^ k)%Z then ((10 ^ (k - 1))%Z, (n + 1)%Z) else (d, n)
  | None =>
      match fuel with
      | O => (s, n)
      | S fuel' => search fuel' (k + 1)%Z v x n
      end
  end.

Definition zeros (n : Z) : string := String.concat "" (repeat "0"%string (Z.to_nat n)).

(** [Number::toString] for a positive finite number, from the digits [s]
    and the exponent [n]. *)
Definition layout (s n : Z) : string :=
  let ds := digitsOf s in
  let k := Z.of_nat (String.length ds) in
  if ((k <=? n) && (n <=? 21))%Z then (ds ++ zeros (n - k))%string
  else if ((0 <? n) && (n <=? 21))%Z then
    (substring 0 (Z.to_nat n) ds ++ "." ++ substring (Z.to_nat n) (Z.to_nat (k - n)) ds)%string
  else if ((-6 <? n) && (n <=? 0))%Z then ("0." ++ zeros (- n) ++ ds)%string
  else
    let e := (n - 1)%Z in
    let exponent := ((if (e <? 0)%Z then "e-" else "e+") ++ digitsOf (Z.abs e))%string in
    if (k =? 1)%Z then (ds ++ exponent)%string
    else (substring 0 1 ds ++ "." ++ substring 1 (Z.to_nat (k - 1)) ds ++ exponent)%string.

Definition positiveToString (m : positive) (e : Z) : string :=
  let x := fraction m e in
  let n := magnitude x in
  let '(s, n') := search 17 1 (S754_finite false m e) x n in
  layout s n'.

End Shortest.

(** The integer a finite number is, when it is one. *)
Definition integerOf (v : spec_float) : option Z :=
  match v with
  | S754_zero _ => Some 0%Z
  | S754_finite s m e =>
      let '(a, b) := fraction m e in
      if (a mod b =? 0)%Z then Some (if s then - (a / b) else a / b)%Z else None
  | _ => None
  end.

(** [Number::toString]: the text of a number, as in ['cat-' + n].  An
    integer up to 2^53 is written with all its digits (no shorter decimal
    rounds to it); another number with the shortest decimal that rounds
    to it. *)
Definition NumberToString (x : number) : string :=
  match Prim2SF x with
  | S754_nan => "NaN"
  | S754_zero _ => "0"
  | S754_infinity s => if s then "-Infinity" else "Infinity"
  | S754_finite s m e =>
      let text :=
        match integerOf (S754_finite false m e) with
        | Some z => if (z <=? 2 ^ 53)%Z then digitsOf z else Shortest.positiveToString m e
        | None => Shortest.positiveToString m e
        end in
      if s then ("-" ++ text)%string else text
  end.

(** [StringToNumber]: the number a string converts to, [NaN] when it is
    not the text of a number. *)
Module Parse.

(** White space and line terminators (below 256). *)
Definition isWhiteSpace (c : ascii) : bool :=
  let n := nat_of_ascii c in
  (Nat.leb 9 n && Nat.leb n 13) || Nat.eqb n 32 || Nat.eqb n 160.

Definition isDigit (c : ascii) : bool :=
  let n := nat_of_ascii c in Nat.leb 48 n && Nat.leb n 57.

(** The value of a digit in a base up to 16. *)
Definition digitValue (base : Z) (c : ascii) : option Z :=
  let n := Z.of_nat (nat_of_ascii c) in
  let v :=
    if ((48 <=? n) && (n <=? 57))%Z then Some (n - 48)%Z
    else if ((97 <=? n) && (n <=? 102))%Z then Some (n - 87)%Z
    else if ((65 <=? n) && (n <=? 70))%Z then Some (n - 55)%Z
    else None in
  match v with
  | Some d => if (d <? base)%Z then Some d else None
  | None => None
  end.

(** The value of a sequence of digits; [None] when a character is not a
    digit of the base. *)
Fixpoint valueIn (base : Z) (acc : Z) (l : list ascii) : option Z :=
  match l with
  | [] => Some acc
  | c :: rest =>
      match digitValue base c with
      | Some d => valueIn base (acc * base + d)%Z rest
      | None => None
      end
  end.

Fixpoint dropWhile (p : ascii -> bool) (l : list ascii) : list ascii :=
  match l with
  | [] => []
  | c :: rest => if p c then dropWhile p rest else l
  end.

Fixpoint takeWhile (p : ascii -> bool) (l : list ascii) : list ascii :=
  match l with
  | [] => []
  | c :: rest => if p c then c :: takeWhile p rest else []
  end.

Definition trim (l : list ascii) : list ascii :=
  rev (dropWhile isWhiteSpace (rev (dropWhile isWhiteSpace l))).

Definition decimalValue (l : list ascii) : Z :=
  match valueIn 10 0 l with Some v => v | None => 0%Z end.

(** [StrUnsignedDecimalLiteral] other than [Infinity]: digits, with an
    optional fraction and an optional exponent; the result is the pair
    [(s, p)] of the value [s * 10^p]. *)
Definition unsignedDecimal (l : list ascii) : option (Z * Z) :=
  let int := takeWhile isDigit l in
  let r1 := dropWhile isDigit l in
  let '(frac, r2) :=
    match r1 with
    | "."%char :: r => (takeWhile isDigit r, dropWhile isDigit r)
    | _ => ([], r1)
    end in
  let s := decimalValue (int ++ frac) in
  let scale := Z.of_nat (List.length frac) in
  match int ++ frac with
  | [] => None
  | _ =>
      match r2 with
      | [] => Some (s, (- scale)%Z)
      | c :: r3 =>
          if (Ascii.eqb c "e" || Ascii.eqb c "E")%bool then
            let '(negative, r4) :=
              match r3 with
              | "+"%char :: r => (false, r)
              | "-"%char :: r => (true, r)
              | _ => (false, r3)
              end in
            match r4, dropWhile isDigit r4 with
            | _ :: _, [] =>
                let e := decimalValue r4 in
                Some (s, ((if negative then - e else e) - scale)%Z)
            | _, _ => None
            end
          else None
      end
  end.

Definition infinityText : list ascii := list_ascii_of_string "Infinity".

Definition sameText (a b : list ascii) : bool :=
  String.eqb (string_of_list_ascii a) (string_of_list_ascii b).

Definition signedDecimal (l : list ascii) : spec_float :=
  let '(negative, r) :=
    match l with
    | "+"%char :: r => (false, r)
    | "-"%char :: r => (true, r)
    | _ => (false, l)
    end in
  if sameText r infinityText then S754_infinity negative
  else match unsignedDecimal r with
       | Some (s, p) => decimal negative s p
       | None => S754_nan
       end.

(** [NonDecimalIntegerLiteral]: the digits after [0x], [0o] or [0b]. *)
Definition nonDecimal (base : Z) (digits : list ascii) : spec_float :=
  match digits with
  | [] => S754_nan
  | _ => match valueIn base 0 digits with
         | Some v => binary_normalize prec emax v 0 false
         | None => S754_nan
         end
  end.

Definition literal (l : list ascii) : spec_float :=
  match trim l with
  | [] => S754_zero false
  | "0"%char :: "x"%char :: r | "0"%char :: "X"%char :: r => nonDecimal 16 r
  | "0"%char :: "o"%char :: r | "0"%char :: "O"%char :: r => nonDecimal 8 r
  | "0"%char :: "b"%char :: r | "0"%char :: "B"%char :: r => nonDecimal 2 r
  | t => signedDecimal t
  end.

End Parse.

Definition StringToNumber (s : string) : number :=
  SF2Prim (Parse.literal (list_ascii_of_string s)).

(** ** Grade item fields

    [score] and [max] of a grade item hold a number or [null]; a grade item
    read back from storage may also lack the key, and reading it then gives
    [undefined]. *)

Inductive scalar : Type :=
| Null
| Undefined
| Num (n : number).

(** [ToNumber]: [null] is [0], [undefined] is [NaN]. *)
Definition to_number (v : scalar) : number :=
  match v with
  | Null => Num.zero
  | Undefined => Num.nan
  | Num n => n
  end.

(** [v !== null]. *)
Definition not_null (v : scalar) : bool :=
  match v with Null => false | _ => true end.

(** ** Data model *)

Module Grade.
Record t : Type := mk {
  id : string;
  name : string;
  score : scalar;
  max : scalar
}.
End Grade.

Module Category.
Record t : Type := mk {
  id : string;
  name : string;
  weight : number;
  grades : list Grade.t
}.
End Category.

Module State.
Record t : Type := mk {
  categories : list Category.t;
  isWeighted : bool;
  nextCategoryId : number;
  nextGradeId : number
}.
End State.

(** ** Grade calculation functions

    On an array of grade items and an array of categories, where no
    operation of the functions raises.  [Untyped], further down, has the
    same functions on any value, with the [TypeError]s and conversions of
    the language; the two are proved to agree on these shapes
    ([calculateCategoryAverage_agrees], [calculateFinalGrade_agrees]). *)

(** The predicate of [grades.filter] in [calculateCategoryAverage]. *)
Definition isValid (g : Grade.t) : bool :=
  not_null (Grade.score g)
  && not_null (Grade.max g)
  && Num.gt (to_number (Grade.max g)) Num.zero.

Definition validGrades (grades : list Grade.t) : list Grade.t :=
  filter isValid grades.

Definition totalScore (valid : list Grade.t) : number :=
  fold_left (fun sum g => Num.add sum (to_number (Grade.score g))) valid Num.zero.

Definition totalMax (valid : list Grade.t) : number :=
  fold_left (fun sum g => Num.add sum (to_number (Grade.max g))) valid Num.zero.

(** [calculateCategoryAverage]; [None] is [null]. *)
Definition calculateCategoryAverage (grades : list Grade.t) : option number :=
  let valid := validGrades grades in
  if Nat.eqb (List.length valid) 0 then None
  else Some (Num.mul (Num.div (totalScore valid) (totalMax valid)) 100%float).

(** A category together with its computed average: the objects
    [{...cat, average: calculateCategoryAverage(cat.grades)}]. *)
Record averaged : Type := mkAveraged {
  cat : Category.t;
  average : option number
}.

(** [cat.average !== null]. *)
Definition hasAverage (c : averaged) : bool :=
  match average c with None => false | Some _ => true end.

(** The numeric value of [cat.average] in an arithmetic expression;
    [null] would count as [0]. *)
Definition averageNumber (c : averaged) : number :=
  match average c with None => Num.zero | Some a => a end.

Definition categoriesWithAvg (categories : list Category.t) : list averaged :=
  filter hasAverage
    (map (fun cat => mkAveraged cat (calculateCategoryAverage (Category.grades cat)))
         categories).

(** [cat.weight || 0]. *)
Definition weightOrZero (c : averaged) : number :=
  Num.or (Category.weight (cat c)) Num.zero.

Definition totalWeight (cs : list averaged) : number :=
  fold_left (fun sum c => Num.add sum (weightOrZero c)) cs Num.zero.

Definition weightedSum (cs : list averaged) : number :=
  fold_left (fun sum c => Num.add sum (Num.mul (averageNumber c) (weightOrZero c)))
            cs Num.zero.

Definition averageSum (cs : list averaged) : number :=
  fold_left (fun acc c => Num.add acc (averageNumber c)) cs Num.zero.

(** [calculateFinalGrade]; [None] is [null]. *)
Definition calculateFinalGrade (categories : list Category.t) (weighted : bool)
  : option number :=
  let cs := categoriesWithAvg categories in
  if Nat.eqb (List.length cs) 0 then None
  else if weighted then
    if Num.strict_eq (totalWeight cs) Num.zero then None
    else Some (Num.div (weightedSum cs) (totalWeight cs))
  else Some (Num.div (averageSum cs) (Num.of_nat (List.length cs))).

(** [getLetterGrade]. *)
Definition getLetterGrade (percentage : number) : string :=
  if Num.ge percentage 93%float then "A"
  else if Num.ge percentage 90%float then "A-"
  else if Num.ge percentage 87%float then "B+"
  else if Num.ge percentage 83%float then "B"
  else if Num.ge percentage 80%float then "B-"
  else if Num.ge percentage 77%float then "C+"
  else if Num.ge percentage 73%float then "C"
  else if Num.ge percentage 70%float then "C-"
  else if Num.ge percentage 67%float then "D+"
  else if Num.ge percentage 63%float then "D"
  else if Num.ge percentage 60%float then "D-"
  else "F".

(** ** Category and grade management

    The functions below read and update the global [state]; here the state
    is an argument and the updated state a result. *)

(** ['cat-' + n] and ['grade-' + n]. *)
Definition categoryIdOf (n : number) : string := ("cat-" ++ NumberToString n)%string.

Definition gradeIdOf (n : number) : string := ("grade-" ++ NumberToString n)%string.

(** [n++] leaves [n + 1] in the counter. *)
Definition increment (n : number) : number := Num.add n 1%float.

(** Default arguments of [createCategory] and [createGrade]. *)
Definition defaultCategoryName : string := "New Category".
Definition defaultCategoryWeight : number := 25%float.
Definition defaultGradeName : string := "".
Definition defaultGradeScore : scalar := Null.
Definition defaultGradeMax : scalar := Num 100%float.

(** [createCategory]: returns the new category and the updated state. *)
Definition createCategory (name : string) (weight : number) (s : State.t)
  : Category.t * State.t :=
  let category :=
    Category.mk (categoryIdOf (State.nextCategoryId s)) name weight [] in
  (category,
   State.mk (State.categories s ++ [category])
            (State.isWeighted s)
            (increment (State.nextCategoryId s))
            (State.nextGradeId s)).

(** [removeCategory]. *)
Definition removeCategory (categoryId : string) (s : State.t) : State.t :=
  State.mk
    (filter (fun c => negb (String.eqb (Category.id c) categoryId))
            (State.categories s))
    (State.isWeighted s)
    (State.nextCategoryId s)
    (State.nextGradeId s).

(** [state.categories.find(c => c.id === categoryId)]. *)
Definition findCategory (categoryId : string) (s : State.t) : option Category.t :=
  find (fun c => String.eqb (Category.id c) categoryId) (State.categories s).

(** An update of the object [find] returned: the first category of the
    array with the given id. *)
Fixpoint updateFound (categoryId : string) (f : Category.t -> Category.t)
         (cs : list Category.t) : list Category.t :=
  match cs with
  | [] => []
  | c :: rest =>
      if String.eqb (Category.id c) categoryId then f c :: rest
      else c :: updateFound categoryId f rest
  end.

Definition pushGrade (grade : Grade.t) (c : Category.t) : Category.t :=
  Category.mk (Category.id c) (Category.name c) (Category.weight c)
              (Category.grades c ++ [grade]).

Definition filterGrades (gradeId : string) (c : Category.t) : Category.t :=
  Category.mk (Category.id c) (Category.name c) (Category.weight c)
              (filter (fun g => negb (String.eqb (Grade.id g) gradeId))
                      (Category.grades c)).

(** [createGrade]: returns the new grade, or [None] for [null], and the
    updated state. *)
Definition createGrade (categoryId : string) (name : string) (score max : scalar)
           (s : State.t) : option Grade.t * State.t :=
  match findCategory categoryId s with
  | None => (None, s)
  | Some _ =>
      let grade := Grade.mk (gradeIdOf (State.nextGradeId s)) name score max in
      (Some grade,
       State.mk (updateFound categoryId (pushGrade grade) (State.categories s))
                (State.isWeighted s)
                (State.nextCategoryId s)
                (increment (State.nextGradeId s)))
  end.

(** [removeGrade]. *)
Definition removeGrade (categoryId gradeId : string) (s : State.t) : State.t :=
  match findCategory categoryId s with
  | None => s
  | Some _ =>
      State.mk (updateFound categoryId (filterGrades gradeId) (State.categories s))
               (State.isWeighted s)
               (State.nextCategoryId s)
               (State.nextGradeId s)
  end.

(** [setWeightedMode]. *)
Definition setWeightedMode (weighted : bool) (s : State.t) : State.t :=
  State.mk (State.categories s) weighted
           (State.nextCategoryId s) (State.nextGradeId s).

(** The four structural operations, as a user session issues them. *)
Inductive operation : Type :=
| CreateCategory (name : string) (weight : number)
| RemoveCategory (categoryId : string)
| CreateGrade (categoryId name : string) (score max : scalar)
| RemoveGrade (categoryId gradeId : string).

(** What an operation minted: a category id, a grade id, or nothing. *)
Inductive minted : Type :=
| MintedCategory (id : string)
| MintedGrade (id : string).

Definition step (o : operation) (s : State.t) : list minted * State.t :=
  match o with
  | CreateCategory name weight =>
      let '(c, s') := createCategory name weight s in
      ([MintedCategory (Category.id c)], s')
  | RemoveCategory categoryId => ([], removeCategory categoryId s)
  | CreateGrade categoryId name score max =>
      match createGrade categoryId name score max s with
      | (Some g, s') => ([MintedGrade (Grade.id g)], s')
      | (None, s') => ([], s')
      end
  | RemoveGrade categoryId gradeId => ([], removeGrade categoryId gradeId s)
  end.

(** Runs a sequence of operations; returns everything minted, in order, and
    the final state. *)
Fixpoint run (ops : list operation) (s : State.t) : list minted * State.t :=
  match ops with
  | [] => ([], s)
  | o :: rest =>
      let '(m, s') := step o s in
      let '(ms, s'') := run rest s' in
      (m ++ ms, s'')
  end.

(** The state the script starts from. *)
Definition initialState : State.t := State.mk [] true 1%float 1%float.

(** ** Local storage functions

    What [JSON.parse] can return, and what the fields of [state] can hold
    after [loadState]: arbitrary values.  An object is the list of its
    properties in insertion order, without repeated keys. *)

Inductive value : Type :=
| VUndefined
| VNull
| VBool (b : bool)
| VNum (n : number)
| VStr (s : string)
| VArr (items : list value)
| VObj (props : list (string * value)).

(** The untyped [state] object. *)
Module Raw.
Record t : Type := mk {
  categories : value;
  isWeighted : value;
  nextCategoryId : value;
  nextGradeId : value
}.
End Raw.

(** Truthiness. *)
Definition truthy (v : value) : bool :=
  match v with
  | VUndefined | VNull => false
  | VBool b => b
  | VNum n => Num.truthy n
  | VStr s => negb (String.eqb s "")
  | VArr _ | VObj _ => true
  end.

(** [a || b]. *)
Definition orElse (a b : value) : value := if truthy a then a else b.

(** [v !== undefined]. *)
Definition isDefined (v : value) : bool :=
  match v with VUndefined => false | _ => true end.

Fixpoint lookup (k : string) (props : list (string * value)) : value :=
  match props with
  | [] => VUndefined
  | (k', v) :: rest => if String.eqb k' k then v else lookup k rest
  end.

(** An outcome of a statement that may throw. *)
Inductive outcome (A : Type) : Type :=
| Returned (a : A)
| Thrown.
Arguments Returned {A} a.
Arguments Thrown {A}.

(** [v.k] for a key [k] that is no built-in property of arrays, strings,
    numbers or booleans: reading a property of [null] or [undefined] throws
    a [TypeError], a missing property reads as [undefined]. *)
Definition getProp (v : value) (k : string) : outcome value :=
  match v with
  | VUndefined | VNull => Thrown
  | VObj props => Returned (lookup k props)
  | VBool _ | VNum _ | VStr _ | VArr _ => Returned VUndefined
  end.

(** The effect of [JSON.stringify] followed by [JSON.parse] on an object
    or an array and on what it holds: properties holding [undefined] are
    left out, [undefined] in an array becomes [null], and so does a number
    that is not finite; the negative zero is written as [0]. *)
Fixpoint jsonify (v : value) : value :=
  match v with
  | VUndefined => VNull
  | VNull => VNull
  | VBool b => VBool b
  | VNum n =>
      if Num.is_finite n
      then VNum (if Num.strict_eq n Num.zero then Num.zero else n)
      else VNull
  | VStr s => VStr s
  | VArr items => VArr (map jsonify items)
  | VObj props =>
      VObj ((fix props_of (ps : list (string * value)) : list (string * value) :=
               match ps with
               | [] => []
               | (_, VUndefined) :: rest => props_of rest
               | (k, x) :: rest => (k, jsonify x) :: props_of rest
               end) props)
  end.

(** A string kept in storage is represented by what [JSON.parse] makes of
    it: the empty string, a text [JSON.parse] rejects, or a text that it
    reads as a value. *)
Inductive text : Type :=
| EmptyText
| Unparsable
| Parses (v : value).

(** The storage area: the entry under [STORAGE_KEY], and whether reading
    and writing work (storage can be disabled, or full). *)
Record storage : Type := mkStorage {
  readable : bool;
  writable : bool;
  item : option text
}.

(** Statements that read and update [state] and may throw. *)
Definition stmt (A : Type) : Type := Raw.t -> outcome A * Raw.t.

Definition ret {A} (a : A) : stmt A := fun st => (Returned a, st).

Definition bind {A B} (m : stmt A) (k : A -> stmt B) : stmt B :=
  fun st =>
    match m st with
    | (Returned a, st') => k a st'
    | (Thrown, st') => (Thrown, st')
    end.

Definition lift {A} (o : outcome A) : stmt A := fun st => (o, st).

Definition assign (f : Raw.t -> Raw.t) : stmt unit := fun st => (Returned tt, f st).

Declare Scope stmt_scope.
Delimit Scope stmt_scope with stmt.
Notation "x <- m ;; k" := (bind m (fun x => k))
  (at level 61, m at next level, right associativity) : stmt_scope.
Notation "m ;;; k" := (bind m (fun _ => k))
  (at level 61, right associativity) : stmt_scope.

(** [try { body } catch (e) { } return fallback]. *)
Definition tryCatch {A} (body : stmt A) (fallback : A) : Raw.t -> A * Raw.t :=
  fun st =>
    match body st with
    | (Returned a, st') => (a, st')
    | (Thrown, st') => (fallback, st')
    end.

(** [localStorage.getItem(STORAGE_KEY)]; [None] is [null]. *)
Definition getItem (sto : storage) : outcome (option text) :=
  if readable sto then Returned (item sto) else Thrown.

(** [if (saved)]: [null] and the empty string are falsy. *)
Definition savedTruthy (saved : option text) : bool :=
  match saved with
  | None | Some EmptyText => false
  | Some _ => true
  end.

(** [JSON.parse(saved)]. *)
Definition JSON_parse (saved : option text) : outcome value :=
  match saved with
  | Some (Parses v) => Returned v
  | _ => Thrown
  end.

Definition setCategories (v : value) (st : Raw.t) : Raw.t :=
  Raw.mk v (Raw.isWeighted st) (Raw.nextCategoryId st) (Raw.nextGradeId st).

Definition setIsWeighted (v : value) (st : Raw.t) : Raw.t :=
  Raw.mk (Raw.categories st) v (Raw.nextCategoryId st) (Raw.nextGradeId st).

Definition setNextCategoryId (v : value) (st : Raw.t) : Raw.t :=
  Raw.mk (Raw.categories st) (Raw.isWeighted st) v (Raw.nextGradeId st).

Definition setNextGradeId (v : value) (st : Raw.t) : Raw.t :=
  Raw.mk (Raw.categories st) (Raw.isWeighted st) (Raw.nextCategoryId st) v.

Definition one : value := VNum 1%float.

(** The body of the [try] block of [loadState]. *)
Definition loadBody (sto : storage) : stmt bool :=
  (saved <- lift (getItem sto) ;;
   if savedTruthy saved then
     data <- lift (JSON_parse saved) ;;
     categories <- lift (getProp data "categories") ;;
     assign (setCategories (orElse categories (VArr []))) ;;;
     isWeighted <- lift (getProp data "isWeighted") ;;
     assign (setIsWeighted (if isDefined isWeighted then isWeighted else VBool true)) ;;;
     nextCategoryId <- lift (getProp data "nextCategoryId") ;;
     assign (setNextCategoryId (orElse nextCategoryId one)) ;;;
     nextGradeId <- lift (getProp data "nextGradeId") ;;
     assign (setNextGradeId (orElse nextGradeId one)) ;;;
     ret true
   else ret false)%stmt.

(** [loadState]: the result and the state it leaves. *)
Definition loadState (sto : storage) (st : Raw.t) : bool * Raw.t :=
  tryCatch (loadBody sto) false st.

Definition dataToSave (st : Raw.t) : value :=
  VObj [("categories"%string, Raw.categories st);
        ("isWeighted"%string, Raw.isWeighted st);
        ("nextCategoryId"%string, Raw.nextCategoryId st);
        ("nextGradeId"%string, Raw.nextGradeId st)].

(** [saveState]: the storage it leaves.  A failing [setItem] is caught and
    the storage keeps what it had. *)
Definition saveState (st : Raw.t) (sto : storage) : storage :=
  if writable sto
  then mkStorage (readable sto) (writable sto) (Some (Parses (jsonify (dataToSave st))))
  else sto.

(** *** The typed state as a [state] object

    A field that holds [undefined] is a key the object does not have. *)

Definition scalarProp (k : string) (v : scalar) : list (string * value) :=
  match v with
  | Undefined => []
  | Null => [(k, VNull)]
  | Num n => [(k, VNum n)]
  end.

Definition gradeValue (g : Grade.t) : value :=
  VObj ([("id"%string, VStr (Grade.id g)); ("name"%string, VStr (Grade.name g))]
          ++ scalarProp "score" (Grade.score g)
          ++ scalarProp "max" (Grade.max g)).

Definition categoryValue (c : Category.t) : value :=
  VObj [("id"%string, VStr (Category.id c));
        ("name"%string, VStr (Category.name c));
        ("weight"%string, VNum (Category.weight c));
        ("grades"%string, VArr (map gradeValue (Category.grades c)))].

Definition stateObject (s : State.t) : Raw.t :=
  Raw.mk (VArr (map categoryValue (State.categories s)))
         (VBool (State.isWeighted s))
         (VNum (State.nextCategoryId s))
         (VNum (State.nextGradeId s)).

(** ** The calculation functions on any value

    After [loadState] the state holds whatever the stored record held, so
    the calculation functions can be given any value.  [Untyped] follows
    them with the conversions of the language: a missing array or item
    raises a [TypeError], a string in a sum concatenates. *)

Module Untyped.

Definition bind {A B} (m : outcome A) (k : A -> outcome B) : outcome B :=
  match m with
  | Returned a => k a
  | Thrown => Thrown
  end.

Declare Scope outcome_scope.
Delimit Scope outcome_scope with outcome.
Notation "x <- m ;; k" := (bind m (fun x => k))
  (at level 61, m at next level, right associativity) : outcome_scope.

(** Whether an object has the property [k] itself. *)
Definition hasOwn (k : string) (props : list (string * value)) : bool :=
  existsb (fun p => String.eqb (fst p) k) props.

(** [ToString].  An array is joined with commas, [null] and [undefined]
    in it giving the empty string.  An object gives [[object Object]],
    unless it has a property [toString] of its own: what [JSON.parse]
    returns holds no function, the conversion finds nothing to call and
    raises a [TypeError]. *)
Fixpoint ToString (v : value) : outcome string :=
  match v with
  | VUndefined => Returned "undefined"%string
  | VNull => Returned "null"%string
  | VBool b => Returned (if b then "true" else "false")%string
  | VNum n => Returned (NumberToString n)
  | VStr s => Returned s
  | VArr items =>
      (fix join (l : list value) : outcome string :=
         match l with
         | [] => Returned ""%string
         | x :: rest =>
             bind (match x with
                   | VUndefined | VNull => Returned ""%string
                   | _ => ToString x
                   end)
                  (fun first =>
                     match rest with
                     | [] => Returned first
                     | _ => bind (join rest)
                                 (fun others => Returned (first ++ "," ++ others)%string)
                     end)
         end) items
  | VObj props =>
      if hasOwn "toString" props then Thrown else Returned "[object Object]"%string
  end.

(** [ToPrimitive]: an array or an object becomes its string. *)
Definition ToPrimitive (v : value) : outcome value :=
  match v with
  | VArr _ | VObj _ => bind (ToString v) (fun s => Returned (VStr s))
  | _ => Returned v
  end.

(** [ToNumber] and [ToString] of a value that is no array and no object. *)
Definition primitiveNumber (v : value) : number :=
  match v with
  | VUndefined => Num.nan
  | VNull => Num.zero
  | VBool b => if b then 1%float else Num.zero
  | VNum n => n
  | VStr s => StringToNumber s
  | VArr _ | VObj _ => Num.nan
  end.

Definition primitiveString (v : value) : string :=
  match v with
  | VUndefined => "undefined"
  | VNull => "null"
  | VBool b => if b then "true" else "false"
  | VNum n => NumberToString n
  | VStr s => s
  | VArr _ | VObj _ => ""
  end.

Definition isString (v : value) : bool :=
  match v with VStr _ => true | _ => false end.

(** [ToNumber]. *)
Definition ToNumber (v : value) : outcome number :=
  (p <- ToPrimitive v ;; Returned (primitiveNumber p))%outcome.

(** [a + b]: a concatenation when one side is a string once it is made
    primitive, a sum of numbers otherwise. *)
Definition plus (a b : value) : outcome value :=
  (pa <- ToPrimitive a ;;
   pb <- ToPrimitive b ;;
   if isString pa || isString pb
   then Returned (VStr (primitiveString pa ++ primitiveString pb))
   else Returned (VNum (Num.add (primitiveNumber pa) (primitiveNumber pb))))%outcome.

(** [a * b] and [a / b]. *)
Definition times (a b : value) : outcome value :=
  (x <- ToNumber a ;; y <- ToNumber b ;; Returned (VNum (Num.mul x y)))%outcome.

Definition divide (a b : value) : outcome value :=
  (x <- ToNumber a ;; y <- ToNumber b ;; Returned (VNum (Num.div x y)))%outcome.

(** [a > n] and [a >= n] for a number [n]. *)
Definition greater (a : value) (n : number) : outcome bool :=
  (x <- ToNumber a ;; Returned (Num.gt x n))%outcome.

Definition atLeast (a : value) (n : number) : outcome bool :=
  (x <- ToNumber a ;; Returned (Num.ge x n))%outcome.

(** [v !== null] and [v === 0]. *)
Definition notNull (v : value) : bool :=
  match v with VNull => false | _ => true end.

Definition isZero (v : value) : bool :=
  match v with VNum n => Num.strict_eq n Num.zero | _ => false end.

(** [items.filter(p)] and [items.reduce(f, start)] with a callback that
    may throw. *)
Fixpoint filterM (p : value -> outcome bool) (items : list value) : outcome (list value) :=
  match items with
  | [] => Returned []
  | x :: rest =>
      (keep <- p x ;;
       kept <- filterM p rest ;;
       Returned (if keep then x :: kept else kept))%outcome
  end.

Fixpoint reduceM {A : Type} (f : value -> A -> outcome value) (items : list A)
         (start : value) : outcome value :=
  match items with
  | [] => Returned start
  | x :: rest => (next <- f start x ;; reduceM f rest next)%outcome
  end.

Fixpoint mapM {A : Type} (f : value -> outcome A) (items : list value) : outcome (list A) :=
  match items with
  | [] => Returned []
  | x :: rest =>
      (y <- f x ;; ys <- mapM f rest ;; Returned (y :: ys))%outcome
  end.

(** The callback of [grades.filter]. *)
Definition isValid (g : value) : outcome bool :=
  (score <- getProp g "score" ;;
   if notNull score then
     max <- getProp g "max" ;;
     if notNull max then
       max' <- getProp g "max" ;;
       greater max' Num.zero
     else Returned false
   else Returned false)%outcome.

(** [calculateCategoryAverage]. *)
Definition calculateCategoryAverage (grades : value) : outcome value :=
  match grades with
  | VArr items =>
      (validGrades <- filterM isValid items ;;
       if Nat.eqb (List.length validGrades) 0 then Returned VNull
       else
         totalScore <- reduceM (fun sum g => score <- getProp g "score" ;; plus sum score)
                               validGrades (VNum Num.zero) ;;
         totalMax <- reduceM (fun sum g => max <- getProp g "max" ;; plus sum max)
                             validGrades (VNum Num.zero) ;;
         quotient <- divide totalScore totalMax ;;
         times quotient (VNum 100%float))%outcome
  | _ => Thrown
  end.

(** The objects [{...cat, average}]: of the properties of [cat] only
    [weight] is read. *)
Record averaged : Type := mkAveraged {
  weight : value;
  average : value
}.

(** The property [k] of [{...cat}]: a value that is no object has none
    named [weight]. *)
Definition spreadProp (cat : value) (k : string) : value :=
  match cat with
  | VObj props => lookup k props
  | _ => VUndefined
  end.

(** The callback of [categories.map]. *)
Definition withAverage (cat : value) : outcome averaged :=
  (grades <- getProp cat "grades" ;;
   average <- calculateCategoryAverage grades ;;
   Returned (mkAveraged (spreadProp cat "weight") average))%outcome.

(** [calculateFinalGrade]. *)
Definition calculateFinalGrade (categories weighted : value) : outcome value :=
  match categories with
  | VArr cats =>
      (mapped <- mapM withAverage cats ;;
       let categoriesWithAvg := filter (fun c => notNull (average c)) mapped in
       if Nat.eqb (List.length categoriesWithAvg) 0 then Returned VNull
       else if truthy weighted then
         totalWeight <- reduceM (fun sum c => plus sum (orElse (weight c) (VNum Num.zero)))
                                categoriesWithAvg (VNum Num.zero) ;;
         if isZero totalWeight then Returned VNull
         else
           weightedSum <- reduceM (fun sum c =>
                                     term <- times (average c)
                                                   (orElse (weight c) (VNum Num.zero)) ;;
                                     plus sum term)
                                  categoriesWithAvg (VNum Num.zero) ;;
           divide weightedSum totalWeight
       else
         sum <- reduceM (fun acc c => plus acc (average c))
                        categoriesWithAvg (VNum Num.zero) ;;
         divide sum (VNum (Num.of_nat (List.length categoriesWithAvg))))%outcome
  | _ => Thrown
  end.

(** [getLetterGrade]. *)
Definition getLetterGrade (percentage : value) : outcome string :=
  (a <- atLeast percentage 93%float ;; if a then Returned "A"%string else
   a <- atLeast percentage 90%float ;; if a then Returned "A-"%string else
   a <- atLeast percentage 87%float ;; if a then Returned "B+"%string else
   a <- atLeast percentage 83%float ;; if a then Returned "B"%string else
   a <- atLeast percentage 80%float ;; if a then Returned "B-"%string else
   a <- atLeast percentage 77%float ;; if a then Returned "C+"%string else
   a <- atLeast percentage 73%float ;; if a then Returned "C"%string else
   a <- atLeast percentage 70%float ;; if a then Returned "C-"%string else
   a <- atLeast percentage 67%float ;; if a then Returned "D+"%string else
   a <- atLeast percentage 63%float ;; if a then Returned "D"%string else
   a <- atLeast percentage 60%float ;; if a then Returned "D-"%string else
   Returned "F"%string)%outcome.

End Untyped.

(** ** Vocabulary of the statements *)

(** The sum of a list of numbers, added up in order from zero. *)
Definition sumOf (l : list number) : number := fold_left Num.add l Num.zero.

(** A number greater than zero. *)
Definition positive (n : number) : Prop := Num.gt n Num.zero = true.

(** A valid grade item: [score] and [max] are not [null], and [max > 0]. *)
Definition Valid (g : Grade.t) : Prop :=
  Grade.score g <> Null /\ Grade.max g <> Null /\ positive (to_number (Grade.max g)).

Definition scoreOf (g : Grade.t) : number := to_number (Grade.score g).

Definition maxOf (g : Grade.t) : number := to_number (Grade.max g).

(** The categories that have data, each as the pair of its average and its
    weight; a category whose average is null is left out. *)
Fixpoint withData (categories : list Category.t) : list (number * number) :=
  match categories with
  | [] => []
  | c :: rest =>
      match calculateCategoryAverage (Category.grades c) with
      | Some a => (a, Category.weight c) :: withData rest
      | None => withData rest
      end
  end.

Definition averages (categories : list Category.t) : list number :=
  map fst (withData categories).

Definition weights (categories : list Category.t) : list number :=
  map snd (withData categories).

(** The terms [average_i * weight_i]. *)
Definition weightedAverages (categories : list Category.t) : list number :=
  map (fun p => Num.mul (fst p) (snd p)) (withData categories).

(** The numbers from [lo] up to, and without, [hi]. *)
Definition inBand (lo hi : number) (p : number) : Prop :=
  Num.ge p lo = true /\ Num.gt hi p = true.

(** A number below [hi]. *)
Definition below (hi : number) (p : number) : Prop := Num.gt hi p = true.

(** The ids of the categories of a state, and of all its grade items. *)
Definition categoryIds (s : State.t) : list string :=
  map Category.id (State.categories s).

Definition gradeIds (s : State.t) : list string :=
  flat_map (fun c => map Grade.id (Category.grades c)) (State.categories s).

(** The ids minted from a counter that holds the integer [k]. *)
Definition categoryIdAt (k : Z) : string := categoryIdOf (Num.of_Z k).

Definition gradeIdAt (k : Z) : string := gradeIdOf (Num.of_Z k).

(** An integer that a counter holds exactly and can still be incremented
    from: a positive integer below 2^53. *)
Definition safe (k : Z) : Prop := (0 < k < 2 ^ 53)%Z.

(** A state whose counters hold the integers [nc] and [ng]. *)
Definition countersAt (nc ng : Z) (s : State.t) : Prop :=
  State.nextCategoryId s = Num.of_Z nc /\ State.nextGradeId s = Num.of_Z ng.


(** A number that [JSON.stringify] writes and [JSON.parse] reads back
    unchanged: a finite number other than the negative zero. *)
Definition storableNumber (n : number) : Prop :=
  Num.is_finite n = true /\ n <> (-0)%float.

(** A field that is read back unchanged: a storable number, [null], or a
    key the object does not have. *)
Definition storable (v : scalar) : Prop :=
  match v with
  | Null | Undefined => True
  | Num n => storableNumber n
  end.

Definition storableGrade (g : Grade.t) : Prop :=
  storable (Grade.score g) /\ storable (Grade.max g).

Definition storableCategory (c : Category.t) : Prop :=
  storableNumber (Category.weight c) /\ Forall storableGrade (Category.grades c).

(** A counter that is read back unchanged: a finite number that is not
    zero. *)
Definition storableCounter (n : number) : Prop :=
  Num.is_finite n = true /\ Num.strict_eq n Num.zero = false.

(** A state that survives a save and a load. *)
Definition restorable (s : State.t) : Prop :=
  Forall storableCategory (State.categories s)
  /\ storableCounter (State.nextCategoryId s)
  /\ storableCounter (State.nextGradeId s).

(** The property [k] of a parsed record, [undefined] when the record is
    not an object or has no such key. *)
Definition fieldOf (data : value) (k : string) : value :=
  match data with
  | VObj props => lookup k props
  | _ => VUndefined
  end.

(** A storage that works and holds the given entry. *)
Definition holding (entry : option text) : storage := mkStorage true true entry.

(** A result of a calculation function as a value. *)
Definition resultValue (r : option number) : value :=
  match r with
  | Some n => VNum n
  | None => VNull
  end.

(** ** Sample data *)

(** A grade item [{id: "grade-n", name: "", score, max}]. *)
Definition sampleGrade (n score max : Z) : Grade.t :=
  Grade.mk (gradeIdAt n) "" (Num (Num.of_Z score)) (Num (Num.of_Z max)).

(** A category [{id: "cat-n", name: "", weight, grades}]. *)
Definition sampleCategory (n weight : Z) (grades : list Grade.t) : Category.t :=
  Category.mk (categoryIdAt n) "" (Num.of_Z weight) grades.

(** 9 out of 10 and 40 out of 50. *)
Definition nineAndForty : list Grade.t :=
  [sampleGrade 1 9 10; sampleGrade 2 40 50].

(** Two categories with averages 90 and 80, weights 50 and 50. *)
Definition evenWeights : list Category.t :=
  [sampleCategory 1 50 [sampleGrade 1 90 100];
   sampleCategory 2 50 [sampleGrade 2 80 100]].

(** Two categories with averages 90 and 70, weights 100 and 1. *)
Definition unevenWeights : list Category.t :=
  [sampleCategory 1 100 [sampleGrade 1 90 100];
   sampleCategory 2 1 [sampleGrade 2 70 100]].

(** Two categories with data and weight 0, and one of weight 40 without
    a grade item. *)
Definition zeroWeights : list Category.t :=
  [sampleCategory 1 0 [sampleGrade 1 90 100];
   sampleCategory 2 0 [sampleGrade 2 80 100];
   sampleCategory 3 40 []].

(** Two categories with averages 90 and 80, the first with the weight
    [NaN], the second with the weight 50. *)
Definition nanWeight : list Category.t :=
  [Category.mk (categoryIdAt 1) "" Num.nan [sampleGrade 1 90 100];
   sampleCategory 2 50 [sampleGrade 2 80 100]].

(** Scores 66 and 58 out of 100, with the weights 25 and 75. *)
Definition quarterAndRest : list Category.t :=
  [sampleCategory 1 25 [sampleGrade 1 66 100];
   sampleCategory 2 75 [sampleGrade 2 58 100]].

(** A state with two categories and one grade item in each. *)
Definition sampleState : State.t := State.mk evenWeights true 3%float 3%float.

(** A state with no category and a category counter of zero. *)
Definition zeroCounter : State.t := State.mk [] true 0%float 1%float.


(** A grade item read from a record without the key [score]. *)
Definition missingScore : Grade.t :=
  Grade.mk (gradeIdAt 1) "" Undefined (Num 10%float).

(** A record whose [categories] entry is a string. *)
Definition corruptCategories : value :=
  VObj [("categories"%string, VStr "corrupt");
        ("isWeighted"%string, VBool false);
        ("nextCategoryId"%string, VNum 3%float);
        ("nextGradeId"%string, VNum 7%float)].

(** A record with the single key [nextGradeId]. *)
Definition onlyGradeCounter : value :=
  VObj [("nextGradeId"%string, VNum 7%float)].

(** A categories array whose single category has no [grades]. *)
Definition categoryWithoutGrades : value :=
  VArr [VObj [("id"%string, VStr "cat-1"); ("name"%string, VStr "Exams");
              ("weight"%string, VNum 100%float)]].

(** A grades array that holds [null]. *)
Definition gradesWithNull : value := VArr [VNull].

(** * More of the script *)

(** ** Clearing the data *)

(** [localStorage.removeItem(STORAGE_KEY)]: it needs the storage to be
    reachable, as [getItem] does; a storage that is full can still remove. *)
Definition removeItem (sto : storage) : outcome storage :=
  if readable sto
  then Returned (mkStorage (readable sto) (writable sto) None)
  else Thrown.

(** [clearAllData], given the answer to [confirm]: the state and the
    storage it leaves.  A failing [removeItem] is caught. *)
Definition clearAllData (confirmed : bool) (s : State.t) (sto : storage)
  : State.t * storage :=
  if confirmed then
    let sto' := match removeItem sto with
                | Returned cleared => cleared
                | Thrown => sto
                end in
    let reset := State.mk [] (State.isWeighted s) 1%float 1%float in
    (snd (createCategory "Assignments" 100%float reset), sto')
  else (s, sto).

(** ** Debouncing

    [debounce(func, wait)] keeps one variable, [timeout]: the timer that is
    set, here with the time at which it is due and the arguments [later]
    will pass to [func].  Time is a number of milliseconds, and a timer
    runs when it is due. *)

Section Debounce.

Variable args : Type.

(** The function [debounce] returns, called at time [now]: the timer that
    was set is cleared and a new one is set. *)
Definition executedFunction (wait now : nat) (a : args)
           (timeout : option (nat * args)) : option (nat * args) :=
  Some ((now + wait)%nat, a).

(** Time passes up to [now]: a timer that is due runs [func] with its
    arguments.  The result lists the calls of [func], each with its time. *)
Definition elapse (now : nat) (timeout : option (nat * args))
  : list (nat * args) * option (nat * args) :=
  match timeout with
  | Some (due, a) => if Nat.leb due now then ([(due, a)], None) else ([], timeout)
  | None => ([], None)
  end.

(** The calls of [func] caused by a sequence of timed calls of the
    debounced function, observed until the time [finish]. *)
Fixpoint debounced (wait : nat) (calls : list (nat * args)) (finish : nat)
         (timeout : option (nat * args)) : list (nat * args) :=
  match calls with
  | [] => fst (elapse finish timeout)
  | (t, a) :: rest =>
      let '(ran, timeout') := elapse t timeout in
      ran ++ debounced wait rest finish (executedFunction wait t a timeout')
  end.

(** The calls that are followed by [wait] milliseconds without another
    call, each with the time [wait] later. *)
Fixpoint settled (wait : nat) (calls : list (nat * args)) (finish : nat)
  : list (nat * args) :=
  match calls with
  | [] => []
  | (t, a) :: rest =>
      let next := match rest with
                  | [] => finish
                  | (t', _) :: _ => t'
                  end in
      if Nat.leb (t + wait)%nat next
      then ((t + wait)%nat, a) :: settled wait rest finish
      else settled wait rest finish
  end.

End Debounce.

Arguments executedFunction {args} wait now a timeout.
Arguments elapse {args} now timeout.
Arguments debounced {args} wait calls finish timeout.
Arguments settled {args} wait calls finish.

(** ** The page: state, storage and the save timer

    [debouncedSave] is [debounce(saveState, 300)]; of its timer the page
    keeps whether it is set. *)

Module App.
Record t : Type := mk {
  state : State.t;
  stored : storage;
  saveTimer : bool
}.
End App.

(** [debouncedSave()]. *)
Definition debouncedSave (w : App.t) : App.t :=
  App.mk (App.state w) (App.stored w) true.

(** [saveState()], called directly. *)
Definition saveNow (w : App.t) : App.t :=
  App.mk (App.state w)
         (saveState (stateObject (App.state w)) (App.stored w))
         (App.saveTimer w).

(** The save timer runs, if it is set. *)
Definition timerFires (w : App.t) : App.t :=
  if App.saveTimer w
  then App.mk (App.state w)
              (saveState (stateObject (App.state w)) (App.stored w))
              false
  else w.

(** A change of the state followed by a call of [debouncedSave].
    ([createGrade] and [removeGrade] return before that call when they do
    not find the category.) *)
Definition update (f : State.t -> State.t) (w : App.t) : App.t :=
  App.mk (f (App.state w)) (App.stored w) true.

(** An assignment to a field of the object at position [i]. *)
Fixpoint updateAt {A : Type} (i : nat) (f : A -> A) (l : list A) : list A :=
  match l, i with
  | [], _ => []
  | x :: rest, O => f x :: rest
  | x :: rest, S i' => x :: updateAt i' f rest
  end.

Definition withCategories (cs : list Category.t) (s : State.t) : State.t :=
  State.mk cs (State.isWeighted s) (State.nextCategoryId s) (State.nextGradeId s).

Definition setCategoryName (value : string) (c : Category.t) : Category.t :=
  Category.mk (Category.id c) value (Category.weight c) (Category.grades c).

Definition setCategoryWeight (weight : number) (c : Category.t) : Category.t :=
  Category.mk (Category.id c) (Category.name c) weight (Category.grades c).

Definition withGrades (f : list Grade.t -> list Grade.t) (c : Category.t)
  : Category.t :=
  Category.mk (Category.id c) (Category.name c) (Category.weight c)
              (f (Category.grades c)).

Definition setGradeName (value : string) (g : Grade.t) : Grade.t :=
  Grade.mk (Grade.id g) value (Grade.score g) (Grade.max g).

Definition setGradeScore (score : scalar) (g : Grade.t) : Grade.t :=
  Grade.mk (Grade.id g) (Grade.name g) score (Grade.max g).

Definition setGradeMax (max : scalar) (g : Grade.t) : Grade.t :=
  Grade.mk (Grade.id g) (Grade.name g) (Grade.score g) max.

(** [e.target.value !== '' ? parseFloat(e.target.value) : null], the text
    of the field being given by what [parseFloat] makes of it: [None] for
    the empty text. *)
Definition enteredValue (entered : option number) : scalar :=
  match entered with
  | None => Null
  | Some n => Num n
  end.

(** The category at position [i] of the state, and the grade item at
    position [j] in it. *)
Definition categoryAt (i : nat) (s : State.t) : option Category.t :=
  nth_error (State.categories s) i.

Definition gradeAt (i j : nat) (s : State.t) : option Grade.t :=
  match categoryAt i s with
  | Some c => nth_error (Category.grades c) j
  | None => None
  end.

(** What the user and the browser do.  A handler was attached to the
    element of one category or grade item object; the event names that
    object by its position in the state.  The text of a numeric field is
    given by what [parseFloat] makes of it. *)
Inductive event : Type :=
| AddCategoryClick
| CategoryNameInput (i : nat) (value : string)
| CategoryWeightInput (i : nat) (parsed : number)
| RemoveCategoryClick (i : nat)
| AddGradeClick (i : nat)
| GradeNameInput (i j : nat) (value : string)
| GradeScoreInput (i j : nat) (entered : option number)
| GradeMaxInput (i j : nat) (entered : option number)
| RemoveGradeClick (i j : nat)
| WeightedModeChange (checked : bool)
| ClearDataClick (confirmed : bool)
| SaveTimerRuns
| PageHidden
| BeforeUnload.

(** An input handler of a category: the assignment, then [debouncedSave]
    (the display updates in between are not part of the embedding).
    There is no element, and no event, for a position past the end. *)
Definition onCategory (i : nat) (f : Category.t -> Category.t) (w : App.t) : App.t :=
  match categoryAt i (App.state w) with
  | Some _ =>
      update (fun s => withCategories (updateAt i f (State.categories s)) s) w
  | None => w
  end.

(** An input handler of a grade item. *)
Definition onGrade (i j : nat) (f : Grade.t -> Grade.t) (w : App.t) : App.t :=
  match gradeAt i j (App.state w) with
  | Some _ =>
      update (fun s =>
                withCategories
                  (updateAt i (withGrades (updateAt j f)) (State.categories s)) s)
             w
  | None => w
  end.

(** The event handlers of [init], [renderCategory] and [renderGrade]. *)
Definition handle (e : event) (w : App.t) : App.t :=
  match e with
  | AddCategoryClick =>
      update (fun s => snd (createCategory defaultCategoryName
                                           defaultCategoryWeight s)) w
  | CategoryNameInput i value => onCategory i (setCategoryName value) w
  | CategoryWeightInput i parsed =>
      onCategory i (setCategoryWeight (Num.or parsed Num.zero)) w
  | RemoveCategoryClick i =>
      match categoryAt i (App.state w) with
      | Some c => update (removeCategory (Category.id c)) w
      | None => w
      end
  | AddGradeClick i =>
      match categoryAt i (App.state w) with
      | Some c =>
          match createGrade (Category.id c) defaultGradeName
                            defaultGradeScore defaultGradeMax (App.state w) with
          | (Some _, s) => App.mk s (App.stored w) true
          | (None, s) => App.mk s (App.stored w) (App.saveTimer w)
          end
      | None => w
      end
  | GradeNameInput i j value => onGrade i j (setGradeName value) w
  | GradeScoreInput i j entered => onGrade i j (setGradeScore (enteredValue entered)) w
  | GradeMaxInput i j entered => onGrade i j (setGradeMax (enteredValue entered)) w
  | RemoveGradeClick i j =>
      match categoryAt i (App.state w), gradeAt i j (App.state w) with
      | Some c, Some g =>
          match findCategory (Category.id c) (App.state w) with
          | Some _ => update (removeGrade (Category.id c) (Grade.id g)) w
          | None => w
          end
      | _, _ => w
      end
  | WeightedModeChange checked => update (setWeightedMode checked) w
  | ClearDataClick confirmed =>
      let '(s, sto) := clearAllData confirmed (App.state w) (App.stored w) in
      App.mk s sto (App.saveTimer w || confirmed)
  | SaveTimerRuns => timerFires w
  | PageHidden => saveNow w
  | BeforeUnload => saveNow w
  end.

(** A session: the events in the order they happen. *)
Definition session (events : list event) (w : App.t) : App.t :=
  fold_left (fun w e => handle e w) events w.

(** [init] after its call of [loadState], which returned [hasStoredState]
    and left the state [s]: the stored categories are shown, or a default
    category is created. *)
Definition initAfterLoad (hasStoredState : bool) (s : State.t) (sto : storage)
  : App.t :=
  if hasStoredState && negb (Nat.eqb (List.length (State.categories s)) 0)
  then App.mk s sto false
  else App.mk (snd (createCategory "Assignments" 100%float s)) sto true.

(** ** Further vocabulary *)

(** The position of a letter grade, from F (0) up to A (11); a string that
    is no letter grade has position 0. *)
Definition letterRank (letter : string) : nat :=
  if String.eqb letter "A" then 11
  else if String.eqb letter "A-" then 10
  else if String.eqb letter "B+" then 9
  else if String.eqb letter "B" then 8
  else if String.eqb letter "B-" then 7
  else if String.eqb letter "C+" then 6
  else if String.eqb letter "C" then 5
  else if String.eqb letter "C-" then 4
  else if String.eqb letter "D+" then 3
  else if String.eqb letter "D" then 2
  else if String.eqb letter "D-" then 1
  else 0.

(** Ids that were minted from a counter that has since passed them. *)
Definition numberedBelow (idAt : Z -> string) (n : Z) (ids : list string) : Prop :=
  Forall (fun id => exists k, id = idAt k /\ (0 < k < n)%Z) ids.

(** A state as the script builds it, with room for [room] more ids: the
    counters hold positive integers that stay below 2^53 when [room] is
    added, no category id and no grade id occurs twice, and each one was
    minted from a smaller counter value. *)
Definition wellNumberedFor (room : nat) (s : State.t) : Prop :=
  exists nc ng,
    countersAt nc ng s
    /\ (0 < nc)%Z /\ (nc + Z.of_nat room < 2 ^ 53)%Z
    /\ (0 < ng)%Z /\ (ng + Z.of_nat room < 2 ^ 53)%Z
    /\ NoDup (categoryIds s)
    /\ NoDup (gradeIds s)
    /\ numberedBelow categoryIdAt nc (categoryIds s)
    /\ numberedBelow gradeIdAt ng (gradeIds s).

Definition wellNumbered (s : State.t) : Prop := wellNumberedFor 0 s.

(** The grade ids of a list of categories. *)
Definition gradeIdsOf (cs : list Category.t) : list string :=
  flat_map (fun c => map Grade.id (Category.grades c)) cs.

(** The properties [JSON.stringify] writes for an object. *)
Fixpoint propsOf (ps : list (string * value)) : list (string * value) :=
  match ps with
  | [] => []
  | (_, VUndefined) :: rest => propsOf rest
  | (k, x) :: rest => (k, jsonify x) :: propsOf rest
  end.

(** A value that [JSON.stringify] writes and [JSON.parse] reads back
    unchanged: it holds no [undefined], no infinite number, no [NaN] and
    no negative zero. *)
Definition jsonClean (v : value) : Prop := jsonify v = v.

(** ** Vocabulary for sessions *)

(** Calls of the debounced function that follow each other by less than
    [wait] milliseconds. *)
Fixpoint burst {args : Type} (wait : nat) (calls : list (nat * args)) : Prop :=
  match calls with
  | [] => True
  | (t, _) :: rest =>
      match rest with
      | [] => True
      | (t', _) :: _ => (t <= t' /\ t' < t + wait)%nat /\ burst wait rest
      end
  end.

(** Loading from the storage of the page gives the state of the page. *)
Definition persisted (w : App.t) : Prop :=
  forall st, loadState (App.stored w) st = (true, stateObject (App.state w)).

(** A storage that can be read and written. *)
Definition working (sto : storage) : Prop :=
  readable sto = true /\ writable sto = true.

(** A counter that holds a positive integer, up to 2^53, where
    incrementing stops. *)
Definition counting (n : number) : Prop :=
  exists k, (0 < k <= 2 ^ 53)%Z /\ n = Num.of_Z k.

(** A state with storable numbers and counting counters. *)
Definition sound (s : State.t) : Prop :=
  Forall storableCategory (State.categories s)
  /\ counting (State.nextCategoryId s)
  /\ counting (State.nextGradeId s).

(** An event whose numeric text, if any, reads as a storable number (or,
    for a weight, as something that is no infinity). *)
Definition ordinary (e : event) : Prop :=
  match e with
  | CategoryWeightInput _ parsed =>
      parsed <> PrimFloat.infinity /\ parsed <> PrimFloat.neg_infinity
  | GradeScoreInput _ _ (Some n) | GradeMaxInput _ _ (Some n) => storableNumber n
  | _ => True
  end.

(** No category weight is [NaN]. *)
Definition weightsAreNumbers (s : State.t) : Prop :=
  Forall (fun c => Category.weight c <> Num.nan) (State.categories s).

(** Calls of the debounced function at 0, 100 and 250 milliseconds. *)
Definition threeCalls : list (nat * string) :=
  [(0%nat, "a"%string); (100%nat, "b"%string); (250%nat, "c"%string)].

(** A page on the sample state, with a working empty storage and no timer. *)
Definition samplePage : App.t := App.mk sampleState (holding None) false.

(** A weight is typed, a category is removed, a grade item is added and
    given a score. *)
Definition sampleEvents : list event :=
  [CategoryWeightInput 0 30%float;
   RemoveCategoryClick 1;
   AddGradeClick 0;
   GradeScoreInput 0 1 (Some 77%float);
   AddCategoryClick].

(** The sample page with the save timer set. *)
Definition scheduledPage : App.t := debouncedSave samplePage.

(** ** Typed data as values *)

(** A field of a grade item as a value. *)
Definition scalarValue (v : scalar) : value :=
  match v with
  | Null => VNull
  | Undefined => VUndefined
  | Num n => VNum n
  end.

(** The object [{...cat, average}] made from a category of the data
    model. *)
Definition averagedValue (c : averaged) : Untyped.averaged :=
  Untyped.mkAveraged (VNum (Category.weight (cat c))) (resultValue (average c)).

(** ** Vocabulary for the numbers *)

(** The exponent of the last place of a number with the given number of
    binary digits. *)
Abbreviation fexp64 := (fexp prec emax).

(** The double that holds the positive integer [n], for [n] below 2^53:
    53 binary digits, the integer shifted to the left. *)
Definition integerSF (n : BinNums.positive) : spec_float :=
  S754_finite false
    (Z.to_pos (Z.pos n * 2 ^ (53 - Z.pos (digits2_pos n))))
    (Z.pos (digits2_pos n) - 53)%Z.

(** * Numbers *)

Local Open Scope Z_scope.

(** ** Binary64 rounding *)

Lemma digits2_size (p : BinNums.positive) : digits2_pos p = Pos.size p.
Proof. induction p as [p IH|p IH|]; simpl; now rewrite ?IH. Qed.

Lemma digits2_log2 (p : BinNums.positive) : Z.pos (digits2_pos p) = Z.log2 (Z.pos p) + 1.
Proof.
  rewrite digits2_size.
  destruct p as [p|p|]; simpl; rewrite ?Pos2Z.inj_succ; lia.
Qed.

Lemma Zdigits2_log2 (m : Z) : 0 < m -> Zdigits2 m = Z.log2 m + 1.
Proof. destruct m; try lia. intros _. apply digits2_log2. Qed.

Lemma iter_xO (p k : BinNums.positive) : Z.pos (Pos.iter xO p k) = Z.pos p * 2 ^ Z.pos k.
Proof.
  induction k as [|k IH] using Pos.peano_ind.
  - simpl. lia.
  - rewrite Pos.iter_succ, Pos2Z.inj_succ, Z.pow_succ_r by lia.
    rewrite Pos2Z.inj_xO, IH. lia.
Qed.

Lemma shr_1_m (mrs : shr_record) :
  0 <= shr_m mrs -> shr_m (shr_1 mrs) = shr_m mrs / 2.
Proof.
  destruct mrs as [m r s]. cbn [shr_m shr_1]. intros Hm.
  destruct m as [|[p|p|]|p]; cbn [shr_m]; try lia; try reflexivity.
  - apply Z.div_unique with 1; lia.
  - apply Z.div_unique with 0; lia.
Qed.

Lemma pow2_pos (k : BinNums.positive) : 0 < 2 ^ Z.pos k.
Proof. apply Z.pow_pos_nonneg; lia. Qed.

Lemma pow2_xO (n : BinNums.positive) : 2 ^ Z.pos n~0 = 2 ^ Z.pos n * 2 ^ Z.pos n.
Proof. rewrite <- Z.pow_add_r by lia. f_equal; lia. Qed.

Lemma pow2_xI (n : BinNums.positive) : 2 ^ Z.pos n~1 = 2 * (2 ^ Z.pos n * 2 ^ Z.pos n).
Proof.
  rewrite <- pow2_xO. change 2 with (2 ^ 1) at 2.
  rewrite <- Z.pow_add_r by lia. f_equal; lia.
Qed.

Lemma iter_shr_m (n : BinNums.positive) :
  forall mrs, 0 <= shr_m mrs ->
  shr_m (iter_pos shr_1 n mrs) = shr_m mrs / 2 ^ Z.pos n.
Proof.
  induction n as [n IH|n IH|]; intros mrs Hm; cbn [iter_pos].
  - assert (H1 : 0 <= shr_m (shr_1 mrs)).
    { rewrite shr_1_m by exact Hm. apply Z.div_pos; lia. }
    assert (H2 : 0 <= shr_m (iter_pos shr_1 n (shr_1 mrs))).
    { rewrite IH by exact H1. apply Z.div_pos; [exact H1|apply pow2_pos]. }
    pose proof (pow2_pos n) as Hp.
    rewrite IH, IH, shr_1_m by assumption.
    rewrite !Z.div_div by lia.
    f_equal. rewrite pow2_xI. lia.
  - assert (H2 : 0 <= shr_m (iter_pos shr_1 n mrs)).
    { rewrite IH by exact Hm. apply Z.div_pos; [exact Hm|apply pow2_pos]. }
    pose proof (pow2_pos n) as Hp.
    rewrite IH, IH by assumption.
    rewrite Z.div_div by lia.
    f_equal. now rewrite pow2_xO.
  - rewrite shr_1_m by exact Hm. reflexivity.
Qed.

Lemma shr_1_exact (m : Z) :
  0 <= m ->
  shr_1 (Build_shr_record (2 * m) false false) = Build_shr_record m false false.
Proof. destruct m; simpl; try lia; reflexivity. Qed.

Lemma iter_shr_exact (n : BinNums.positive) :
  forall m, 0 <= m ->
  iter_pos shr_1 n (Build_shr_record (m * 2 ^ Z.pos n) false false)
  = Build_shr_record m false false.
Proof.
  induction n as [n IH|n IH|]; intros m Hm; cbn [iter_pos];
    try pose proof (pow2_pos n) as Hp.
  - replace (m * 2 ^ Z.pos n~1) with (2 * ((m * 2 ^ Z.pos n) * 2 ^ Z.pos n))
      by (rewrite pow2_xI; lia).
    rewrite shr_1_exact, IH, IH; try reflexivity; try exact Hm; nia.
  - replace (m * 2 ^ Z.pos n~0) with ((m * 2 ^ Z.pos n) * 2 ^ Z.pos n)
      by (rewrite pow2_xO; lia).
    rewrite IH, IH; try reflexivity; try exact Hm; nia.
  - rewrite Z.pow_1_r, Z.mul_comm. now apply shr_1_exact.
Qed.

Lemma fexp64_eq (e : Z) : fexp64 e = Z.max (e - 53) (-1074).
Proof. reflexivity. Qed.

Lemma fexp64_mono (a b : Z) : a <= b -> fexp64 a <= fexp64 b.
Proof. rewrite !fexp64_eq. lia. Qed.

Lemma shr_record_of_loc_m (m : Z) (l : location) : shr_m (shr_record_of_loc m l) = m.
Proof. destruct l as [|[]]; reflexivity. Qed.

Lemma log2_div_pow2 (m n : Z) :
  0 < m -> 0 <= n <= Z.log2 m -> Z.log2 (m / 2 ^ n) = Z.log2 m - n.
Proof.
  intros Hm Hn. rewrite <- Z.shiftr_div_pow2 by lia.
  rewrite Z.log2_shiftr by exact Hm. lia.
Qed.

Lemma div_pow2_pos (m n : Z) : 0 < m -> 0 <= n <= Z.log2 m -> 0 < m / 2 ^ n.
Proof.
  intros Hm Hn.
  assert (H : 2 ^ n <= m).
  { apply Z.log2_le_pow2; lia. }
  assert (0 < 2 ^ n) by (apply Z.pow_pos_nonneg; lia).
  apply Z.div_str_pos. lia.
Qed.

(** What [shr_fexp] leaves of a positive mantissa that is not below the
    exponent range: a positive mantissa at the exponent of its
    magnitude. *)
Lemma shr_fexp_canon (m e : Z) (l : location) :
  0 < m -> -1074 < Zdigits2 m + e -> e <= fexp64 (Zdigits2 m + e) ->
  exists mrs,
    shr_fexp prec emax m e l = (mrs, fexp64 (Zdigits2 m + e))
    /\ 0 < shr_m mrs
    /\ Zdigits2 (shr_m mrs) + fexp64 (Zdigits2 m + e) = Zdigits2 m + e.
Proof.
  intros Hm HD He. unfold shr_fexp, shr.
  rewrite (Zdigits2_log2 m Hm) in *.
  set (D := Z.log2 m + 1 + e) in *.
  pose proof (Z.log2_nonneg m) as Hl.
  destruct (fexp64 D - e) as [|n|n] eqn:En; try lia.
  - exists (shr_record_of_loc m l). rewrite shr_record_of_loc_m.
    replace (fexp64 D) with e by lia. rewrite Zdigits2_log2 by exact Hm.
    split; [reflexivity|]. split; [exact Hm|reflexivity].
  - exists (iter_pos shr_1 n (shr_record_of_loc m l)).
    rewrite iter_shr_m by (rewrite shr_record_of_loc_m; lia).
    rewrite shr_record_of_loc_m.
    assert (Hn : 0 <= Z.pos n <= Z.log2 m).
    { rewrite fexp64_eq in En. unfold D in *. lia. }
    split; [f_equal; lia|].
    split; [now apply div_pow2_pos|].
    rewrite Zdigits2_log2 by now apply div_pow2_pos.
    rewrite log2_div_pow2 by assumption. lia.
Qed.

Lemma round_nearest_even_bounds (m : Z) (l : location) :
  m <= round_nearest_even m l <= m + 1.
Proof. destruct l as [|[]]; simpl; try lia. destruct (Z.even m); lia. Qed.

Lemma Zdigits2_mono (a b : Z) : 0 < a -> a <= b -> Zdigits2 a <= Zdigits2 b.
Proof.
  intros Ha Hab. rewrite !Zdigits2_log2 by lia.
  pose proof (Z.log2_le_mono a b Hab). lia.
Qed.

(** Rounding a positive mantissa that is not below the exponent range
    gives a positive number of the format, or the infinity. *)
Lemma binary_round_aux_positive (sx : bool) (mx ex : Z) (lx : location) :
  0 < mx -> -1074 < Zdigits2 mx + ex -> ex <= fexp64 (Zdigits2 mx + ex) ->
  binary_round_aux prec emax sx mx ex lx = S754_infinity sx
  \/ exists m e, binary_round_aux prec emax sx mx ex lx = S754_finite sx m e
                 /\ valid_binary (S754_finite sx m e) = true.
Proof.
  intros Hm HD He. unfold binary_round_aux.
  destruct (shr_fexp_canon mx ex lx Hm HD He) as (mrs1 & E1 & Hm1 & HD1).
  rewrite E1.
  set (e1 := fexp64 (Zdigits2 mx + ex)) in *.
  set (m2 := round_nearest_even (shr_m mrs1) (loc_of_shr_record mrs1)).
  pose proof (round_nearest_even_bounds (shr_m mrs1) (loc_of_shr_record mrs1)) as Hb.
  fold m2 in Hb.
  assert (Hm2 : 0 < m2) by lia.
  assert (Hd2 : Zdigits2 (shr_m mrs1) <= Zdigits2 m2) by (apply Zdigits2_mono; lia).
  assert (He1 : e1 <= fexp64 (Zdigits2 m2 + e1)).
  { unfold e1 at 1. apply fexp64_mono. lia. }
  destruct (shr_fexp_canon m2 e1 loc_Exact Hm2 ltac:(lia) He1) as (mrs2 & E2 & Hm3 & HD2).
  rewrite E2.
  destruct (shr_m mrs2) as [|m|m] eqn:Em3; try lia.
  destruct (Z.leb _ _) eqn:Eb; [right|now left].
  exists m, (fexp64 (Zdigits2 m2 + e1)). split; [reflexivity|].
  unfold valid_binary, bounded, canonical_mantissa.
  rewrite Eb, andb_true_r. apply Z.eqb_eq.
  change (Z.pos (digits2_pos m)) with (Zdigits2 (Z.pos m)).
  now rewrite HD2.
Qed.

Lemma shl_align_spec (mx : BinNums.positive) (ex ex' : Z) :
  let '(mz, ez) := shl_align mx ex ex' in
  ez = Z.min ex ex' /\ Z.pos mz = Z.pos mx * 2 ^ (ex - ez).
Proof.
  unfold shl_align. destruct (ex' - ex) as [|d|d] eqn:E.
  - split; [lia|]. rewrite Z.sub_diag. simpl. lia.
  - split; [lia|]. rewrite Z.sub_diag. simpl. lia.
  - split; [lia|]. rewrite iter_xO. f_equal. f_equal. lia.
Qed.

Lemma binary_round_positive (sx : bool) (mx : BinNums.positive) (ex : Z) :
  -1074 < Z.pos (digits2_pos mx) + ex ->
  binary_round prec emax sx mx ex = S754_infinity sx
  \/ exists m e, binary_round prec emax sx mx ex = S754_finite sx m e
                 /\ valid_binary (S754_finite sx m e) = true.
Proof.
  intros HD. unfold binary_round.
  pose proof (shl_align_spec mx ex (fexp64 (Z.pos (digits2_pos mx) + ex))) as H.
  destruct (shl_align _ _ _) as [mz ez]. destruct H as [Hez Hmz].
  assert (Hd : Zdigits2 (Z.pos mz) + ez = Z.pos (digits2_pos mx) + ex).
  { rewrite Zdigits2_log2, Hmz, Z.log2_mul_pow2, digits2_log2 by lia. lia. }
  apply binary_round_aux_positive; [lia|lia|].
  rewrite Hd. lia.
Qed.

Lemma bounded_canonical (m : BinNums.positive) (e : Z) :
  bounded prec emax m e = true ->
  fexp64 (Zdigits2 (Z.pos m) + e) = e /\ e <= 971.
Proof.
  unfold bounded, canonical_mantissa. intros H.
  apply andb_true_iff in H. destruct H as [H1 H2].
  apply Z.eqb_eq in H1. apply Z.leb_le in H2. split; [exact H1|exact H2].
Qed.

(** A mantissa at the exponent of its magnitude is left as it is. *)
Lemma binary_round_aux_canonical (sx : bool) (m : BinNums.positive) (e : Z) :
  bounded prec emax m e = true ->
  binary_round_aux prec emax sx (Z.pos m) e loc_Exact = S754_finite sx m e.
Proof.
  intros Hb. destruct (bounded_canonical m e Hb) as [Hc He].
  unfold binary_round_aux, shr_fexp.
  rewrite Hc, Z.sub_diag. cbn [shr shr_record_of_loc shr_m loc_of_shr_record round_nearest_even].
  rewrite Hc, Z.sub_diag. cbn [shr shr_record_of_loc shr_m].
  apply Z.leb_le in He. change (emax - prec) with 971. now rewrite He.
Qed.

(** Rounding is exact on a value of the format: [mx * 2^ex] is returned
    as the mantissa [m] and exponent [e] of the format with the same
    value. *)
Lemma binary_round_exact (sx : bool) (mx : BinNums.positive) (ex : Z) (m : BinNums.positive) (e : Z) :
  bounded prec emax m e = true ->
  Z.pos mx * 2 ^ (ex - Z.min ex e) = Z.pos m * 2 ^ (e - Z.min ex e) ->
  binary_round prec emax sx mx ex = S754_finite sx m e.
Proof.
  intros Hb Hv. destruct (bounded_canonical m e Hb) as [Hc He].
  assert (HD : Z.pos (digits2_pos mx) + ex = Zdigits2 (Z.pos m) + e).
  { apply (f_equal Z.log2) in Hv.
    rewrite !Z.log2_mul_pow2 in Hv by lia.
    rewrite Zdigits2_log2, digits2_log2 by lia. lia. }
  unfold binary_round. rewrite HD, Hc.
  pose proof (shl_align_spec mx ex e) as H.
  destruct (shl_align mx ex e) as [mz ez]. destruct H as [Hez Hmz].
  destruct (Z.le_gt_cases e ex) as [Hle|Hgt].
  - (* the mantissa is shifted left to the exponent [e] *)
    replace (Z.min ex e) with e in * by lia.
    rewrite Z.sub_diag, Z.mul_1_r in Hv. subst ez.
    assert (mz = m) by lia. subst mz.
    now apply binary_round_aux_canonical.
  - (* the mantissa is shifted right, exactly *)
    replace (Z.min ex e) with ex in * by lia.
    subst ez. rewrite Z.sub_diag, Z.mul_1_r in Hv, Hmz.
    assert (mz = mx) by lia. subst mz.
    unfold binary_round_aux, shr_fexp.
    change (Z.pos (digits2_pos mx)) with (Zdigits2 (Z.pos mx)) in HD.
    rewrite HD, Hc.
    destruct (e - ex) as [|n|n] eqn:En; try lia.
    cbn [shr shr_record_of_loc]. rewrite Hv.
    rewrite iter_shr_exact by lia.
    cbn [shr_m loc_of_shr_record round_nearest_even].
    replace (ex + Z.pos n) with e by lia.
    rewrite Hc, Z.sub_diag. cbn [shr shr_record_of_loc shr_m].
    apply Z.leb_le in He. change (emax - prec) with 971. now rewrite He.
Qed.

(** *** Integers below 2^53 *)

(** The number of the format whose value is the integer [n], for
    [0 < n < 2^53]. *)
Lemma digits_below (n : BinNums.positive) : Z.pos n < 2 ^ 53 -> Z.pos (digits2_pos n) <= 53.
Proof.
  intros H. rewrite digits2_log2.
  apply Z.log2_lt_pow2 in H; lia.
Qed.

Lemma integerSF_mantissa (n : BinNums.positive) :
  Z.pos n < 2 ^ 53 ->
  Z.pos (Z.to_pos (Z.pos n * 2 ^ (53 - Z.pos (digits2_pos n))))
  = Z.pos n * 2 ^ (53 - Z.pos (digits2_pos n)).
Proof.
  intros H. pose proof (digits_below n H).
  assert (0 < 2 ^ (53 - Z.pos (digits2_pos n))) by (apply Z.pow_pos_nonneg; lia).
  rewrite Z2Pos.id; nia.
Qed.

Lemma integerSF_bounded (n : BinNums.positive) :
  Z.pos n < 2 ^ 53 ->
  bounded prec emax
    (Z.to_pos (Z.pos n * 2 ^ (53 - Z.pos (digits2_pos n))))
    (Z.pos (digits2_pos n) - 53) = true.
Proof.
  intros H. pose proof (digits_below n H) as Hd.
  unfold bounded, canonical_mantissa.
  apply andb_true_iff. split; [apply Z.eqb_eq|apply Z.leb_le; change (emax - prec) with 971; lia].
  rewrite digits2_log2, integerSF_mantissa, Z.log2_mul_pow2 by (try exact H; lia).
  rewrite fexp64_eq. rewrite digits2_log2 in *. pose proof (Z.log2_nonneg (Z.pos n)). lia.
Qed.

Lemma integerSF_valid (n : BinNums.positive) :
  Z.pos n < 2 ^ 53 -> valid_binary (integerSF n) = true.
Proof. exact (integerSF_bounded n). Qed.

(** A mantissa and an exponent whose value is the integer [n] round to
    [integerSF n]. *)
Lemma binary_round_integer (mx : BinNums.positive) (ex : Z) (n : BinNums.positive) :
  Z.pos n < 2 ^ 53 -> -52 <= ex <= 0 -> Z.pos mx = Z.pos n * 2 ^ (- ex) ->
  binary_round prec emax false mx ex = integerSF n.
Proof.
  intros Hn Hex Hm. pose proof (digits_below n Hn) as Hd.
  apply binary_round_exact; [now apply integerSF_bounded|].
  rewrite integerSF_mantissa by exact Hn.
  set (d := Z.pos (digits2_pos n)) in *.
  assert (Hd1 : 1 <= d) by (unfold d; lia).
  rewrite Hm.
  destruct (Z.le_gt_cases ex (d - 53)).
  - replace (Z.min ex (d - 53)) with ex by lia.
    rewrite Z.sub_diag, Z.mul_1_r, <- Z.mul_assoc, <- Z.pow_add_r by lia.
    f_equal. f_equal. lia.
  - replace (Z.min ex (d - 53)) with (d - 53) by lia.
    rewrite Z.sub_diag, Z.mul_1_r, <- Z.mul_assoc, <- Z.pow_add_r by lia.
    f_equal. f_equal. lia.
Qed.

Lemma binary_normalize_integer (n : BinNums.positive) :
  Z.pos n < 2 ^ 53 ->
  binary_normalize prec emax (Z.pos n) 0 false = integerSF n.
Proof.
  intros Hn. cbn [binary_normalize].
  apply binary_round_integer; [exact Hn|lia|]. simpl. lia.
Qed.

Lemma integerSF_exponent (n : BinNums.positive) :
  Z.pos n < 2 ^ 53 -> -52 <= Z.pos (digits2_pos n) - 53 <= 0.
Proof. intros H. pose proof (digits_below n H). lia. Qed.

(** Adding two integers whose sum is below 2^53 is exact. *)
Lemma SFadd_integer (a b : BinNums.positive) :
  Z.pos (a + b) < 2 ^ 53 ->
  SFadd prec emax (integerSF a) (integerSF b) = integerSF (a + b).
Proof.
  intros Hab.
  assert (Ha : Z.pos a < 2 ^ 53) by lia.
  assert (Hb : Z.pos b < 2 ^ 53) by lia.
  pose proof (integerSF_exponent a Ha) as Hea.
  pose proof (integerSF_exponent b Hb) as Heb.
  unfold integerSF at 1 2. cbn [SFadd cond_Zopp].
  set (ea := Z.pos (digits2_pos a) - 53) in *.
  set (eb := Z.pos (digits2_pos b) - 53) in *.
  set (ma := Z.to_pos (Z.pos a * 2 ^ (53 - Z.pos (digits2_pos a)))).
  set (mb := Z.to_pos (Z.pos b * 2 ^ (53 - Z.pos (digits2_pos b)))).
  pose proof (shl_align_spec ma ea (Z.min ea eb)) as H1.
  pose proof (shl_align_spec mb eb (Z.min ea eb)) as H2.
  destruct (shl_align ma ea (Z.min ea eb)) as [ma' ea'].
  destruct (shl_align mb eb (Z.min ea eb)) as [mb' eb'].
  destruct H1 as [H1e H1m], H2 as [H2e H2m]. cbn [fst].
  change (Z.pos ma' + Z.pos mb') with (Z.pos (ma' + mb')).
  cbn [binary_normalize]. change IntDef.Z.min with Z.min.
  apply binary_round_integer; [exact Hab|lia|].
  rewrite Pos2Z.inj_add, H1m, H2m. unfold ma, mb.
  rewrite !integerSF_mantissa by assumption.
  rewrite Pos2Z.inj_add, Z.mul_add_distr_r, <- !Z.mul_assoc, <- !Z.pow_add_r by lia.
  f_equal; f_equal; f_equal; lia.
Qed.

(** *** Sums *)

Lemma valid_exponent (s : bool) (m : BinNums.positive) (e : Z) :
  valid_binary (S754_finite s m e) = true -> -1074 <= e.
Proof.
  intros H. destruct (bounded_canonical m e H) as [Hc _].
  rewrite fexp64_eq in Hc. lia.
Qed.

(** A sum of two finite numbers is a finite number, an infinity or the
    positive zero, and has the sign of its exact value. *)
Lemma SFadd_finite (sx : bool) (mx : BinNums.positive) (ex : Z) (sy : bool) (my : BinNums.positive) (ey : Z) :
  valid_binary (S754_finite sx mx ex) = true ->
  valid_binary (S754_finite sy my ey) = true ->
  let z := SFadd prec emax (S754_finite sx mx ex) (S754_finite sy my ey) in
  z = S754_zero false
  \/ (exists s, z = S754_infinity s /\ (sx = sy -> s = sx))
  \/ (exists s m e, z = S754_finite s m e /\ valid_binary z = true /\ (sx = sy -> s = sx)).
Proof.
  intros Hx Hy. apply valid_exponent in Hx, Hy.
  cbn [SFadd]. change IntDef.Z.min with Z.min.
  pose proof (shl_align_spec mx ex (Z.min ex ey)) as H1.
  pose proof (shl_align_spec my ey (Z.min ex ey)) as H2.
  destruct (shl_align mx ex (Z.min ex ey)) as [mx' ex'].
  destruct (shl_align my ey (Z.min ex ey)) as [my' ey'].
  cbn [fst]. clear H1 H2. cbv zeta.
  set (sum := (cond_Zopp sx (Z.pos mx') + cond_Zopp sy (Z.pos my'))%Z).
  assert (Hsign : sx = sy -> match sum with Z0 => False | Z.pos _ => sx = false | Z.neg _ => sx = true end).
  { intros <-. unfold sum. destruct sx; simpl; reflexivity. }
  destruct sum as [|p|p]; cbn [binary_normalize].
  - now left.
  - right.
    destruct (binary_round_positive false p (Z.min ex ey)) as [E | (m & e & E & Hv)];
      [lia| |]; rewrite E.
    + left. exists false. split; [reflexivity|]. intros H. symmetry. now apply Hsign.
    + right. exists false, m, e. repeat split; [exact Hv|].
      intros H. symmetry. now apply Hsign.
  - right.
    destruct (binary_round_positive true p (Z.min ex ey)) as [E | (m & e & E & Hv)];
      [lia| |]; rewrite E.
    + left. exists true. split; [reflexivity|]. intros H. symmetry. now apply Hsign.
    + right. exists true, m, e. repeat split; [exact Hv|].
      intros H. symmetry. now apply Hsign.
Qed.

Local Close Scope Z_scope.

Ltac cmp_cases :=
  change (Pos.compare_cont Eq) with Pos.compare in *;
  repeat match goal with
  | |- context [(?a ?= ?b)%Z] => destruct (Z.compare_spec a b)
  | |- context [(?a ?= ?b)%positive] => destruct (Pos.compare_spec a b)
  | H : context [(?a ?= ?b)%Z] |- _ => destruct (Z.compare_spec a b)
  | H : context [(?a ?= ?b)%positive] |- _ => destruct (Pos.compare_spec a b)
  end.

Lemma SFcompare_antisym x y c :
  SFcompare x y = Some c -> SFcompare y x = Some (CompOpp c).
Proof.
  destruct x as [sx|sx| |sx mx ex], y as [sy|sy| |sy my ey]; simpl;
    try discriminate; intros [= <-];
    try (destruct sx); try (destruct sy); try reflexivity.
  all: cmp_cases; simpl; try reflexivity; try lia.
Qed.

Lemma SFcompare_none x y :
  SFcompare x y = None <-> x = S754_nan \/ y = S754_nan.
Proof.
  destruct x as [sx|sx| |sx mx ex], y as [sy|sy| |sy my ey]; simpl;
    split; try discriminate; try (intros [H|H]; discriminate); auto.
Qed.

Lemma SFleb_trans x y z :
  SFleb x y = true -> SFleb y z = true -> SFleb x z = true.
Proof.
  unfold SFleb.
  destruct x as [sx|sx| |sx mx ex], y as [sy|sy| |sy my ey], z as [sz|sz| |sz mz ez];
    simpl; try discriminate; try reflexivity;
    try (destruct sx); try (destruct sy); try (destruct sz);
    try discriminate; try reflexivity.
  all: cmp_cases; simpl; try discriminate; try reflexivity; try lia.
Qed.

Lemma SFltb_leb x y : SFltb x y = true -> SFleb x y = true.
Proof. unfold SFltb, SFleb. destruct (SFcompare x y) as [[]|]; congruence. Qed.

(** [x < y] is the negation of [y <= x] when both are numbers. *)
Lemma SFltb_not_leb x y :
  x <> S754_nan -> y <> S754_nan -> SFltb x y = negb (SFleb y x).
Proof.
  intros Hx Hy. unfold SFltb, SFleb.
  destruct (SFcompare x y) as [c|] eqn:E.
  - rewrite (SFcompare_antisym _ _ _ E). now destruct c.
  - apply SFcompare_none in E. tauto.
Qed.

Lemma SFleb_nan_l x : SFleb S754_nan x = false.
Proof. reflexivity. Qed.
Lemma SFleb_nan_r x : SFleb x S754_nan = false.
Proof. now destruct x. Qed.

(** *** Numbers of the script *)

Lemma Prim2SF_zero : Prim2SF Num.zero = S754_zero false.
Proof. reflexivity. Qed.

Lemma SFcompare_refl (v : spec_float) : v <> S754_nan -> SFcompare v v = Some Eq.
Proof.
  destruct v as [s|s| |s m e]; simpl; try congruence; intros _;
    destruct s; try reflexivity.
  all: rewrite Z.compare_refl; change (Pos.compare_cont Eq m m) with (m ?= m)%positive;
    now rewrite Pos.compare_refl.
Qed.

Lemma is_nan_spec (x : number) : Num.is_nan x = true <-> Prim2SF x = S754_nan.
Proof.
  unfold Num.is_nan, is_nan. rewrite eqb_spec. unfold SFeqb.
  destruct (Prim2SF x) as [s|s| |s m e] eqn:E;
    try (rewrite SFcompare_refl by discriminate; simpl; split; discriminate).
  simpl. tauto.
Qed.

Lemma nan_unique (x : number) : Prim2SF x = S754_nan -> x = Num.nan.
Proof. intros H. apply Prim2SF_inj. now rewrite H. Qed.

Lemma is_nan_eq (x : number) : Num.is_nan x = true <-> x = Num.nan.
Proof.
  rewrite is_nan_spec. split; [apply nan_unique | now intros ->].
Qed.

Lemma not_nan_spec (x : number) : x <> Num.nan <-> Prim2SF x <> S754_nan.
Proof.
  split; intros H E; apply H; [now apply nan_unique | now rewrite E].
Qed.

Lemma ge_spec (a b : number) : Num.ge a b = SFleb (Prim2SF b) (Prim2SF a).
Proof. apply leb_spec. Qed.

Lemma gt_spec (a b : number) : Num.gt a b = SFltb (Prim2SF b) (Prim2SF a).
Proof. apply ltb_spec. Qed.

Lemma ge_trans (a b c : number) :
  Num.ge a b = true -> Num.ge b c = true -> Num.ge a c = true.
Proof.
  rewrite !ge_spec. intros H1 H2. exact (SFleb_trans _ _ _ H2 H1).
Qed.

Lemma gt_ge (a b : number) : Num.gt a b = true -> Num.ge a b = true.
Proof. rewrite gt_spec, ge_spec. apply SFltb_leb. Qed.

(** Among numbers, [a < b] is the negation of [a >= b]. *)
Lemma gt_not_ge (a b : number) :
  a <> Num.nan -> b <> Num.nan -> Num.gt b a = negb (Num.ge a b).
Proof.
  intros Ha Hb. rewrite gt_spec, ge_spec.
  apply SFltb_not_leb; now apply not_nan_spec.
Qed.

Lemma ge_not_nan (a b : number) : Num.ge a b = true -> a <> Num.nan /\ b <> Num.nan.
Proof.
  rewrite ge_spec. intros H. split; intros ->.
  - change (Prim2SF Num.nan) with S754_nan in H. now rewrite SFleb_nan_r in H.
  - change (Prim2SF Num.nan) with S754_nan in H. now rewrite SFleb_nan_l in H.
Qed.

Lemma gt_not_nan (a b : number) : Num.gt a b = true -> a <> Num.nan /\ b <> Num.nan.
Proof. intros H. now apply ge_not_nan, gt_ge. Qed.

(** [a > c] when [a >= b] and [b > c]. *)
Lemma ge_gt_trans (a b c : number) :
  Num.ge a b = true -> Num.gt b c = true -> Num.gt a c = true.
Proof.
  intros H1 H2.
  destruct (ge_not_nan _ _ H1) as [Ha Hb]. destruct (gt_not_nan _ _ H2) as [_ Hc].
  rewrite (gt_not_ge c a Hc Ha). apply negb_true_iff.
  destruct (Num.ge c a) eqn:E; [|reflexivity].
  pose proof (ge_trans _ _ _ E H1) as H3.
  rewrite (gt_not_ge c b Hc Hb), H3 in H2. discriminate.
Qed.

(** The two zeros. *)
Lemma strict_eq_zero_cases (x : number) :
  Num.strict_eq x Num.zero = true <-> x = 0%float \/ x = (-0)%float.
Proof.
  unfold Num.strict_eq. rewrite eqb_spec, Prim2SF_zero. unfold SFeqb. split.
  - destruct (Prim2SF x) as [s|s| |s m e] eqn:E; simpl; try discriminate.
    + intros _. destruct s; [right|left]; apply Prim2SF_inj; now rewrite E.
    + destruct s; discriminate.
    + destruct s; discriminate.
  - intros [-> | ->]; reflexivity.
Qed.

Lemma truthy_not_nan (x : number) : Num.truthy x = true -> x <> Num.nan.
Proof.
  unfold Num.truthy. intros H. apply andb_true_iff in H. destruct H as [_ H].
  apply negb_true_iff in H. intros E. apply is_nan_eq in E. congruence.
Qed.

Lemma or_zero_not_nan (x : number) : Num.or x Num.zero <> Num.nan.
Proof.
  unfold Num.or. destruct (Num.truthy x) eqn:E.
  - now apply truthy_not_nan.
  - intros H. apply (f_equal Prim2SF) in H. discriminate H.
Qed.

(** [NaN] in a sum, a product or a quotient. *)
Lemma add_nan_r (x : number) : Num.add x Num.nan = Num.nan.
Proof.
  apply Prim2SF_inj. unfold Num.add. rewrite add_spec.
  change (Prim2SF Num.nan) with S754_nan. now destruct (Prim2SF x).
Qed.

Lemma add_nan_l (x : number) : Num.add Num.nan x = Num.nan.
Proof.
  apply Prim2SF_inj. unfold Num.add. rewrite add_spec. reflexivity.
Qed.

Lemma mul_nan_l (x : number) : Num.mul Num.nan x = Num.nan.
Proof.
  apply Prim2SF_inj. unfold Num.mul. rewrite mul_spec. reflexivity.
Qed.

Lemma div_nan_l (x : number) : Num.div Num.nan x = Num.nan.
Proof.
  apply Prim2SF_inj. unfold Num.div. rewrite div_spec. reflexivity.
Qed.

Lemma mul_comm (x y : number) : Num.mul x y = Num.mul y x.
Proof.
  apply Prim2SF_inj. unfold Num.mul. rewrite !mul_spec. unfold SF64mul.
  destruct (Prim2SF x) as [sx|sx| |sx mx ex], (Prim2SF y) as [sy|sy| |sy my ey];
    simpl; try reflexivity; try (now rewrite xorb_comm).
  now rewrite xorb_comm, Pos.mul_comm, Z.add_comm.
Qed.

(** A number greater than zero is a positive finite number or the
    positive infinity. *)
Lemma positive_spec (x : number) :
  positive x <->
  (exists m e, Prim2SF x = S754_finite false m e) \/ Prim2SF x = S754_infinity false.
Proof.
  unfold positive. rewrite gt_spec, Prim2SF_zero. unfold SFltb.
  destruct (Prim2SF x) as [s|s| |s m e]; simpl; split;
    try discriminate; try (destruct s; discriminate);
    try (intros [(m' & e' & H)|H]; discriminate).
  - destruct s; [discriminate|now right].
  - intros [(m' & e' & H)|H]; [discriminate|now injection H as ->].
  - destruct s; [discriminate|]. intros _. left. now exists m, e.
  - intros [(m' & e' & H)|H]; [now injection H as -> _ _|discriminate].
Qed.

(** A number that is at least zero is a zero, a positive finite number or
    the positive infinity. *)
Lemma nonneg_spec (x : number) :
  Num.ge x Num.zero = true <->
  (exists s, Prim2SF x = S754_zero s)
  \/ (exists m e, Prim2SF x = S754_finite false m e)
  \/ Prim2SF x = S754_infinity false.
Proof.
  rewrite ge_spec, Prim2SF_zero. unfold SFleb.
  destruct (Prim2SF x) as [s|s| |s m e]; simpl; split;
    try discriminate; try (destruct s; discriminate).
  - intros _. left. now exists s.
  - reflexivity.
  - destruct s; [discriminate|]. intros _. right. now right.
  - intros [(s' & H)|[(m' & e' & H)|H]]; try discriminate. now injection H as ->.
  - intros [(s' & H)|[(m' & e' & H)|H]]; discriminate.
  - destruct s; [discriminate|]. intros _. right. left. now exists m, e.
  - intros [(s' & H)|[(m' & e' & H)|H]]; try discriminate. now injection H as -> _ _.
Qed.

Lemma positive_nonneg (x : number) : positive x -> Num.ge x Num.zero = true.
Proof. apply gt_ge. Qed.

(** Adding a number greater than zero to one that is at least zero gives
    a number greater than zero. *)
Lemma add_positive (x y : number) :
  Num.ge x Num.zero = true -> positive y -> positive (Num.add x y).
Proof.
  intros Hx Hy. apply nonneg_spec in Hx. apply positive_spec in Hy.
  apply positive_spec. unfold Num.add. rewrite add_spec. unfold SF64add.
  pose proof (Prim2SF_valid x) as Vx. pose proof (Prim2SF_valid y) as Vy.
  destruct Hx as [(s & Ex)|[(mx & ex & Ex)|Ex]];
    destruct Hy as [(my & ey & Ey)|Ey]; rewrite Ex, Ey in *.
  - left. now exists my, ey.
  - now right.
  - destruct (SFadd_finite false mx ex false my ey Vx Vy) as [E|[(s & E & Hs)|(s & m & e & E & _ & Hs)]].
    + simpl in E. cbn [SFadd] in E. exfalso.
      revert E. cbn [SFadd]. change IntDef.Z.min with Z.min.
      destruct (shl_align mx ex (Z.min ex ey)) as [a ?], (shl_align my ey (Z.min ex ey)) as [b ?].
      cbn [fst cond_Zopp]. change (Z.pos a + Z.pos b)%Z with (Z.pos (a + b)).
      cbn [binary_normalize]. intros E.
      destruct (binary_round_positive false (a + b) (Z.min ex ey)) as [E'|(m & e & E' & _)];
        [apply valid_exponent in Vx, Vy; lia| |]; rewrite E' in E; discriminate.
    + right. rewrite E. now rewrite (Hs eq_refl).
    + left. rewrite E, (Hs eq_refl). now exists m, e.
  - now right.
  - now right.
  - now right.
Qed.

(** *** Counters *)

Lemma Prim2SF_of_Z (n : BinNums.positive) :
  (Z.pos n < 2 ^ 53)%Z -> Prim2SF (Num.of_Z (Z.pos n)) = integerSF n.
Proof.
  intros Hn. unfold Num.of_Z. rewrite binary_normalize_integer by exact Hn.
  apply Prim2SF_SF2Prim. now apply integerSF_valid.
Qed.

(** Up to 2^53, the sum of two positive integers is computed exactly. *)
Lemma add_of_Z (a b : Z) :
  (0 < a)%Z -> (0 < b)%Z -> (a + b < 2 ^ 53)%Z ->
  Num.add (Num.of_Z a) (Num.of_Z b) = Num.of_Z (a + b).
Proof.
  intros Ha Hb Hab.
  destruct a as [|a|a], b as [|b|b]; try lia.
  apply Prim2SF_inj. unfold Num.add. rewrite add_spec.
  change (Z.pos a + Z.pos b)%Z with (Z.pos (a + b)) in *.
  rewrite !Prim2SF_of_Z by lia. now apply SFadd_integer.
Qed.

Lemma increment_of_Z (k : Z) :
  (0 < k)%Z -> (k + 1 < 2 ^ 53)%Z -> increment (Num.of_Z k) = Num.of_Z (k + 1).
Proof.
  intros Hk Hr. unfold increment.
  change 1%float with (Num.of_Z 1). now apply add_of_Z.
Qed.

(** From 2^53 on the counter stays where it is. *)
Lemma increment_full : increment (Num.of_Z (2 ^ 53)) = Num.of_Z (2 ^ 53).
Proof. reflexivity. Qed.

Lemma increment_last : increment (Num.of_Z (2 ^ 53 - 1)) = Num.of_Z (2 ^ 53).
Proof. reflexivity. Qed.

Lemma counting_increment (n : number) : counting n -> counting (increment n).
Proof.
  intros (k & Hk & ->).
  destruct (Z.lt_ge_cases (k + 1) (2 ^ 53)) as [H|H].
  - exists (k + 1)%Z. split; [lia|]. apply increment_of_Z; lia.
  - exists (2 ^ 53)%Z. split; [lia|].
    destruct (Z.eq_dec k (2 ^ 53)) as [-> | Hne]; [exact increment_full|].
    replace k with (2 ^ 53 - 1)%Z by lia. exact increment_last.
Qed.

(** *** The text of a counter *)

Lemma digitsOf_inj (a b : Z) :
  (0 <= a)%Z -> (0 <= b)%Z -> digitsOf a = digitsOf b -> a = b.
Proof.
  intros Ha Hb H. unfold digitsOf in H.
  assert (Hn : forall n, N.to_uint n <> Decimal.Nil).
  { intros [|p]; simpl; [discriminate|]. apply DecimalPos.Unsigned.to_uint_nonnil. }
  assert (E : Some (N.to_uint (Z.to_N a)) = Some (N.to_uint (Z.to_N b))).
  { rewrite <- (NilZero.usu _ (Hn (Z.to_N a))), <- (NilZero.usu _ (Hn (Z.to_N b))).
    now rewrite H. }
  injection E as E. apply DecimalN.Unsigned.to_uint_inj in E. lia.
Qed.

Lemma fraction_integer (m : BinNums.positive) (e : Z) :
  (e <= 0)%Z -> fraction m e = (Z.pos m, (2 ^ (- e))%Z).
Proof. destruct e; try lia; reflexivity. Qed.

Lemma integerOf_integerSF (n : BinNums.positive) :
  (Z.pos n < 2 ^ 53)%Z -> integerOf (integerSF n) = Some (Z.pos n).
Proof.
  intros Hn. pose proof (integerSF_exponent n Hn) as He.
  unfold integerSF, integerOf.
  rewrite fraction_integer by lia.
  rewrite integerSF_mantissa by exact Hn.
  replace (- (Z.pos (digits2_pos n) - 53))%Z with (53 - Z.pos (digits2_pos n))%Z by lia.
  assert (Hp : (2 ^ (53 - Z.pos (digits2_pos n)) <> 0)%Z).
  { apply Z.pow_nonzero; lia. }
  rewrite Z.mod_mul, Z.div_mul by exact Hp. reflexivity.
Qed.

(** A positive integer below 2^53 is written with its digits. *)
Lemma NumberToString_of_Z (k : Z) :
  safe k -> NumberToString (Num.of_Z k) = digitsOf k.
Proof.
  intros [Hk Hlt]. destruct k as [|n|n]; try lia.
  unfold NumberToString. rewrite Prim2SF_of_Z by exact Hlt.
  pose proof (integerOf_integerSF n Hlt) as H.
  unfold integerSF in *. rewrite H.
  assert (Hle : (Z.pos n <=? 2 ^ 53)%Z = true) by (apply Z.leb_le; lia).
  now rewrite Hle.
Qed.

Lemma categoryIdAt_digits (k : Z) :
  safe k -> categoryIdAt k = ("cat-" ++ digitsOf k)%string.
Proof.
  intros Hk. unfold categoryIdAt, categoryIdOf. now rewrite NumberToString_of_Z.
Qed.

Lemma gradeIdAt_digits (k : Z) :
  safe k -> gradeIdAt k = ("grade-" ++ digitsOf k)%string.
Proof.
  intros Hk. unfold gradeIdAt, gradeIdOf. now rewrite NumberToString_of_Z.
Qed.

Lemma categoryIdAt_inj (a b : Z) :
  safe a -> safe b -> categoryIdAt a = categoryIdAt b -> a = b.
Proof.
  intros Ha Hb. rewrite !categoryIdAt_digits by assumption.
  simpl. intros [= H]. apply digitsOf_inj; unfold safe in *; try lia. exact H.
Qed.

Lemma gradeIdAt_inj (a b : Z) :
  safe a -> safe b -> gradeIdAt a = gradeIdAt b -> a = b.
Proof.
  intros Ha Hb. rewrite !gradeIdAt_digits by assumption.
  simpl. intros [= H]. apply digitsOf_inj; unfold safe in *; try lia. exact H.
Qed.



(** *** Finite numbers *)

Lemma is_finite_spec (x : number) :
  Num.is_finite x = true <->
  (exists s, Prim2SF x = S754_zero s) \/ (exists s m e, Prim2SF x = S754_finite s m e).
Proof.
  unfold Num.is_finite, is_finite, is_infinity.
  fold (Num.is_nan x).
  destruct (Num.is_nan x) eqn:En.
  - apply is_nan_spec in En. rewrite En. simpl. split; [discriminate|].
    intros [(s & H)|(s & m & e & H)]; discriminate.
  - rewrite eqb_spec, abs_spec.
    destruct (Prim2SF x) as [s|s| |s m e] eqn:E; simpl.
    + split; [|reflexivity]. intros _. left. now exists s.
    + split; [discriminate|]. intros [(s' & H)|(s' & m & e & H)]; discriminate.
    + exfalso. apply is_nan_spec in E. congruence.
    + split; [|reflexivity]. intros _. right. now exists s, m, e.
Qed.

Lemma counting_storable (n : number) : counting n -> storableCounter n.
Proof.
  intros (k & Hk & ->).
  destruct (Z.eq_dec k (2 ^ 53)) as [-> | Hne]; [split; reflexivity|].
  destruct k as [|p|p]; try lia.
  assert (Hp : (Z.pos p < 2 ^ 53)%Z) by lia.
  split.
  - apply is_finite_spec. right. rewrite Prim2SF_of_Z by exact Hp.
    unfold integerSF. eauto.
  - unfold Num.strict_eq. rewrite eqb_spec, Prim2SF_of_Z by exact Hp. reflexivity.
Qed.

Lemma storableCounter_truthy (n : number) : storableCounter n -> Num.truthy n = true.
Proof.
  intros [Hf Hz]. unfold Num.truthy. rewrite Hz. simpl.
  apply negb_true_iff. destruct (Num.is_nan n) eqn:E; [|reflexivity].
  apply is_nan_spec in E. apply is_finite_spec in Hf.
  destruct Hf as [(s & H)|(s & m & e & H)]; congruence.
Qed.

(** *** The negative zero *)

Lemma neg_zero_spec (x : number) : x = (-0)%float <-> Prim2SF x = S754_zero true.
Proof.
  split; [now intros ->|]. intros H. apply Prim2SF_inj. now rewrite H.
Qed.

(** Adding a zero of either sign makes no difference, unless the sum so
    far is the negative zero. *)
Lemma add_zeros (acc z z' : number) :
  acc <> (-0)%float ->
  Num.strict_eq z Num.zero = true -> Num.strict_eq z' Num.zero = true ->
  Num.add acc z = Num.add acc z'.
Proof.
  intros Hacc Hz Hz'.
  assert (Ha : Prim2SF acc <> S754_zero true).
  { intros E. apply Hacc. now apply neg_zero_spec. }
  apply Prim2SF_inj. unfold Num.add. rewrite !add_spec. unfold SF64add.
  apply strict_eq_zero_cases in Hz, Hz'.
  destruct Hz as [-> | ->], Hz' as [-> | ->]; try reflexivity;
    change (Prim2SF 0%float) with (S754_zero false);
    change (Prim2SF (-0)%float) with (S754_zero true);
    destruct (Prim2SF acc) as [[|]| | |]; try reflexivity; congruence.
Qed.

(** A sum is the negative zero only when both terms are. *)
Lemma add_not_neg_zero (acc y : number) :
  acc <> (-0)%float -> Num.add acc y <> (-0)%float.
Proof.
  intros Hacc E.
  assert (Ha : Prim2SF acc <> S754_zero true).
  { intros H. apply Hacc. now apply neg_zero_spec. }
  apply neg_zero_spec in E. unfold Num.add in E. rewrite add_spec in E.
  unfold SF64add in E.
  pose proof (Prim2SF_valid acc) as Va. pose proof (Prim2SF_valid y) as Vy.
  destruct (Prim2SF acc) as [sa|sa| |sa ma ea], (Prim2SF y) as [sy|sy| |sy my ey];
    try discriminate E;
    try (destruct sa, sy; simpl in E; congruence).
  destruct (SFadd_finite sa ma ea sy my ey Va Vy)
    as [H|[(s & H & _)|(s & m & e & H & _)]]; cbv zeta in H; rewrite H in E; discriminate.
Qed.

Lemma mul_zero_is_zero_or_nan (a z : number) :
  Num.strict_eq z Num.zero = true ->
  Num.strict_eq (Num.mul a z) Num.zero = true \/ Num.mul a z = Num.nan.
Proof.
  intros Hz.
  assert (Ez : exists s, Prim2SF z = S754_zero s).
  { apply strict_eq_zero_cases in Hz.
    destruct Hz as [-> | ->]; [exists false | exists true]; reflexivity. }
  destruct Ez as (s & Ez).
  unfold Num.strict_eq, Num.mul. rewrite eqb_spec, Prim2SF_zero.
  destruct (Prim2SF a) as [sa|sa| |sa ma ea] eqn:Ea.
  - left. rewrite mul_spec, Ea, Ez. reflexivity.
  - right. apply Prim2SF_inj. rewrite mul_spec, Ea, Ez. reflexivity.
  - right. apply Prim2SF_inj. rewrite mul_spec, Ea, Ez. reflexivity.
  - left. rewrite mul_spec, Ea, Ez. reflexivity.
Qed.

Lemma mul_zeros_nan (a z z' : number) :
  Num.strict_eq z Num.zero = true -> Num.strict_eq z' Num.zero = true ->
  Num.mul a z = Num.nan -> Num.mul a z' = Num.nan.
Proof.
  intros Hz Hz' H.
  apply strict_eq_zero_cases in Hz, Hz'.
  apply (f_equal Prim2SF) in H. unfold Num.mul in *. rewrite mul_spec in H.
  apply Prim2SF_inj. rewrite mul_spec.
  destruct Hz as [-> | ->], Hz' as [-> | ->];
    change (Prim2SF 0%float) with (S754_zero false) in *;
    change (Prim2SF (-0)%float) with (S754_zero true) in *;
    destruct (Prim2SF a) as [[|]|[|]| |[|] ? ?]; try discriminate H; reflexivity.
Qed.

(** *** Storable numbers *)

Lemma storableNumber_jsonify (n : number) :
  storableNumber n -> jsonify (VNum n) = VNum n.
Proof.
  intros [Hf Hz]. simpl. rewrite Hf.
  destruct (Num.strict_eq n Num.zero) eqn:E; [|reflexivity].
  apply strict_eq_zero_cases in E. destruct E as [-> | ->]; [reflexivity|contradiction].
Qed.

(** The number of entries of a list that is not empty is greater than
    zero. *)
Lemma of_nat_positive (n : nat) : (0 < n)%nat -> positive (Num.of_nat n).
Proof.
  intros Hn. unfold Num.of_nat, Num.of_Z.
  destruct (Z.of_nat n) as [|p|p] eqn:E; try lia.
  cbn [binary_normalize].
  apply positive_spec.
  destruct (binary_round_positive false p 0) as [H|(m & e & H & Hv)]; [lia| |].
  - right. now rewrite H.
  - left. rewrite H. exists m, e. now apply Prim2SF_SF2Prim.
Qed.

(** * The aggregation engine *)

(** [reduce] with [+] from [0] is the sum, whatever is read off each
    element. *)
Lemma fold_add_map {A : Type} (f : A -> number) (l : list A) (acc : number) :
  fold_left (fun sum x => Num.add sum (f x)) l acc = fold_left Num.add (map f l) acc.
Proof.
  revert acc. induction l as [|x l IH]; intros acc; simpl; [reflexivity|apply IH].
Qed.

Lemma fold_add_sum {A : Type} (f : A -> number) (l : list A) :
  fold_left (fun sum x => Num.add sum (f x)) l Num.zero = sumOf (map f l).
Proof. apply fold_add_map. Qed.

(** A sum of numbers greater than zero, from a start that is at least
    zero, is at least zero, and greater than zero when there is a term. *)
Lemma fold_add_positive (l : list number) (acc : number) :
  Num.ge acc Num.zero = true -> Forall positive l ->
  Num.ge (fold_left Num.add l acc) Num.zero = true
  /\ (l <> [] -> positive (fold_left Num.add l acc)).
Proof.
  intros Hacc Hl. revert acc Hacc.
  induction Hl as [|x l Hx _ IH]; intros acc Hacc; simpl.
  - split; [exact Hacc|congruence].
  - pose proof (add_positive acc x Hacc Hx) as Hp.
    destruct (IH (Num.add acc x) (positive_nonneg _ Hp)) as [H1 H2].
    split; [exact H1|]. intros _.
    destruct l as [|y l]; [exact Hp|]. apply H2. discriminate.
Qed.

Lemma sumOf_positive (l : list number) :
  l <> [] -> Forall positive l -> positive (sumOf l).
Proof.
  intros Hne Hl. unfold sumOf.
  now apply (fold_add_positive l Num.zero).
Qed.

(** ** The category average *)

Lemma isValid_Valid (g : Grade.t) : isValid g = true <-> Valid g.
Proof.
  unfold isValid, Valid, positive.
  destruct g as [i n s m]; simpl.
  destruct s as [| |sn], m as [| |mn]; simpl;
    split; try (intros (H1 & H2 & H3)); try intros H;
    try congruence; try discriminate;
    try (repeat split; solve [congruence | assumption]).
Qed.

Lemma isValid_not_Valid (g : Grade.t) : isValid g = false <-> ~ Valid g.
Proof.
  rewrite <- isValid_Valid. destruct (isValid g); split; congruence.
Qed.

Lemma validGrades_In (grades : list Grade.t) (g : Grade.t) :
  In g (validGrades grades) <-> In g grades /\ Valid g.
Proof.
  unfold validGrades. now rewrite filter_In, isValid_Valid.
Qed.

(** The kept items are the valid ones, in their order: any filter that
    decides validity keeps the same list. *)
Lemma validGrades_filter (grades : list Grade.t) (keep : Grade.t -> bool) :
  (forall g, keep g = true <-> Valid g) ->
  validGrades grades = filter keep grades.
Proof.
  intros Hkeep. unfold validGrades. apply filter_ext.
  intros g. pose proof (isValid_Valid g) as Hv. specialize (Hkeep g).
  destruct (isValid g), (keep g); try reflexivity.
  - symmetry. apply Hkeep, Hv. reflexivity.
  - apply Hv, Hkeep. reflexivity.
Qed.

Lemma validGrades_nil (grades : list Grade.t) :
  validGrades grades = [] <-> (forall g, In g grades -> ~ Valid g).
Proof.
  split.
  - intros E g Hin Hv.
    assert (H : In g (validGrades grades)) by now apply validGrades_In.
    now rewrite E in H.
  - intros H. destruct (validGrades grades) as [|g rest] eqn:E; [reflexivity|].
    assert (Hg : In g (validGrades grades)) by (rewrite E; now left).
    apply validGrades_In in Hg. destruct Hg as [Hin Hv].
    exfalso. exact (H g Hin Hv).
Qed.

Lemma validGrades_cons (grades : list Grade.t) :
  validGrades grades <> [] <-> (exists g, In g grades /\ Valid g).
Proof.
  split.
  - intros Hne. destruct (validGrades grades) as [|g rest] eqn:E; [congruence|].
    exists g. apply validGrades_In. rewrite E. now left.
  - intros (g & Hin & Hv) E.
    destruct (validGrades_nil grades) as [H1 _]. exact (H1 E g Hin Hv).
Qed.

Lemma length_eqb_nil {A : Type} (l : list A) :
  Nat.eqb (List.length l) 0 = true <-> l = [].
Proof. destruct l; simpl; split; congruence. Qed.

Lemma totalScore_sum (valid : list Grade.t) :
  totalScore valid = sumOf (map scoreOf valid).
Proof. apply fold_add_sum. Qed.

Lemma totalMax_sum (valid : list Grade.t) :
  totalMax valid = sumOf (map maxOf valid).
Proof. apply fold_add_sum. Qed.

(** The average, in terms of the two sums. *)
Lemma calculateCategoryAverage_unfold (grades : list Grade.t) :
  calculateCategoryAverage grades =
    match validGrades grades with
    | [] => None
    | valid =>
        Some (Num.mul 100%float
                      (Num.div (sumOf (map scoreOf valid)) (sumOf (map maxOf valid))))
    end.
Proof.
  unfold calculateCategoryAverage.
  rewrite totalScore_sum, totalMax_sum, mul_comm.
  now destruct (validGrades grades).
Qed.

Lemma calculateCategoryAverage_some (grades : list Grade.t) :
  validGrades grades <> [] ->
  calculateCategoryAverage grades =
    Some (Num.mul 100%float
            (Num.div (sumOf (map scoreOf (validGrades grades)))
                     (sumOf (map maxOf (validGrades grades))))).
Proof.
  intros Hne. rewrite calculateCategoryAverage_unfold.
  destruct (validGrades grades); [congruence | reflexivity].
Qed.

(** The summed max of the valid items is greater than zero. *)
Lemma pointsPossible_positive (grades : list Grade.t) :
  validGrades grades <> [] -> positive (sumOf (map maxOf (validGrades grades))).
Proof.
  intros Hne. apply sumOf_positive.
  - intros E. apply map_eq_nil in E. contradiction.
  - apply Forall_map, Forall_forall. intros g Hg.
    apply validGrades_In in Hg. destruct Hg as [_ (_ & _ & Hp)]. exact Hp.
Qed.

(** C1.  [calculateCategoryAverage] keeps exactly the valid items of the
    list (score and max not null, max greater than zero), in their order.
    When no item is valid it returns null.  Otherwise the sum of the valid
    max values is greater than zero and the function returns 100 times the
    sum of the valid scores over the sum of the valid max values, sums,
    quotient and product being those of the numbers of the language,
    taken in the order of the list. *)
Theorem calculateCategoryAverage_points_over_possible (grades : list Grade.t) :
  (forall keep : Grade.t -> bool,
      (forall g, keep g = true <-> Valid g) ->
      validGrades grades = filter keep grades)
  /\ ((forall g, In g grades -> ~ Valid g) ->
      calculateCategoryAverage grades = None)
  /\ ((exists g, In g grades /\ Valid g) ->
      positive (sumOf (map maxOf (validGrades grades)))
      /\ calculateCategoryAverage grades =
           Some (Num.mul 100%float
                   (Num.div (sumOf (map scoreOf (validGrades grades)))
                            (sumOf (map maxOf (validGrades grades)))))).
Proof.
  split; [apply validGrades_filter|]. split.
  - intros H. destruct (validGrades_nil grades) as [_ H2].
    now rewrite calculateCategoryAverage_unfold, (H2 H).
  - intros H. apply validGrades_cons in H. split.
    + now apply pointsPossible_positive.
    + now apply calculateCategoryAverage_some.
Qed.

(** ** The final grade *)

(** A weight that is falsy and not [NaN] is a zero. *)
Lemma falsy_zero (w : number) :
  w <> Num.nan -> Num.truthy w = false -> Num.strict_eq w Num.zero = true.
Proof.
  intros Hn Ht. unfold Num.truthy in Ht.
  destruct (Num.strict_eq w Num.zero); [reflexivity|].
  simpl in Ht. apply negb_false_iff in Ht. apply is_nan_eq in Ht. contradiction.
Qed.

(** In a sum that is not the negative zero, [w || 0] counts as [w],
    unless [w] is [NaN]. *)
Lemma add_or_zero (acc w : number) :
  acc <> (-0)%float -> w <> Num.nan ->
  Num.add acc (Num.or w Num.zero) = Num.add acc w.
Proof.
  intros Hacc Hw. unfold Num.or.
  destruct (Num.truthy w) eqn:E; [reflexivity|].
  apply add_zeros; [exact Hacc|reflexivity|now apply falsy_zero].
Qed.

Lemma add_mul_or_zero (acc a w : number) :
  acc <> (-0)%float -> w <> Num.nan ->
  Num.add acc (Num.mul a (Num.or w Num.zero)) = Num.add acc (Num.mul a w).
Proof.
  intros Hacc Hw. unfold Num.or.
  destruct (Num.truthy w) eqn:E; [reflexivity|].
  pose proof (falsy_zero w Hw E) as Hz.
  assert (H0 : Num.strict_eq Num.zero Num.zero = true) by reflexivity.
  destruct (mul_zero_is_zero_or_nan a Num.zero H0) as [Z0 | N0],
           (mul_zero_is_zero_or_nan a w Hz) as [Zw | Nw].
  - now apply add_zeros.
  - rewrite (mul_zeros_nan a w Num.zero Hz H0 Nw) in Z0. discriminate Z0.
  - rewrite (mul_zeros_nan a Num.zero w H0 Hz N0) in Zw. discriminate Zw.
  - now rewrite N0, Nw.
Qed.

Lemma zero_not_neg_zero : Num.zero <> (-0)%float.
Proof. intros E. apply (f_equal Prim2SF) in E. discriminate E. Qed.

(** The sum of the weights [weight || 0] is the sum of the weights, when
    none is [NaN]; and so for the terms [average * weight]. *)
Lemma sum_or_zero (l : list (number * number)) (acc : number) :
  acc <> (-0)%float -> Forall (fun p => snd p <> Num.nan) l ->
  fold_left Num.add (map (fun p => Num.or (snd p) Num.zero) l) acc
  = fold_left Num.add (map snd l) acc.
Proof.
  intros Hacc Hl. revert acc Hacc.
  induction Hl as [|p l Hp _ IH]; intros acc Hacc; simpl; [reflexivity|].
  rewrite (add_or_zero acc (snd p) Hacc Hp).
  apply IH. now apply add_not_neg_zero.
Qed.

Lemma sum_mul_or_zero (l : list (number * number)) (acc : number) :
  acc <> (-0)%float -> Forall (fun p => snd p <> Num.nan) l ->
  fold_left Num.add (map (fun p => Num.mul (fst p) (Num.or (snd p) Num.zero)) l) acc
  = fold_left Num.add (map (fun p => Num.mul (fst p) (snd p)) l) acc.
Proof.
  intros Hacc Hl. revert acc Hacc.
  induction Hl as [|p l Hp _ IH]; intros acc Hacc; simpl; [reflexivity|].
  rewrite (add_mul_or_zero acc (fst p) (snd p) Hacc Hp).
  apply IH. now apply add_not_neg_zero.
Qed.

(** The averaged categories that are kept, read as pairs, are the
    categories with data. *)
Lemma categoriesWithAvg_withData (categories : list Category.t) :
  map (fun c => (averageNumber c, Category.weight (cat c)))
      (categoriesWithAvg categories)
  = withData categories.
Proof.
  unfold categoriesWithAvg.
  induction categories as [|c rest IH]; simpl; [reflexivity|].
  unfold hasAverage at 1. simpl.
  destruct (calculateCategoryAverage (Category.grades c)) as [a|] eqn:E; simpl.
  - unfold averageNumber at 1. simpl. now f_equal.
  - exact IH.
Qed.

Lemma categoriesWithAvg_length (categories : list Category.t) :
  List.length (categoriesWithAvg categories) = List.length (withData categories).
Proof.
  rewrite <- categoriesWithAvg_withData. now rewrite length_map.
Qed.

Lemma averageSum_sum (categories : list Category.t) :
  averageSum (categoriesWithAvg categories) = sumOf (averages categories).
Proof.
  unfold averageSum, averages. rewrite fold_add_sum.
  now rewrite <- categoriesWithAvg_withData, map_map.
Qed.

(** With the weights [weight || 0]. *)
Lemma totalWeight_sum_or (categories : list Category.t) :
  totalWeight (categoriesWithAvg categories)
  = sumOf (map (fun p => Num.or (snd p) Num.zero) (withData categories)).
Proof.
  unfold totalWeight. rewrite fold_add_sum.
  now rewrite <- categoriesWithAvg_withData, map_map.
Qed.

Lemma weightedSum_sum_or (categories : list Category.t) :
  weightedSum (categoriesWithAvg categories)
  = sumOf (map (fun p => Num.mul (fst p) (Num.or (snd p) Num.zero))
               (withData categories)).
Proof.
  unfold weightedSum. rewrite fold_add_sum.
  now rewrite <- categoriesWithAvg_withData, map_map.
Qed.

Lemma withData_weight (categories : list Category.t) (p : number * number) :
  In p (withData categories) ->
  exists c, In c categories /\ snd p = Category.weight c.
Proof.
  induction categories as [|c rest IH]; simpl; [contradiction|].
  destruct (calculateCategoryAverage (Category.grades c)).
  - intros [<- | Hin].
    + exists c. split; [now left | reflexivity].
    + destruct (IH Hin) as (c' & Hc' & E). exists c'. split; [now right | exact E].
  - intros Hin. destruct (IH Hin) as (c' & Hc' & E).
    exists c'. split; [now right | exact E].
Qed.

Lemma withData_weights_not_nan (categories : list Category.t) :
  (forall c, In c categories -> Category.weight c <> Num.nan) ->
  Forall (fun p => snd p <> Num.nan) (withData categories).
Proof.
  intros Hw. apply Forall_forall. intros p Hp.
  destruct (withData_weight _ _ Hp) as (c & Hc & E).
  rewrite E. now apply Hw.
Qed.

Lemma totalWeight_sum (categories : list Category.t) :
  (forall c, In c categories -> Category.weight c <> Num.nan) ->
  totalWeight (categoriesWithAvg categories) = sumOf (weights categories).
Proof.
  intros Hw. rewrite totalWeight_sum_or. unfold weights, sumOf.
  apply sum_or_zero; [exact zero_not_neg_zero|].
  now apply withData_weights_not_nan.
Qed.

Lemma weightedSum_sum (categories : list Category.t) :
  (forall c, In c categories -> Category.weight c <> Num.nan) ->
  weightedSum (categoriesWithAvg categories) = sumOf (weightedAverages categories).
Proof.
  intros Hw. rewrite weightedSum_sum_or. unfold weightedAverages, sumOf.
  apply sum_mul_or_zero; [exact zero_not_neg_zero|].
  now apply withData_weights_not_nan.
Qed.

(** The weighted branch, in terms of the kept categories. *)
Lemma calculateFinalGrade_weighted_unfold (categories : list Category.t) :
  calculateFinalGrade categories true =
    if Nat.eqb (List.length (withData categories)) 0 then None
    else if Num.strict_eq (totalWeight (categoriesWithAvg categories)) Num.zero
         then None
         else Some (Num.div (weightedSum (categoriesWithAvg categories))
                            (totalWeight (categoriesWithAvg categories))).
Proof.
  unfold calculateFinalGrade. now rewrite categoriesWithAvg_length.
Qed.

Lemma calculateFinalGrade_unweighted_unfold (categories : list Category.t) :
  calculateFinalGrade categories false =
    if Nat.eqb (List.length (withData categories)) 0 then None
    else Some (Num.div (sumOf (averages categories))
                       (Num.of_nat (List.length (withData categories)))).
Proof.
  unfold calculateFinalGrade.
  now rewrite categoriesWithAvg_length, averageSum_sum.
Qed.

(** C2, amended.  In weighted mode [calculateFinalGrade] looks only at the
    categories that have data.  It returns null when there is none, null
    when their weights sum to zero, and otherwise, when no weight is
    [NaN], the sum of average times weight over the sum of the weights,
    sums, products and quotient being those of the numbers of the
    language, taken in the order of the list. *)
Theorem calculateFinalGrade_weighted (categories : list Category.t) :
  (forall c, In c categories -> Category.weight c <> Num.nan) ->
  (withData categories = [] -> calculateFinalGrade categories true = None)
  /\ (Num.strict_eq (sumOf (weights categories)) Num.zero = true ->
      calculateFinalGrade categories true = None)
  /\ (withData categories <> [] ->
      Num.strict_eq (sumOf (weights categories)) Num.zero = false ->
      calculateFinalGrade categories true =
        Some (Num.div (sumOf (weightedAverages categories))
                      (sumOf (weights categories)))).
Proof.
  intros Hw.
  rewrite calculateFinalGrade_weighted_unfold.
  rewrite (totalWeight_sum _ Hw), (weightedSum_sum _ Hw).
  repeat split.
  - intros E. now rewrite E.
  - intros E. rewrite E. now destruct (Nat.eqb _ _).
  - intros Hne Hz. rewrite Hz.
    destruct (Nat.eqb _ _) eqn:E; [|reflexivity].
    apply length_eqb_nil in E. contradiction.
Qed.

Lemma withData_grades (cs cs' : list Category.t) :
  map Category.grades cs' = map Category.grades cs ->
  averages cs' = averages cs.
Proof.
  unfold averages. revert cs'.
  induction cs as [|c rest IH]; intros [|c' rest']; simpl; try discriminate.
  - reflexivity.
  - intros [= Hg Hrest]. rewrite Hg.
    destruct (calculateCategoryAverage (Category.grades c)); simpl;
      rewrite (IH rest' Hrest); reflexivity.
Qed.

(** C4.  In unweighted mode, when at least one category has data,
    [calculateFinalGrade] returns the arithmetic mean of the averages of
    the categories with data: their sum, taken in the order of the list,
    over their number.  The weights play no part: two lists of categories
    with the same grades give the same result. *)
Theorem calculateFinalGrade_unweighted (categories : list Category.t) :
  withData categories <> [] ->
  calculateFinalGrade categories false =
    Some (Num.div (sumOf (averages categories))
                  (Num.of_nat (List.length (averages categories))))
  /\ (forall categories',
        map Category.grades categories' = map Category.grades categories ->
        calculateFinalGrade categories' false = calculateFinalGrade categories false).
Proof.
  intros Hne. split.
  - rewrite calculateFinalGrade_unweighted_unfold.
    unfold averages. rewrite length_map.
    destruct (Nat.eqb _ _) eqn:E; [|reflexivity].
    apply length_eqb_nil in E. contradiction.
  - intros cs' Hg.
    rewrite !calculateFinalGrade_unweighted_unfold.
    assert (Hl : List.length (withData cs') = List.length (withData categories)).
    { rewrite <- (length_map fst (withData cs')),
              <- (length_map fst (withData categories)).
      fold (averages cs') (averages categories).
      now rewrite (withData_grades _ _ Hg). }
    now rewrite Hl, (withData_grades _ _ Hg).
Qed.

(** C1 on the sample: 9/10 and 40/50 give 49/60 of 100, which the
    language computes as 81.66666666666667, and not 85, the mean of 90
    and 80. *)
Lemma nineAndForty_average :
  calculateCategoryAverage nineAndForty = Some 81.66666666666667%float
  /\ Num.strict_eq 81.66666666666667%float 85%float = false.
Proof.
  split; [|reflexivity].
  destruct (calculateCategoryAverage_points_over_possible nineAndForty)
    as (_ & _ & H).
  destruct H as [_ H].
  - exists (sampleGrade 1 9 10). split; [now left|].
    repeat split; discriminate.
  - rewrite H. reflexivity.
Defined.

(** C2 on the sample: averages 90 and 80 with weights 50 and 50 give 85. *)
Lemma evenWeights_final :
  (forall c, In c evenWeights -> Category.weight c <> Num.nan)
  /\ calculateFinalGrade evenWeights true = Some 85%float.
Proof.
  assert (Hw : forall c, In c evenWeights -> Category.weight c <> Num.nan).
  { intros c [<- | [<- | []]]; intros E; apply (f_equal Prim2SF) in E; discriminate E. }
  split; [exact Hw|].
  destruct (calculateFinalGrade_weighted evenWeights Hw) as (_ & _ & H).
  rewrite H.
  - reflexivity.
  - discriminate.
  - reflexivity.
Defined.

(** C2 as stated fails on a weight that is [NaN]: the code counts it as
    zero and returns 80, where the sum of average times weight over the
    sum of the weights is [NaN]. *)
Lemma nan_weight_counts_as_zero :
  withData nanWeight <> []
  /\ Num.strict_eq (sumOf (weights nanWeight)) Num.zero = false
  /\ Num.div (sumOf (weightedAverages nanWeight)) (sumOf (weights nanWeight)) = Num.nan
  /\ calculateFinalGrade nanWeight true = Some 80%float
  /\ Num.strict_eq 80%float Num.nan = false.
Proof. repeat split; try reflexivity. discriminate. Qed.

(** C4 on the sample: averages 90 and 70 give 80, whatever the weights. *)
Lemma unevenWeights_final :
  withData unevenWeights <> []
  /\ calculateFinalGrade unevenWeights false = Some 80%float.
Proof.
  assert (Hne : withData unevenWeights <> []) by discriminate.
  split; [exact Hne|].
  destruct (calculateFinalGrade_unweighted unevenWeights Hne) as [H _].
  rewrite H. reflexivity.
Defined.

(** Weights that sum to zero over the categories with data give null. *)
Example zeroWeights_final : calculateFinalGrade zeroWeights true = None.
Proof. reflexivity. Qed.

(** Sums, products and quotients are rounded: scores 66 and 58 out of
    100 with the weights 25 and 75 give a number just below 60. *)
Example quarterAndRest_final :
  calculateFinalGrade quarterAndRest true = Some 59.99999999999999%float.
Proof. reflexivity. Qed.

(** ** Letter grades *)

Lemma ge_above (p hi t : number) :
  below hi p -> Num.ge t hi = true -> Num.ge p t = false.
Proof.
  unfold below. intros Hp Ht.
  pose proof (ge_gt_trans t hi p Ht Hp) as H.
  destruct (gt_not_nan _ _ H) as [Hnt Hnp].
  rewrite (gt_not_ge p t Hnp Hnt) in H. now apply negb_true_iff in H.
Qed.

Lemma ge_below (p lo t : number) :
  Num.ge p lo = true -> Num.ge lo t = true -> Num.ge p t = true.
Proof. apply ge_trans. Qed.

(** Decides every comparison of [getLetterGrade] from a lower and an upper
    bound on the percentage. *)
Ltac letter_of_bounds :=
  unfold getLetterGrade;
  repeat match goal with
         | Hlo : Num.ge ?p ?lo = true |- context [Num.ge ?p ?t] =>
             rewrite (ge_below p lo t Hlo) by reflexivity
         | Hhi : below ?hi ?p |- context [Num.ge ?p ?t] =>
             rewrite (ge_above p hi t Hhi) by reflexivity
         end;
  reflexivity.

Lemma letter_in_band (lo hi : number) (letter : string) :
  (forall p, Num.ge p lo = true -> below hi p -> getLetterGrade p = letter) ->
  forall p, inBand lo hi p -> getLetterGrade p = letter.
Proof. intros H p [Hlo Hhi]. now apply H. Qed.

(** A number is [NaN], or below a threshold, or at least the threshold. *)
Lemma below_or_ge (p t : number) :
  p <> Num.nan -> t <> Num.nan -> below t p \/ Num.ge p t = true.
Proof.
  intros Hp Ht. unfold below. rewrite (gt_not_ge p t Hp Ht).
  destruct (Num.ge p t); [now right | now left].
Qed.

Lemma threshold_not_nan (t : number) : Num.ge t t = true -> t <> Num.nan.
Proof. intros H. now destruct (ge_not_nan _ _ H). Qed.

(** Every number that is not [NaN] is below 60, in one of the bands, or
    at least 93. *)
Lemma every_number_in_a_band (p : number) :
  p <> Num.nan ->
  below 60%float p
  \/ inBand 60%float 63%float p \/ inBand 63%float 67%float p
  \/ inBand 67%float 70%float p \/ inBand 70%float 73%float p
  \/ inBand 73%float 77%float p \/ inBand 77%float 80%float p
  \/ inBand 80%float 83%float p \/ inBand 83%float 87%float p
  \/ inBand 87%float 90%float p \/ inBand 90%float 93%float p
  \/ Num.ge p 93%float = true.
Proof.
  intros Hp. unfold inBand.
  destruct (below_or_ge p 60%float Hp (threshold_not_nan 60%float eq_refl)) as [H|H60]; [tauto|].
  destruct (below_or_ge p 63%float Hp (threshold_not_nan 63%float eq_refl)) as [H|H63]; [tauto|].
  destruct (below_or_ge p 67%float Hp (threshold_not_nan 67%float eq_refl)) as [H|H67]; [tauto|].
  destruct (below_or_ge p 70%float Hp (threshold_not_nan 70%float eq_refl)) as [H|H70]; [tauto|].
  destruct (below_or_ge p 73%float Hp (threshold_not_nan 73%float eq_refl)) as [H|H73]; [tauto|].
  destruct (below_or_ge p 77%float Hp (threshold_not_nan 77%float eq_refl)) as [H|H77]; [tauto|].
  destruct (below_or_ge p 80%float Hp (threshold_not_nan 80%float eq_refl)) as [H|H80]; [tauto|].
  destruct (below_or_ge p 83%float Hp (threshold_not_nan 83%float eq_refl)) as [H|H83]; [tauto|].
  destruct (below_or_ge p 87%float Hp (threshold_not_nan 87%float eq_refl)) as [H|H87]; [tauto|].
  destruct (below_or_ge p 90%float Hp (threshold_not_nan 90%float eq_refl)) as [H|H90]; [tauto|].
  destruct (below_or_ge p 93%float Hp (threshold_not_nan 93%float eq_refl)) as [H|H93]; tauto.
Qed.

(** C3.  [getLetterGrade] compares the percentage it is given, as it is,
    with the thresholds from the highest down; each letter has a closed
    lower bound and an open upper bound, and every number that is not
    [NaN] lies in one of these ranges.  [NaN] compares false with every
    threshold and gets an F, as [-Infinity] does; [Infinity] gets an A.
    93 is an A, 92.999 an A-, 59.999 an F. *)
Theorem getLetterGrade_thresholds :
  (forall p, Num.ge p 93%float = true -> getLetterGrade p = "A"%string)
  /\ (forall p, inBand 90%float 93%float p -> getLetterGrade p = "A-"%string)
  /\ (forall p, inBand 87%float 90%float p -> getLetterGrade p = "B+"%string)
  /\ (forall p, inBand 83%float 87%float p -> getLetterGrade p = "B"%string)
  /\ (forall p, inBand 80%float 83%float p -> getLetterGrade p = "B-"%string)
  /\ (forall p, inBand 77%float 80%float p -> getLetterGrade p = "C+"%string)
  /\ (forall p, inBand 73%float 77%float p -> getLetterGrade p = "C"%string)
  /\ (forall p, inBand 70%float 73%float p -> getLetterGrade p = "C-"%string)
  /\ (forall p, inBand 67%float 70%float p -> getLetterGrade p = "D+"%string)
  /\ (forall p, inBand 63%float 67%float p -> getLetterGrade p = "D"%string)
  /\ (forall p, inBand 60%float 63%float p -> getLetterGrade p = "D-"%string)
  /\ (forall p, below 60%float p -> getLetterGrade p = "F"%string)
  /\ (forall p,
        p = Num.nan
        \/ below 60%float p
        \/ inBand 60%float 63%float p \/ inBand 63%float 67%float p
        \/ inBand 67%float 70%float p \/ inBand 70%float 73%float p
        \/ inBand 73%float 77%float p \/ inBand 77%float 80%float p
        \/ inBand 80%float 83%float p \/ inBand 83%float 87%float p
        \/ inBand 87%float 90%float p \/ inBand 90%float 93%float p
        \/ Num.ge p 93%float = true)
  /\ getLetterGrade Num.nan = "F"%string
  /\ getLetterGrade PrimFloat.infinity = "A"%string
  /\ getLetterGrade PrimFloat.neg_infinity = "F"%string
  /\ getLetterGrade 93%float = "A"%string
  /\ getLetterGrade 92.999%float = "A-"%string
  /\ getLetterGrade 59.999%float = "F"%string.
Proof.
  split; [intros p Hlo; letter_of_bounds|].
  repeat (split; [apply letter_in_band; intros p Hlo Hhi; letter_of_bounds|]).
  split; [intros p Hhi; letter_of_bounds|].
  split.
  { intros p. destruct (Num.is_nan p) eqn:E; [left; now apply is_nan_eq|right].
    apply every_number_in_a_band.
    intros H. apply is_nan_eq in H. congruence. }
  repeat split; reflexivity.
Qed.

(** ** Saving and loading *)

Lemma jsonify_gradeValue (g : Grade.t) :
  storableGrade g -> jsonify (gradeValue g) = gradeValue g.
Proof.
  destruct g as [i n s m]. unfold storableGrade, gradeValue; simpl.
  intros [Hs Hm].
  destruct s as [| |sn], m as [| |mn]; simpl in *;
    try rewrite (proj1 Hs); try rewrite (proj1 Hm);
    repeat match goal with
    | H : storableNumber ?x |- context [Num.strict_eq ?x Num.zero] =>
        let E := fresh in
        pose proof (storableNumber_jsonify x H) as E; simpl in E;
        rewrite (proj1 H) in E; injection E as E; rewrite E; clear E
    end; reflexivity.
Qed.

Lemma map_same {A : Type} (f : A -> A) (l : list A) :
  Forall (fun x => f x = x) l -> map f l = l.
Proof. induction 1; simpl; congruence. Qed.

Lemma jsonify_grades (gs : list Grade.t) :
  Forall storableGrade gs -> map jsonify (map gradeValue gs) = map gradeValue gs.
Proof.
  intros H. apply map_same. apply Forall_map.
  eapply Forall_impl; [|exact H]. apply jsonify_gradeValue.
Qed.

Lemma jsonify_categoryValue (c : Category.t) :
  storableCategory c -> jsonify (categoryValue c) = categoryValue c.
Proof.
  destruct c as [i n w gs]. unfold storableCategory, categoryValue; simpl.
  intros [Hw Hgs].
  pose proof (storableNumber_jsonify w Hw) as E. simpl in E.
  destruct (Num.is_finite w); [|discriminate E]. injection E as E.
  now rewrite E, (jsonify_grades gs Hgs).
Qed.

Lemma jsonify_categories (cs : list Category.t) :
  Forall storableCategory cs ->
  map jsonify (map categoryValue cs) = map categoryValue cs.
Proof.
  intros H. apply map_same. apply Forall_map.
  eapply Forall_impl; [|exact H]. apply jsonify_categoryValue.
Qed.

(** What is written for a restorable state is the state object itself. *)
Lemma jsonify_dataToSave (s : State.t) :
  restorable s ->
  jsonify (dataToSave (stateObject s)) = dataToSave (stateObject s).
Proof.
  intros (Hcs & [Hfc Hzc] & [Hfg Hzg]). unfold dataToSave, stateObject; simpl.
  now rewrite (jsonify_categories _ Hcs), Hfc, Hzc, Hfg, Hzg.
Qed.

Lemma truthy_counter (n : number) : storableCounter n -> truthy (VNum n) = true.
Proof. apply storableCounter_truthy. Qed.

(** [loadState] on a storage that can be read and holds a text that parses
    to something else than [null] and [undefined]. *)
Lemma loadState_parsed (sto : storage) (data : value) (st : Raw.t) :
  readable sto = true -> item sto = Some (Parses data) ->
  data <> VNull -> data <> VUndefined ->
  loadState sto st =
    (true,
     Raw.mk (orElse (fieldOf data "categories") (VArr []))
            (if isDefined (fieldOf data "isWeighted")
             then fieldOf data "isWeighted" else VBool true)
            (orElse (fieldOf data "nextCategoryId") one)
            (orElse (fieldOf data "nextGradeId") one)).
Proof.
  intros Hr Hi Hn Hu.
  unfold loadState, tryCatch, loadBody, bind, lift, ret, assign, getItem.
  rewrite Hr, Hi. simpl.
  destruct data; try congruence; reflexivity.
Qed.

(** [loadState] when nothing usable is stored. *)
Lemma loadState_nothing (sto : storage) (st : Raw.t) :
  readable sto = false
  \/ item sto = None
  \/ item sto = Some EmptyText
  \/ item sto = Some Unparsable
  \/ item sto = Some (Parses VNull)
  \/ item sto = Some (Parses VUndefined) ->
  loadState sto st = (false, st).
Proof.
  unfold loadState, tryCatch, loadBody, bind, lift, ret, assign, getItem.
  intros [H | H].
  - now rewrite H.
  - destruct (readable sto); [|reflexivity].
    destruct H as [-> | [-> | [-> | [-> | ->]]]]; reflexivity.
Qed.

Lemma stored_cases (sto : storage) :
  (readable sto = false
   \/ item sto = None
   \/ item sto = Some EmptyText
   \/ item sto = Some Unparsable
   \/ item sto = Some (Parses VNull)
   \/ item sto = Some (Parses VUndefined))
  \/ (readable sto = true
      /\ exists data, item sto = Some (Parses data)
                      /\ data <> VNull /\ data <> VUndefined).
Proof.
  destruct (readable sto); [|now left; left].
  destruct (item sto) as [[| |data]|]; try (left; tauto).
  destruct data; try (left; tauto);
    right; (split; [reflexivity|]); eexists; repeat split; discriminate.
Qed.

Lemma map_injective {A B : Type} (f : A -> B) :
  (forall x y, f x = f y -> x = y) ->
  forall l l', map f l = map f l' -> l = l'.
Proof.
  intros Hf. induction l as [|x l IH]; intros [|y l']; simpl;
    try discriminate; [reflexivity|].
  intros [= Hxy Hl]. f_equal; [now apply Hf | now apply IH].
Qed.

Lemma gradeValue_inj (g g' : Grade.t) : gradeValue g = gradeValue g' -> g = g'.
Proof.
  destruct g as [i n s m], g' as [i' n' s' m']. unfold gradeValue; simpl.
  intros H.
  pose proof (f_equal (fun v => fieldOf v "id") H) as Hi.
  pose proof (f_equal (fun v => fieldOf v "name") H) as Hn.
  pose proof (f_equal (fun v => fieldOf v "score") H) as Hs.
  pose proof (f_equal (fun v => fieldOf v "max") H) as Hm.
  simpl in Hi, Hn. injection Hi as ->. injection Hn as ->.
  assert (Es : s = s').
  { destruct s, s'; simpl in Hs; try discriminate; try reflexivity;
      destruct m, m'; simpl in Hs; try discriminate.
    all: f_equal;
      exact (f_equal (fun v => match v with VNum n => n | _ => Num.nan end) Hs). }
  assert (Em : m = m').
  { subst s'. destruct s, m, m'; simpl in Hm; try discriminate; try reflexivity.
    all: f_equal;
      exact (f_equal (fun v => match v with VNum n => n | _ => Num.nan end) Hm). }
  now subst.
Qed.

Lemma categoryValue_inj (c c' : Category.t) :
  categoryValue c = categoryValue c' -> c = c'.
Proof.
  destruct c as [i n w gs], c' as [i' n' w' gs']. unfold categoryValue.
  intros H.
  pose proof (f_equal (fun v => fieldOf v "id") H) as Hi.
  pose proof (f_equal (fun v => fieldOf v "name") H) as Hn.
  pose proof (f_equal (fun v => fieldOf v "weight") H) as Hw.
  pose proof (f_equal (fun v => fieldOf v "grades") H) as Hgs.
  simpl in Hi, Hn, Hw, Hgs.
  assert (Hm : map gradeValue gs = map gradeValue gs')
    by exact (f_equal (fun v => match v with VArr l => l | _ => [] end) Hgs).
  apply (map_injective _ gradeValue_inj) in Hm.
  assert (Ew : w = w')
    by exact (f_equal (fun v => match v with VNum n => n | _ => Num.nan end) Hw).
  injection Hi as ->. injection Hn as ->. now subst.
Qed.

Lemma counter_inj (a b : number) : VNum a = VNum b -> a = b.
Proof.
  intros H. exact (f_equal (fun v => match v with VNum n => n | _ => Num.nan end) H).
Qed.

Lemma stateObject_inj (s s' : State.t) : stateObject s = stateObject s' -> s = s'.
Proof.
  destruct s as [cs w nc ng], s' as [cs' w' nc' ng']. unfold stateObject.
  intros H.
  pose proof (f_equal Raw.categories H) as Hcs.
  pose proof (f_equal Raw.isWeighted H) as Hw.
  pose proof (f_equal Raw.nextCategoryId H) as Hnc.
  pose proof (f_equal Raw.nextGradeId H) as Hng.
  simpl in Hcs, Hw, Hnc, Hng.
  apply counter_inj in Hnc. apply counter_inj in Hng.
  injection Hw as ->.
  assert (Hm : map categoryValue cs = map categoryValue cs')
    by exact (f_equal (fun v => match v with VArr l => l | _ => [] end) Hcs).
  apply (map_injective _ categoryValue_inj) in Hm. now subst.
Qed.

(** C5, amended.  For every state whose numbers are finite (and none the
    negative zero, which is written as 0) and whose two counters are not
    zero, [loadState] on what [saveState] stored returns true and leaves
    exactly the saved state: the same categories in the same order with
    the same ids, names, weights and grade items, the same [isWeighted]
    and the same counters. *)
Theorem load_after_save (s : State.t) (sto : storage) (st : Raw.t) :
  restorable s -> writable sto = true -> readable sto = true ->
  loadState (saveState (stateObject s) sto) st = (true, stateObject s)
  /\ (forall s', stateObject s' = snd (loadState (saveState (stateObject s) sto) st) ->
                 s' = s).
Proof.
  intros Hs Hw Hr.
  assert (E : loadState (saveState (stateObject s) sto) st = (true, stateObject s)).
  { unfold saveState. rewrite Hw, (jsonify_dataToSave s Hs).
    rewrite (loadState_parsed _ (dataToSave (stateObject s)));
      try reflexivity; try discriminate; try assumption.
    destruct Hs as (_ & Hc & Hg).
    unfold fieldOf, dataToSave, orElse. simpl lookup.
    rewrite (truthy_counter _ Hc), (truthy_counter _ Hg).
    reflexivity. }
  split; [exact E|].
  intros s' Hs'. rewrite E in Hs'. now apply stateObject_inj.
Qed.

Lemma sampleState_restorable : restorable sampleState.
Proof.
  unfold restorable, sampleState, evenWeights; simpl.
  repeat split; try reflexivity; try discriminate.
  repeat constructor; simpl; try reflexivity; discriminate.
Qed.

(** C5, amended, on the sample state. *)
Lemma load_after_save_sample :
  restorable sampleState
  /\ loadState (saveState (stateObject sampleState) (holding None))
               (stateObject initialState)
     = (true, stateObject sampleState).
Proof.
  split; [exact sampleState_restorable|].
  apply (load_after_save sampleState (holding None) (stateObject initialState)).
  - exact sampleState_restorable.
  - reflexivity.
  - reflexivity.
Defined.

(** C5 as stated fails: a state without categories, hence with unique
    ids, and with the integer counters 0 and 1 comes back with the
    counters 1 and 1. *)
Lemma zero_counter_not_restored :
  NoDup (categoryIds zeroCounter ++ gradeIds zeroCounter)
  /\ loadState (saveState (stateObject zeroCounter) (holding None))
               (stateObject zeroCounter)
     = (true, stateObject initialState)
  /\ stateObject initialState <> stateObject zeroCounter.
Proof.
  split; [constructor|]. split; [reflexivity|].
  intros E. apply stateObject_inj in E.
  apply (f_equal (fun s => Prim2SF (State.nextCategoryId s))) in E. discriminate E.
Qed.

(** C6, amended.  [loadState] returns true exactly when the storage can be
    read and holds a non-empty text that parses to something else than
    null; otherwise it returns false and leaves the state as it was.  When
    it returns true, each field is set on its own: [categories] to the
    stored value when that is truthy and to the empty array otherwise,
    [isWeighted] to the stored value unless the key is missing and then to
    true, each counter to the stored value when that is truthy and to 1
    otherwise. *)
Theorem loadState_defaults (sto : storage) (st : Raw.t) :
  (fst (loadState sto st) = false -> snd (loadState sto st) = st)
  /\ (fst (loadState sto st) = true <->
      readable sto = true
      /\ exists data, item sto = Some (Parses data)
                      /\ data <> VNull /\ data <> VUndefined)
  /\ (forall data,
        readable sto = true -> item sto = Some (Parses data) ->
        data <> VNull -> data <> VUndefined ->
        let st' := snd (loadState sto st) in
        Raw.categories st'
          = (if truthy (fieldOf data "categories")
             then fieldOf data "categories" else VArr [])
        /\ Raw.isWeighted st'
          = match fieldOf data "isWeighted" with
            | VUndefined => VBool true
            | v => v
            end
        /\ Raw.nextCategoryId st'
          = (if truthy (fieldOf data "nextCategoryId")
             then fieldOf data "nextCategoryId" else VNum 1%float)
        /\ Raw.nextGradeId st'
          = (if truthy (fieldOf data "nextGradeId")
             then fieldOf data "nextGradeId" else VNum 1%float)).
Proof.
  split; [|split].
  - destruct (stored_cases sto) as [H | (Hr & data & Hi & Hn & Hu)].
    + now rewrite (loadState_nothing sto st H).
    + rewrite (loadState_parsed sto data st Hr Hi Hn Hu). discriminate.
  - destruct (stored_cases sto) as [H | (Hr & data & Hi & Hn & Hu)].
    + rewrite (loadState_nothing sto st H). simpl. split; [discriminate|].
      intros (Hr & data & Hi & Hn & Hu).
      destruct H as [H | [H | [H | [H | [H | H]]]]]; congruence.
    + rewrite (loadState_parsed sto data st Hr Hi Hn Hu). simpl.
      split; [|reflexivity]. intros _. split; [exact Hr|]. now exists data.
  - intros data Hr Hi Hn Hu.
    rewrite (loadState_parsed sto data st Hr Hi Hn Hu). simpl.
    repeat split. now destruct (fieldOf data "isWeighted").
Qed.

(** C6, amended, on a record that holds only [nextGradeId]: the three
    other fields get their defaults. *)
Lemma load_onlyGradeCounter :
  loadState (holding (Some (Parses onlyGradeCounter))) (stateObject sampleState)
  = (true, Raw.mk (VArr []) (VBool true) (VNum 1%float) (VNum 7%float)).
Proof.
  pose proof (loadState_defaults (holding (Some (Parses onlyGradeCounter)))
                                 (stateObject sampleState)) as (_ & Hok & Hfields).
  specialize (Hfields onlyGradeCounter eq_refl eq_refl).
  destruct Hfields as (Hc & Hw & Hnc & Hng); try discriminate.
  destruct Hok as [_ Hok].
  destruct (loadState _ _) as [b [c w nc ng]]. simpl in *.
  rewrite Hok; [now subst|].
  split; [reflexivity|]. exists onlyGradeCounter. repeat split; discriminate.
Defined.

(** C6 as stated fails: from a record whose [categories] is a string,
    [loadState] keeps the string; the category sequence is not the empty
    one. *)
Lemma corrupt_categories_kept :
  loadState (holding (Some (Parses corruptCategories))) (stateObject initialState)
  = (true, Raw.mk (VStr "corrupt") (VBool false)
                  (VNum 3%float) (VNum 7%float))
  /\ VStr "corrupt" <> VArr [].
Proof. split; [reflexivity | discriminate]. Qed.

(** ** The grade store *)

Lemma State_eta (s : State.t) :
  State.mk (State.categories s) (State.isWeighted s)
           (State.nextCategoryId s) (State.nextGradeId s) = s.
Proof. now destruct s. Qed.

Lemma Category_eta (c : Category.t) :
  Category.mk (Category.id c) (Category.name c) (Category.weight c)
              (Category.grades c) = c.
Proof. now destruct c. Qed.

Lemma filter_all {A : Type} (p : A -> bool) (l : list A) :
  (forall x, In x l -> p x = true) -> filter p l = l.
Proof.
  induction l as [|x l IH]; simpl; intros H; [reflexivity|].
  rewrite (H x) by now left.
  f_equal. apply IH. intros y Hy. apply H. now right.
Qed.

Lemma removeCategory_absent (categoryId : string) (s : State.t) :
  ~ In categoryId (categoryIds s) -> removeCategory categoryId s = s.
Proof.
  intros Hout. unfold removeCategory.
  rewrite filter_all; [apply State_eta|].
  intros c Hc. apply negb_true_iff, String.eqb_neq.
  intros E. apply Hout. unfold categoryIds. rewrite <- E. now apply in_map.
Qed.

Lemma findCategory_absent (categoryId : string) (s : State.t) :
  ~ In categoryId (categoryIds s) -> findCategory categoryId s = None.
Proof.
  intros Hout. unfold findCategory.
  destruct (find _ _) as [c|] eqn:E; [|reflexivity].
  apply find_some in E. destruct E as [Hc Heq].
  apply String.eqb_eq in Heq. exfalso. apply Hout.
  unfold categoryIds. rewrite <- Heq. now apply in_map.
Qed.

Lemma updateFound_same (categoryId : string) (f : Category.t -> Category.t)
      (cs : list Category.t) :
  (forall c, In c cs -> f c = c) -> updateFound categoryId f cs = cs.
Proof.
  induction cs as [|c rest IH]; simpl; intros H; [reflexivity|].
  destruct (String.eqb (Category.id c) categoryId).
  - now rewrite (H c) by now left.
  - f_equal. apply IH. intros c' Hc'. apply H. now right.
Qed.

Lemma filterGrades_absent (gradeId : string) (c : Category.t) :
  ~ In gradeId (map Grade.id (Category.grades c)) -> filterGrades gradeId c = c.
Proof.
  intros Hout. unfold filterGrades.
  rewrite filter_all; [apply Category_eta|].
  intros g Hg. apply negb_true_iff, String.eqb_neq.
  intros E. apply Hout. rewrite <- E. now apply in_map.
Qed.

Lemma removeGrade_absent_category (categoryId gradeId : string) (s : State.t) :
  ~ In categoryId (categoryIds s) -> removeGrade categoryId gradeId s = s.
Proof.
  intros Hout. unfold removeGrade. now rewrite findCategory_absent.
Qed.

Lemma removeGrade_absent_grade (categoryId gradeId : string) (s : State.t) :
  ~ In gradeId (gradeIds s) -> removeGrade categoryId gradeId s = s.
Proof.
  intros Hout. unfold removeGrade.
  destruct (findCategory categoryId s); [|reflexivity].
  rewrite updateFound_same; [apply State_eta|].
  intros c Hc. apply filterGrades_absent.
  intros Hin. apply Hout. unfold gradeIds. apply in_flat_map.
  now exists c.
Qed.

Lemma createGrade_absent (categoryId name : string) (score max : scalar)
      (s : State.t) :
  ~ In categoryId (categoryIds s) ->
  createGrade categoryId name score max s = (None, s).
Proof.
  intros Hout. unfold createGrade. now rewrite findCategory_absent.
Qed.

(** C7.  An operation that names an id the state does not hold changes
    nothing: [removeCategory] with an absent category id, [removeGrade]
    with an absent category id or an absent grade id, and [createGrade]
    with an absent category id, which also returns null. *)
Theorem absent_id_is_no_op (s : State.t) :
  (forall categoryId,
      ~ In categoryId (categoryIds s) -> removeCategory categoryId s = s)
  /\ (forall categoryId gradeId,
      ~ In categoryId (categoryIds s) \/ ~ In gradeId (gradeIds s) ->
      removeGrade categoryId gradeId s = s)
  /\ (forall categoryId name score max,
      ~ In categoryId (categoryIds s) ->
      createGrade categoryId name score max s = (None, s)).
Proof.
  split; [|split].
  - intros categoryId. apply removeCategory_absent.
  - intros categoryId gradeId [H | H].
    + now apply removeGrade_absent_category.
    + now apply removeGrade_absent_grade.
  - intros. now apply createGrade_absent.
Qed.

(** Once a sum is [NaN] it stays [NaN]. *)
Lemma fold_add_nan (l : list number) : fold_left Num.add l Num.nan = Num.nan.
Proof.
  induction l as [|x l IH]; simpl; [reflexivity|]. now rewrite add_nan_l.
Qed.

Lemma fold_add_with_nan (l : list number) (acc : number) :
  In Num.nan l -> fold_left Num.add l acc = Num.nan.
Proof.
  revert acc. induction l as [|x l IH]; intros acc; simpl; [contradiction|].
  intros [-> | Hin]; [|now apply IH].
  now rewrite add_nan_r, fold_add_nan.
Qed.

(** C10.  The filter of [calculateCategoryAverage] leaves out exactly the
    items whose score is null, whose max is null, or whose max is not
    greater than zero.  A score that is undefined is not null: such an item
    passes the filter and is added to the total, which becomes [NaN], and
    so does the average of every list that holds such an item with a max
    greater than zero.  (An undefined max is not greater than zero, so that
    item is left out.) *)
Theorem undefined_score_passes_filter :
  (forall g,
      isValid g = false <->
      Grade.score g = Null \/ Grade.max g = Null
      \/ ~ positive (to_number (Grade.max g)))
  /\ (Grade.score missingScore = Undefined
      /\ isValid missingScore = true
      /\ validGrades [missingScore; sampleGrade 2 9 10]
         = [missingScore; sampleGrade 2 9 10]
      /\ totalScore (validGrades [missingScore; sampleGrade 2 9 10]) = Num.nan
      /\ calculateCategoryAverage [missingScore; sampleGrade 2 9 10] = Some Num.nan
      /\ calculateCategoryAverage [sampleGrade 2 9 10] = Some 90%float)
  /\ (forall grades g,
        In g grades -> Grade.score g = Undefined -> isValid g = true ->
        calculateCategoryAverage grades = Some Num.nan)
  /\ (forall g, Grade.max g = Undefined -> isValid g = false).
Proof.
  split; [|split; [|split]].
  - intros g. rewrite isValid_not_Valid. unfold Valid.
    destruct (Grade.score g) as [| |s]; destruct (Grade.max g) as [| |m];
      split; intros H;
      try (left; reflexivity); try (right; left; reflexivity);
      try (intros (H1 & H2 & H3); congruence);
      try (right; right; intros H3; apply H; repeat split;
           solve [discriminate | exact H3]);
      try (intros (H1 & H2 & H3);
           destruct H as [H | [H | H]]; solve [discriminate | exact (H H3)]).
  - repeat split; reflexivity.
  - intros grades g Hin Hs Hv.
    assert (Hg : In g (validGrades grades)).
    { unfold validGrades. apply filter_In. now split. }
    unfold calculateCategoryAverage.
    destruct (validGrades grades) as [|v valid] eqn:E; [contradiction|].
    cbn [List.length Nat.eqb]. f_equal.
    rewrite totalScore_sum. unfold sumOf.
    rewrite (fold_add_with_nan (map scoreOf (v :: valid))).
    + now rewrite div_nan_l, mul_nan_l.
    + apply in_map_iff. exists g. split; [|exact Hg].
      unfold scoreOf. now rewrite Hs.
  - intros g Hm. unfold isValid. rewrite Hm.
    now rewrite andb_false_r.
Qed.

(** ** Id counters *)










(** ** The calculation functions on any value *)

Lemma getProp_score (g : Grade.t) :
  getProp (gradeValue g) "score" = Returned (scalarValue (Grade.score g)).
Proof.
  destruct g as [i n s m]. unfold gradeValue. simpl.
  destruct s, m; reflexivity.
Qed.

Lemma getProp_max (g : Grade.t) :
  getProp (gradeValue g) "max" = Returned (scalarValue (Grade.max g)).
Proof.
  destruct g as [i n s m]. unfold gradeValue. simpl.
  destruct s, m; reflexivity.
Qed.

Lemma notNull_scalarValue (v : scalar) : Untyped.notNull (scalarValue v) = not_null v.
Proof. now destruct v. Qed.

Lemma ToNumber_scalarValue (v : scalar) :
  Untyped.ToNumber (scalarValue v) = Returned (to_number v).
Proof. now destruct v. Qed.

Lemma isValid_gradeValue (g : Grade.t) :
  Untyped.isValid (gradeValue g) = Returned (isValid g).
Proof.
  unfold Untyped.isValid, isValid.
  rewrite getProp_score, getProp_max. cbn [Untyped.bind].
  rewrite !notNull_scalarValue.
  destruct (not_null (Grade.score g)); [|reflexivity].
  destruct (not_null (Grade.max g)); [|reflexivity].
  unfold Untyped.greater. now rewrite ToNumber_scalarValue.
Qed.

Lemma filterM_gradeValue (grades : list Grade.t) :
  Untyped.filterM Untyped.isValid (map gradeValue grades)
  = Returned (map gradeValue (validGrades grades)).
Proof.
  induction grades as [|g rest IH]; simpl; [reflexivity|].
  rewrite isValid_gradeValue, IH. simpl. now destruct (isValid g).
Qed.

Lemma plus_scalarValue (sum : number) (v : scalar) :
  Untyped.plus (VNum sum) (scalarValue v) = Returned (VNum (Num.add sum (to_number v))).
Proof. now destruct v. Qed.

(** [reduce] over items made from typed ones, with a callback that
    returns a number. *)
Lemma reduceM_numbers {A B : Type} (f : value -> B -> outcome value) (h : A -> B)
      (g : number -> A -> number) (l : list A) :
  (forall acc x, f (VNum acc) (h x) = Returned (VNum (g acc x))) ->
  forall acc, Untyped.reduceM f (map h l) (VNum acc) = Returned (VNum (fold_left g l acc)).
Proof.
  intros Hf. induction l as [|x l IH]; intros acc; simpl; [reflexivity|].
  rewrite Hf. simpl. apply IH.
Qed.

(** On an array of grade items the two versions of
    [calculateCategoryAverage] agree. *)
Lemma calculateCategoryAverage_agrees (grades : list Grade.t) :
  Untyped.calculateCategoryAverage (VArr (map gradeValue grades))
  = Returned (resultValue (calculateCategoryAverage grades)).
Proof.
  unfold Untyped.calculateCategoryAverage, calculateCategoryAverage.
  rewrite filterM_gradeValue. cbn [Untyped.bind]. rewrite length_map.
  destruct (Nat.eqb (List.length (validGrades grades)) 0); [reflexivity|].
  rewrite (reduceM_numbers _ gradeValue
             (fun sum g => Num.add sum (to_number (Grade.score g)))).
  2:{ intros acc x. rewrite getProp_score. apply plus_scalarValue. }
  cbn [Untyped.bind].
  rewrite (reduceM_numbers _ gradeValue
             (fun sum g => Num.add sum (to_number (Grade.max g)))).
  2:{ intros acc x. rewrite getProp_max. apply plus_scalarValue. }
  reflexivity.
Qed.

Lemma withAverage_categoryValue (c : Category.t) :
  Untyped.withAverage (categoryValue c)
  = Returned (averagedValue
                (mkAveraged c (calculateCategoryAverage (Category.grades c)))).
Proof.
  unfold Untyped.withAverage. destruct c as [i n w gs].
  unfold categoryValue. simpl getProp. cbn [Untyped.bind].
  now rewrite calculateCategoryAverage_agrees.
Qed.

Lemma mapM_categoryValue (categories : list Category.t) :
  Untyped.mapM Untyped.withAverage (map categoryValue categories)
  = Returned (map averagedValue
                  (map (fun cat => mkAveraged cat
                                     (calculateCategoryAverage (Category.grades cat)))
                       categories)).
Proof.
  induction categories as [|c rest IH]; simpl; [reflexivity|].
  rewrite withAverage_categoryValue. cbn [Untyped.bind]. rewrite IH. reflexivity.
Qed.

Lemma filter_averagedValue (l : list averaged) :
  filter (fun c => Untyped.notNull (Untyped.average c)) (map averagedValue l)
  = map averagedValue (filter hasAverage l).
Proof.
  induction l as [|c l IH]; simpl; [reflexivity|].
  unfold hasAverage at 1. destruct (average c); simpl; now rewrite IH.
Qed.

Lemma weight_callback (acc : number) (c : averaged) :
  Untyped.plus (VNum acc)
               (orElse (Untyped.weight (averagedValue c)) (VNum Num.zero))
  = Returned (VNum (Num.add acc (weightOrZero c))).
Proof.
  unfold averagedValue, weightOrZero, orElse, Num.or. simpl.
  now destruct (Num.truthy (Category.weight (cat c))).
Qed.

Lemma product_callback (acc : number) (c : averaged) :
  Untyped.bind (Untyped.times (Untyped.average (averagedValue c))
                              (orElse (Untyped.weight (averagedValue c)) (VNum Num.zero)))
               (fun term => Untyped.plus (VNum acc) term)
  = Returned (VNum (Num.add acc (Num.mul (averageNumber c) (weightOrZero c)))).
Proof.
  unfold averagedValue, weightOrZero, averageNumber, orElse, Num.or. simpl.
  destruct (average c); now destruct (Num.truthy (Category.weight (cat c))).
Qed.

Lemma average_callback (acc : number) (c : averaged) :
  Untyped.plus (VNum acc) (Untyped.average (averagedValue c))
  = Returned (VNum (Num.add acc (averageNumber c))).
Proof. unfold averagedValue, averageNumber. simpl. now destruct (average c). Qed.

(** On an array of categories the two versions of [calculateFinalGrade]
    agree. *)
Lemma calculateFinalGrade_agrees (categories : list Category.t) (weighted : bool) :
  Untyped.calculateFinalGrade (VArr (map categoryValue categories)) (VBool weighted)
  = Returned (resultValue (calculateFinalGrade categories weighted)).
Proof.
  unfold Untyped.calculateFinalGrade, calculateFinalGrade.
  rewrite mapM_categoryValue. cbn [Untyped.bind].
  rewrite filter_averagedValue. fold (categoriesWithAvg categories).
  rewrite length_map.
  destruct (Nat.eqb (List.length (categoriesWithAvg categories)) 0); [reflexivity|].
  cbn [truthy]. destruct weighted.
  - rewrite (reduceM_numbers _ averagedValue (fun sum c => Num.add sum (weightOrZero c)))
      by apply weight_callback.
    cbn [Untyped.bind Untyped.isZero]. fold (totalWeight (categoriesWithAvg categories)).
    destruct (Num.strict_eq (totalWeight (categoriesWithAvg categories)) Num.zero);
      [reflexivity|].
    rewrite (reduceM_numbers _ averagedValue
               (fun sum c => Num.add sum (Num.mul (averageNumber c) (weightOrZero c))))
      by apply product_callback.
    reflexivity.
  - rewrite (reduceM_numbers _ averagedValue (fun acc c => Num.add acc (averageNumber c)))
      by apply average_callback.
    reflexivity.
Qed.

(** [getLetterGrade] converts its argument to a number once and for all. *)
Lemma getLetterGrade_converts (percentage : value) :
  Untyped.getLetterGrade percentage
  = Untyped.bind (Untyped.ToNumber percentage) (fun n => Returned (getLetterGrade n)).
Proof.
  unfold Untyped.getLetterGrade, Untyped.atLeast, getLetterGrade.
  destruct (Untyped.ToNumber percentage) as [n|]; [|reflexivity].
  cbn [Untyped.bind].
  repeat match goal with
         | |- context [Num.ge n ?t] => destruct (Num.ge n t); [reflexivity|]
         end.
  reflexivity.
Qed.

(** The letters. *)
Lemma getLetterGrade_letter (percentage : number) :
  In (getLetterGrade percentage)
     ["A"; "A-"; "B+"; "B"; "B-"; "C+"; "C"; "C-"; "D+"; "D"; "D-"; "F"]%string.
Proof.
  unfold getLetterGrade.
  repeat match goal with
         | |- context [Num.ge percentage ?t] =>
             destruct (Num.ge percentage t); [simpl; tauto|]
         end.
  simpl; tauto.
Qed.

(** An item on which the callback throws makes [filter] and [map] throw. *)
Lemma filterM_thrown (p : value -> outcome bool) (items : list value) (x : value) :
  In x items -> p x = Thrown -> Untyped.filterM p items = Thrown.
Proof.
  intros Hin Hx. induction items as [|y rest IH]; [contradiction|].
  simpl. destruct Hin as [->|Hin]; [now rewrite Hx|].
  destruct (p y); [|reflexivity]. simpl. now rewrite IH.
Qed.

Lemma mapM_thrown {A : Type} (f : value -> outcome A) (items : list value) (x : value) :
  In x items -> f x = Thrown -> Untyped.mapM f items = Thrown.
Proof.
  intros Hin Hx. induction items as [|y rest IH]; [contradiction|].
  simpl. destruct Hin as [->|Hin]; [now rewrite Hx|].
  destruct (f y); [|reflexivity]. simpl. now rewrite IH.
Qed.

Lemma calculateCategoryAverage_not_array (grades : value) :
  (forall items, grades <> VArr items) -> Untyped.calculateCategoryAverage grades = Thrown.
Proof. intros H. destruct grades; try reflexivity. now destruct (H items). Qed.

Lemma calculateCategoryAverage_nullish_item (items : list value) :
  In VNull items \/ In VUndefined items ->
  Untyped.calculateCategoryAverage (VArr items) = Thrown.
Proof.
  intros H. unfold Untyped.calculateCategoryAverage.
  destruct H as [H|H]; now rewrite (filterM_thrown _ _ _ H eq_refl).
Qed.

Lemma withAverage_without_grades (c : value) :
  (forall items, getProp c "grades" <> Returned (VArr items)) ->
  Untyped.withAverage c = Thrown.
Proof.
  intros H. unfold Untyped.withAverage.
  destruct (getProp c "grades") as [g|]; [|reflexivity]. simpl.
  rewrite calculateCategoryAverage_not_array; [reflexivity|].
  intros items ->. now apply (H items).
Qed.

Lemma calculateFinalGrade_without_grades (cats : list value) (weighted c : value) :
  In c cats -> (forall items, getProp c "grades" <> Returned (VArr items)) ->
  Untyped.calculateFinalGrade (VArr cats) weighted = Thrown.
Proof.
  intros Hin H. unfold Untyped.calculateFinalGrade.
  now rewrite (mapM_thrown _ _ _ Hin (withAverage_without_grades c H)).
Qed.

(** The count of a list that is not empty is a positive number. *)
Lemma count_positive {A : Type} (l : list A) :
  Nat.eqb (List.length l) 0 = false -> positive (Num.of_nat (List.length l)).
Proof.
  intros H. apply of_nat_positive. destruct l; [discriminate | simpl; lia].
Qed.

(** C9, amended.  On an array of grade items and an array of categories
    of the data model the calculation functions raise nothing and return
    what the typed functions return, and [getLetterGrade] returns one of
    the twelve letters for every number; every division there has a
    divisor that is not zero: the summed [max] of the valid items is
    positive, the weight sum is compared with [0] before the division, the
    count of the categories with data is positive; no valid item and no
    category with data give [null].  On other inputs the functions do not
    turn every malformed input into [null]: a [grades] argument that is
    no array, an item that is [null] or [undefined], and a category whose
    [grades] is no array raise a [TypeError]. *)
Theorem aggregation_divisions_are_guarded :
  (forall grades : list Grade.t,
      Untyped.calculateCategoryAverage (VArr (map gradeValue grades))
      = Returned (resultValue (calculateCategoryAverage grades)))
  /\ (forall (categories : list Category.t) (weighted : bool),
         Untyped.calculateFinalGrade (VArr (map categoryValue categories)) (VBool weighted)
         = Returned (resultValue (calculateFinalGrade categories weighted)))
  /\ (forall percentage : number,
         Untyped.getLetterGrade (VNum percentage) = Returned (getLetterGrade percentage)
         /\ In (getLetterGrade percentage)
               ["A"; "A-"; "B+"; "B"; "B-"; "C+"; "C"; "C-"; "D+"; "D"; "D-"; "F"]%string)
  /\ (forall grades : list Grade.t,
         match calculateCategoryAverage grades with
         | None => validGrades grades = []
         | Some average =>
             positive (totalMax (validGrades grades))
             /\ average = Num.mul (Num.div (totalScore (validGrades grades))
                                           (totalMax (validGrades grades))) 100%float
         end)
  /\ (forall categories : list Category.t,
         match calculateFinalGrade categories true with
         | None => categoriesWithAvg categories = []
                   \/ Num.strict_eq (totalWeight (categoriesWithAvg categories)) Num.zero = true
         | Some final =>
             Num.strict_eq (totalWeight (categoriesWithAvg categories)) Num.zero = false
             /\ final = Num.div (weightedSum (categoriesWithAvg categories))
                                (totalWeight (categoriesWithAvg categories))
         end)
  /\ (forall categories : list Category.t,
         match calculateFinalGrade categories false with
         | None => categoriesWithAvg categories = []
         | Some final =>
             positive (Num.of_nat (List.length (categoriesWithAvg categories)))
             /\ final = Num.div (averageSum (categoriesWithAvg categories))
                                (Num.of_nat (List.length (categoriesWithAvg categories)))
         end)
  /\ (forall grades : value,
         (forall items, grades <> VArr items) ->
         Untyped.calculateCategoryAverage grades = Thrown)
  /\ (forall items : list value,
         In VNull items \/ In VUndefined items ->
         Untyped.calculateCategoryAverage (VArr items) = Thrown)
  /\ (forall (cats : list value) (weighted c : value),
         In c cats -> (forall items, getProp c "grades" <> Returned (VArr items)) ->
         Untyped.calculateFinalGrade (VArr cats) weighted = Thrown)
  /\ (forall categories weighted : value,
         (forall cats, categories <> VArr cats) ->
         Untyped.calculateFinalGrade categories weighted = Thrown).
Proof.
  split; [exact calculateCategoryAverage_agrees|].
  split; [exact calculateFinalGrade_agrees|].
  split.
  { intros p. split; [|apply getLetterGrade_letter].
    now rewrite getLetterGrade_converts. }
  split.
  { intros grades. unfold calculateCategoryAverage.
    destruct (Nat.eqb (List.length (validGrades grades)) 0) eqn:E.
    - now apply length_eqb_nil.
    - split; [|reflexivity]. rewrite totalMax_sum. apply pointsPossible_positive. intros Hnil.
      now rewrite Hnil in E. }
  split.
  { intros categories. unfold calculateFinalGrade.
    destruct (Nat.eqb (List.length (categoriesWithAvg categories)) 0) eqn:E.
    - left. now apply length_eqb_nil.
    - destruct (Num.strict_eq (totalWeight (categoriesWithAvg categories)) Num.zero) eqn:Ez.
      + now right.
      + now split. }
  split.
  { intros categories. unfold calculateFinalGrade.
    destruct (Nat.eqb (List.length (categoriesWithAvg categories)) 0) eqn:E.
    - now apply length_eqb_nil.
    - split; [now apply count_positive | reflexivity]. }
  split; [exact calculateCategoryAverage_not_array|].
  split; [exact calculateCategoryAverage_nullish_item|].
  split; [exact calculateFinalGrade_without_grades|].
  intros categories weighted H. destruct categories; try reflexivity.
  now destruct (H items).
Qed.

(** C9 as stated fails: a record whose single category has no [grades]
    is loaded as it is, and [calculateFinalGrade] on the loaded categories
    raises; so does [calculateCategoryAverage] on an array that holds
    [null], and on [null] itself. *)
Lemma malformed_input_raises :
  loadState (holding (Some (Parses (VObj [("categories"%string, categoryWithoutGrades)]))))
            (stateObject initialState)
  = (true, Raw.mk categoryWithoutGrades (VBool true) (VNum 1%float) (VNum 1%float))
  /\ Untyped.calculateFinalGrade categoryWithoutGrades (VBool true) = Thrown
  /\ Untyped.calculateCategoryAverage gradesWithNull = Thrown
  /\ Untyped.calculateCategoryAverage VNull = Thrown.
Proof. repeat split. Qed.

(** * Further properties *)

(** ** Items and categories that do not count *)

Lemma validGrades_app (l l' : list Grade.t) :
  validGrades (l ++ l') = validGrades l ++ validGrades l'.
Proof. apply filter_app. Qed.

Lemma validGrades_skip (before after : list Grade.t) (g : Grade.t) :
  ~ Valid g -> validGrades (before ++ g :: after) = validGrades (before ++ after).
Proof.
  intros Hg. apply isValid_not_Valid in Hg.
  rewrite !validGrades_app.
  change (g :: after) with ([g] ++ after). rewrite validGrades_app.
  unfold validGrades at 2. simpl. now rewrite Hg.
Qed.

(** X1.  An item that is not valid (score null, max null or max not
    greater than zero) has no effect on the category average, wherever it
    sits in the list. *)
Theorem invalid_item_does_not_count (before after : list Grade.t) (g : Grade.t) :
  ~ Valid g ->
  calculateCategoryAverage (before ++ g :: after)
  = calculateCategoryAverage (before ++ after).
Proof.
  intros Hg. unfold calculateCategoryAverage.
  now rewrite (validGrades_skip before after g Hg).
Qed.

Lemma invalid_item_sample :
  ~ Valid (Grade.mk (gradeIdAt 3) defaultGradeName defaultGradeScore defaultGradeMax)
  /\ calculateCategoryAverage
       (nineAndForty
          ++ [Grade.mk (gradeIdAt 3) defaultGradeName defaultGradeScore defaultGradeMax])
     = calculateCategoryAverage nineAndForty.
Proof.
  assert (H : ~ Valid (Grade.mk (gradeIdAt 3) defaultGradeName
                                defaultGradeScore defaultGradeMax))
    by (intros (Hs & _); now apply Hs).
  split; [exact H|].
  rewrite <- (app_nil_r nineAndForty) at 2.
  exact (invalid_item_does_not_count nineAndForty [] _ H).
Defined.

Lemma categoriesWithAvg_app (l l' : list Category.t) :
  categoriesWithAvg (l ++ l') = categoriesWithAvg l ++ categoriesWithAvg l'.
Proof. unfold categoriesWithAvg. now rewrite map_app, filter_app. Qed.

Lemma categoriesWithAvg_skip (before after : list Category.t) (c : Category.t) :
  calculateCategoryAverage (Category.grades c) = None ->
  categoriesWithAvg (before ++ c :: after) = categoriesWithAvg (before ++ after).
Proof.
  intros Hc. rewrite !categoriesWithAvg_app.
  change (c :: after) with ([c] ++ after). rewrite categoriesWithAvg_app.
  unfold categoriesWithAvg at 2. simpl. unfold hasAverage. simpl.
  now rewrite Hc.
Qed.

(** X2.  A category without a valid item has no effect on the final grade,
    wherever it sits and whatever its weight, in both modes. *)
Theorem category_without_data_does_not_count
        (before after : list Category.t) (c : Category.t) (weighted : bool) :
  calculateCategoryAverage (Category.grades c) = None ->
  calculateFinalGrade (before ++ c :: after) weighted
  = calculateFinalGrade (before ++ after) weighted.
Proof.
  intros Hc. unfold calculateFinalGrade.
  now rewrite (categoriesWithAvg_skip before after c Hc).
Qed.

Lemma category_without_data_sample :
  calculateCategoryAverage (Category.grades (sampleCategory 3 40 [])) = None
  /\ calculateFinalGrade (evenWeights ++ [sampleCategory 3 40 []]) true
     = calculateFinalGrade evenWeights true.
Proof.
  split; [reflexivity|].
  rewrite <- (app_nil_r evenWeights) at 2.
  exact (category_without_data_does_not_count
           evenWeights [] (sampleCategory 3 40 []) true eq_refl).
Defined.
(** ** Letters in order *)

Lemma ge_mono (p q t : number) :
  Num.ge q p = true -> Num.ge q t = false -> Num.ge p t = false.
Proof.
  intros Hpq Hq. destruct (Num.ge p t) eqn:E; [|reflexivity].
  now rewrite (ge_trans q p t Hpq E) in Hq.
Qed.

(** Decides the threshold [t] for the higher percentage [q]: when [q]
    reaches it the letter of [q] is known and the cascade of the lower
    percentage [p] is run through; otherwise [p] does not reach it
    either. *)
Ltac letter_step t p q Hpq :=
  let E := fresh "E" in
  destruct (Num.ge q t) eqn:E; cbv iota;
  [ repeat match goal with
           | |- (letterRank (if Num.ge p ?u then _ else _) <= _)%nat =>
               destruct (Num.ge p u); cbv iota
           end;
    apply Nat.leb_le; vm_compute; reflexivity
  | rewrite (ge_mono p q t Hpq E); cbv iota ].

(** X5.  A higher percentage never gets a lower letter. *)
Theorem getLetterGrade_monotone (p q : number) :
  Num.ge q p = true ->
  (letterRank (getLetterGrade p) <= letterRank (getLetterGrade q))%nat.
Proof.
  intros Hpq. unfold getLetterGrade.
  letter_step 93%float p q Hpq. letter_step 90%float p q Hpq.
  letter_step 87%float p q Hpq. letter_step 83%float p q Hpq.
  letter_step 80%float p q Hpq. letter_step 77%float p q Hpq.
  letter_step 73%float p q Hpq. letter_step 70%float p q Hpq.
  letter_step 67%float p q Hpq. letter_step 63%float p q Hpq.
  letter_step 60%float p q Hpq.
  apply Nat.le_refl.
Qed.

Lemma getLetterGrade_monotone_sample :
  Num.ge 93%float 92.999%float = true
  /\ (letterRank "A-" <= letterRank "A")%nat.
Proof.
  split; [reflexivity|].
  exact (getLetterGrade_monotone 92.999%float 93%float eq_refl).
Defined.

(** ** Ids stay unique *)

Lemma NoDup_app_inv {A : Type} (l l' : list A) :
  NoDup (l ++ l') ->
  NoDup l /\ NoDup l' /\ (forall a, In a l -> ~ In a l').
Proof.
  intros H. split; [exact (NoDup_app_remove_r _ _ H)|].
  split; [exact (NoDup_app_remove_l _ _ H)|].
  induction l as [|x l IH]; simpl in *; [tauto|].
  inversion H as [|? ? Hx Hl]; subst.
  intros a [<- | Ha].
  - intros Hin. apply Hx. apply in_or_app. now right.
  - now apply IH.
Qed.

(** Narrowing the middle of a list without repetition. *)
Lemma NoDup_narrow {A : Type} (l1 m m' l2 : list A) :
  NoDup (l1 ++ m ++ l2) -> NoDup m' -> incl m' m -> NoDup (l1 ++ m' ++ l2).
Proof.
  intros H Hm' Hincl.
  destruct (NoDup_app_inv _ _ H) as (H1 & H23 & Hd1).
  destruct (NoDup_app_inv _ _ H23) as (H2 & H3 & Hd2).
  apply NoDup_app; [exact H1 | |].
  - apply NoDup_app; [exact Hm' | exact H3 |].
    intros a Ha. apply Hd2. now apply Hincl.
  - intros a Ha Hin. apply (Hd1 a Ha).
    apply in_app_or in Hin. apply in_or_app.
    destruct Hin as [Hin | Hin]; [left; now apply Hincl | now right].
Qed.

Lemma gradeIdsOf_app (l l' : list Category.t) :
  gradeIdsOf (l ++ l') = gradeIdsOf l ++ gradeIdsOf l'.
Proof. apply flat_map_app. Qed.

Lemma gradeIdsOf_cons (c : Category.t) (l : list Category.t) :
  gradeIdsOf (c :: l) = map Grade.id (Category.grades c) ++ gradeIdsOf l.
Proof. reflexivity. Qed.

(** Where [find] stops: the first category with the given id. *)
Lemma findCategory_split (categoryId : string) (s : State.t) (c : Category.t) :
  findCategory categoryId s = Some c ->
  exists before after,
    State.categories s = before ++ c :: after
    /\ Category.id c = categoryId
    /\ ~ In categoryId (map Category.id before)
    /\ forall f, updateFound categoryId f (State.categories s)
                 = before ++ f c :: after.
Proof.
  unfold findCategory. induction (State.categories s) as [|x l IH]; simpl.
  - discriminate.
  - destruct (String.eqb (Category.id x) categoryId) eqn:E.
    + intros [= ->]. apply String.eqb_eq in E.
      exists [], l. simpl. repeat split; auto.
    + intros Hf. destruct (IH Hf) as (before & after & -> & Hid & Hout & Hup).
      exists (x :: before), after. simpl. repeat split; auto.
      * apply String.eqb_neq in E. intros [H | H]; [congruence | now apply Hout].
      * intros f. now rewrite Hup.
Qed.

Lemma numberedBelow_wider (idAt : Z -> string) (n n' : Z) (ids : list string) :
  (n <= n')%Z -> numberedBelow idAt n ids -> numberedBelow idAt n' ids.
Proof.
  intros Hn. apply Forall_impl. intros id (k & E & Hk).
  exists k. split; [exact E | lia].
Qed.

Lemma numberedBelow_incl (idAt : Z -> string) (n : Z) (ids ids' : list string) :
  incl ids' ids -> numberedBelow idAt n ids -> numberedBelow idAt n ids'.
Proof.
  intros Hincl H. unfold numberedBelow in *. rewrite Forall_forall in *.
  intros id Hid. apply H. now apply Hincl.
Qed.

(** The id the counter is about to give is not in use. *)
Lemma next_id_fresh (idAt : Z -> string) (n : Z) (ids : list string) :
  (forall a b, safe a -> safe b -> idAt a = idAt b -> a = b) ->
  safe n -> numberedBelow idAt n ids -> ~ In (idAt n) ids.
Proof.
  intros Hinj Hn H Hin. unfold numberedBelow in H. rewrite Forall_forall in H.
  destruct (H _ Hin) as (k & E & Hk). unfold safe in *.
  apply Hinj in E; unfold safe; lia.
Qed.

Lemma NoDup_snoc {A : Type} (l : list A) (x : A) :
  NoDup l -> ~ In x l -> NoDup (l ++ [x]).
Proof.
  intros Hl Hx. apply NoDup_app; [exact Hl | repeat constructor; intros [] |].
  intros a Ha [<- | []]. contradiction.
Qed.

Lemma filter_incl_map {A B : Type} (f : A -> B) (p : A -> bool) (l : list A) :
  incl (map f (filter p l)) (map f l).
Proof.
  intros b Hb. apply in_map_iff in Hb. destruct Hb as (a & <- & Ha).
  apply filter_In in Ha. apply in_map. tauto.
Qed.

(** The ids of the items a filter keeps are still unique. *)
Lemma kept_ids_unique {A : Type} (idOf : A -> string) (keep : A -> bool)
      (items : list A) :
  NoDup (map idOf items) -> NoDup (map idOf (filter keep items)).
Proof.
  intros Hids. induction items as [|x rest IH]; [constructor|].
  cbn [map] in Hids. apply NoDup_cons_iff in Hids. destruct Hids as [Hx Hrest].
  cbn [filter]. destruct (keep x); [|now apply IH].
  cbn [map]. apply NoDup_cons; [|now apply IH].
  intros Hin. apply Hx. now apply (filter_incl_map idOf keep rest).
Qed.

Lemma gradeIdsOf_filter_incl (p : Category.t -> bool) (l : list Category.t) :
  incl (gradeIdsOf (filter p l)) (gradeIdsOf l).
Proof.
  intros id Hid. unfold gradeIdsOf in *. apply in_flat_map in Hid.
  destruct Hid as (c & Hc & Hin). apply filter_In in Hc.
  apply in_flat_map. exists c. tauto.
Qed.

Lemma NoDup_gradeIdsOf_filter (p : Category.t -> bool) (l : list Category.t) :
  NoDup (gradeIdsOf l) -> NoDup (gradeIdsOf (filter p l)).
Proof.
  induction l as [|x l IH]; intros H; [constructor|].
  rewrite gradeIdsOf_cons in H.
  destruct (NoDup_app_inv _ _ H) as (Hx & Hl & Hd).
  cbn [filter]. destruct (p x); [|now apply IH].
  rewrite gradeIdsOf_cons. apply NoDup_app; [exact Hx | now apply IH |].
  intros a Ha Hin. apply (Hd a Ha). now apply (gradeIdsOf_filter_incl p l).
Qed.

(** Room for more ids is room for fewer. *)
Lemma wellNumberedFor_less (room room' : nat) (s : State.t) :
  (room' <= room)%nat -> wellNumberedFor room s -> wellNumberedFor room' s.
Proof.
  intros Hr (nc & ng & Hs & Hc0 & Hcr & Hg0 & Hgr & H).
  exists nc, ng. split; [exact Hs|]. repeat split; try lia; apply H.
Qed.

Lemma createCategory_wellNumbered (room : nat) (name : string) (weight : number)
      (s : State.t) :
  wellNumberedFor (S room) s -> wellNumberedFor room (snd (createCategory name weight s)).
Proof.
  intros (nc & ng & [Enc Eng] & Hc0 & Hcr & Hg0 & Hgr & Hc & Hg & Hnc & Hng).
  exists (nc + 1)%Z, ng.
  unfold createCategory, countersAt, categoryIds, gradeIds in *. simpl.
  rewrite Enc. fold (categoryIdAt nc).
  rewrite map_app, flat_map_app. simpl. rewrite app_nil_r.
  split; [split; [apply increment_of_Z; lia | exact Eng]|].
  repeat split; try assumption; try lia.
  - apply NoDup_snoc; [exact Hc|].
    apply (next_id_fresh categoryIdAt _ _ categoryIdAt_inj); [unfold safe; lia | exact Hnc].
  - apply Forall_app. split.
    + apply numberedBelow_wider with (n := nc); [lia | exact Hnc].
    + constructor; [|constructor]. exists nc. split; [reflexivity | lia].
Qed.

Lemma removeCategory_wellNumbered (room : nat) (categoryId : string) (s : State.t) :
  wellNumberedFor room s -> wellNumberedFor room (removeCategory categoryId s).
Proof.
  intros (nc & ng & Hs & Hc0 & Hcr & Hg0 & Hgr & Hc & Hg & Hnc & Hng).
  exists nc, ng. split; [exact Hs|].
  unfold removeCategory, categoryIds, gradeIds in *. simpl.
  repeat split; try assumption.
  - now apply kept_ids_unique.
  - now apply (NoDup_gradeIdsOf_filter _ (State.categories s)).
  - eapply numberedBelow_incl; [apply filter_incl_map | exact Hnc].
  - eapply numberedBelow_incl; [|exact Hng].
    apply (gradeIdsOf_filter_incl _ (State.categories s)).
Qed.

Lemma createGrade_wellNumbered (room : nat) (categoryId name : string)
      (score max : scalar) (s : State.t) :
  wellNumberedFor (S room) s ->
  wellNumberedFor room (snd (createGrade categoryId name score max s)).
Proof.
  intros Hs. unfold createGrade.
  destruct (findCategory categoryId s) as [c|] eqn:Ef;
    [|apply (wellNumberedFor_less (S room)); [lia | exact Hs]].
  destruct (findCategory_split _ _ _ Ef) as (before & after & Ecs & Hid & _ & Hup).
  destruct Hs as (nc & ng & [Enc Eng] & Hc0 & Hcr & Hg0 & Hgr & Hc & Hg & Hnc & Hng).
  assert (Hfresh : ~ In (gradeIdAt ng) (gradeIds s)).
  { apply (next_id_fresh gradeIdAt _ _ gradeIdAt_inj); [unfold safe; lia | exact Hng]. }
  exists nc, (ng + 1)%Z.
  unfold countersAt, categoryIds, gradeIds in *. simpl.
  rewrite Eng. fold (gradeIdAt ng).
  split; [split; [exact Enc | apply increment_of_Z; lia]|].
  rewrite Hup. rewrite Ecs in *.
  fold (gradeIdsOf (before ++ c :: after)) in Hg, Hng, Hfresh.
  fold (gradeIdsOf (before ++ pushGrade {| Grade.id := gradeIdAt ng;
                                          Grade.name := name; Grade.score := score;
                                          Grade.max := max |} c :: after)).
  rewrite gradeIdsOf_app, gradeIdsOf_cons in *.
  rewrite !map_app in *. simpl in *. rewrite map_app. simpl.
  repeat split; try lia.
  - exact Hc.
  - destruct (NoDup_app_inv _ _ Hg) as (H1 & H23 & Hd1).
    destruct (NoDup_app_inv _ _ H23) as (H2 & H3 & Hd2).
    apply NoDup_app; [exact H1 | |].
    + apply NoDup_app; [|exact H3|].
      * apply NoDup_snoc; [exact H2|].
        intros Hin. apply Hfresh. apply in_or_app. right.
        apply in_or_app. now left.
      * intros a Ha. apply in_app_or in Ha. destruct Ha as [Ha | [<- | []]].
        -- now apply Hd2.
        -- intros Hin. apply Hfresh. apply in_or_app. right.
           apply in_or_app. now right.
    + intros a Ha Hin. apply in_app_or in Hin.
      destruct Hin as [Hin | Hin].
      * apply in_app_or in Hin. destruct Hin as [Hin | [<- | []]].
        -- apply (Hd1 a Ha). apply in_or_app. now left.
        -- apply Hfresh. apply in_or_app. now left.
      * apply (Hd1 a Ha). apply in_or_app. now right.
  - exact Hnc.
  - unfold numberedBelow in *.
    rewrite !Forall_app in *. destruct Hng as (Hb & Hm & Ha).
    assert (Hw : forall l,
               Forall (fun id => exists k, id = gradeIdAt k /\ (0 < k < ng)%Z) l ->
               Forall (fun id => exists k, id = gradeIdAt k /\ (0 < k < ng + 1)%Z) l).
    { intros l. apply Forall_impl. intros id (k & E & Hk).
      exists k. split; [exact E | lia]. }
    repeat split; auto.
    constructor; [|constructor]. exists ng. split; [reflexivity | lia].
Qed.

Lemma removeGrade_wellNumbered (room : nat) (categoryId gradeId : string) (s : State.t) :
  wellNumberedFor room s -> wellNumberedFor room (removeGrade categoryId gradeId s).
Proof.
  intros Hs. unfold removeGrade.
  destruct (findCategory categoryId s) as [c|] eqn:Ef; [|exact Hs].
  destruct (findCategory_split _ _ _ Ef) as (before & after & Ecs & Hid & _ & Hup).
  destruct Hs as (nc & ng & Hat & Hc0 & Hcr & Hg0 & Hgr & Hc & Hg & Hnc & Hng).
  exists nc, ng. split; [exact Hat|].
  unfold categoryIds, gradeIds in *. simpl.
  rewrite Hup. rewrite Ecs in *.
  fold (gradeIdsOf (before ++ c :: after)) in Hg, Hng.
  fold (gradeIdsOf (before ++ filterGrades gradeId c :: after)).
  rewrite gradeIdsOf_app, gradeIdsOf_cons in *.
  rewrite !map_app in *. simpl in *.
  assert (Hincl : incl (map Grade.id
                          (filter (fun g => negb (String.eqb (Grade.id g) gradeId))
                                  (Category.grades c)))
                       (map Grade.id (Category.grades c)))
    by apply filter_incl_map.
  repeat split; try assumption.
  - apply (NoDup_narrow _ _ _ _ Hg); [|exact Hincl].
    apply kept_ids_unique.
    destruct (NoDup_app_inv _ _ Hg) as (_ & H23 & _).
    exact (NoDup_app_remove_r _ _ H23).
  - unfold numberedBelow in *.
    rewrite !Forall_app in *. destruct Hng as (Hb & Hm & Ha).
    repeat split; auto.
    rewrite Forall_forall in *. intros id Hin. apply Hm. now apply Hincl.
Qed.

Lemma step_wellNumbered (room : nat) (o : operation) (s : State.t) :
  wellNumberedFor (S room) s -> wellNumberedFor room (snd (step o s)).
Proof.
  intros Hs.
  assert (Hless : wellNumberedFor room s)
    by (apply (wellNumberedFor_less (S room)); [lia | exact Hs]).
  destruct o as [name weight | categoryId | categoryId name score max
                | categoryId gradeId]; simpl.
  - now apply createCategory_wellNumbered.
  - now apply removeCategory_wellNumbered.
  - pose proof (createGrade_wellNumbered room categoryId name score max s Hs) as H.
    destruct (createGrade categoryId name score max s) as [[g|] s']; exact H.
  - now apply removeGrade_wellNumbered.
Qed.

Lemma run_wellNumbered (ops : list operation) (room : nat) (s : State.t) :
  wellNumberedFor (List.length ops + room) s -> wellNumberedFor room (snd (run ops s)).
Proof.
  revert s. induction ops as [|o rest IH]; intros s Hs; simpl; [exact Hs|].
  pose proof (step_wellNumbered _ o s Hs) as Hstep.
  destruct (step o s) as [m s']. specialize (IH s' Hstep).
  destruct (run rest s') as [ms s'']. exact IH.
Qed.

Lemma fresh_wellNumbered (room : nat) (weighted : bool) :
  (1 + Z.of_nat room < 2 ^ 53)%Z ->
  wellNumberedFor room (State.mk [] weighted 1%float 1%float).
Proof.
  intros Hr. exists 1%Z, 1%Z. split; [split; reflexivity|].
  repeat split; try lia; constructor.
Qed.

(** X6.  From a state in which no id occurs twice, every id was minted
    below the counters, and the counters hold positive integers with room
    below 2^53 for one more id per operation, any sequence of
    [createCategory], [removeCategory], [createGrade] and [removeGrade]
    leads to such a state again: category ids and grade ids stay
    unique. *)
Theorem ids_stay_unique (ops : list operation) (s : State.t) :
  wellNumberedFor (List.length ops) s ->
  wellNumbered (snd (run ops s))
  /\ NoDup (categoryIds (snd (run ops s)))
  /\ NoDup (gradeIds (snd (run ops s))).
Proof.
  intros Hs.
  assert (H : wellNumbered (snd (run ops s))).
  { apply run_wellNumbered. now rewrite Nat.add_0_r. }
  split; [exact H|].
  destruct H as (nc & ng & _ & _ & _ & _ & _ & Hc & Hg & _). now split.
Qed.

Lemma ids_stay_unique_sample :
  wellNumberedFor 4 initialState
  /\ NoDup (categoryIds
              (snd (run [CreateCategory "Tests" 50%float;
                         CreateGrade "cat-1" "" Null (Num 100%float);
                         CreateCategory "Labs" 50%float;
                         RemoveCategory "cat-1"]
                        initialState))).
Proof.
  assert (H : wellNumberedFor 4 initialState) by (apply fresh_wellNumbered; lia).
  split; [exact H|].
  apply (ids_stay_unique [CreateCategory "Tests" 50%float;
                          CreateGrade "cat-1" "" Null (Num 100%float);
                          CreateCategory "Labs" 50%float;
                          RemoveCategory "cat-1"] initialState H).
Defined.

(** ** Creating and removing *)

Lemma find_app_first (categoryId : string) (before after : list Category.t)
      (c : Category.t) :
  ~ In categoryId (map Category.id before) -> Category.id c = categoryId ->
  find (fun x => String.eqb (Category.id x) categoryId) (before ++ c :: after)
  = Some c.
Proof.
  intros Hout Hid. induction before as [|x l IH]; simpl in *.
  - rewrite Hid, String.eqb_refl. reflexivity.
  - destruct (String.eqb (Category.id x) categoryId) eqn:E.
    + apply String.eqb_eq in E. exfalso. apply Hout. now left.
    + apply IH. intros H. apply Hout. now right.
Qed.

Lemma updateFound_app_first (categoryId : string) (f : Category.t -> Category.t)
      (before after : list Category.t) (c : Category.t) :
  ~ In categoryId (map Category.id before) -> Category.id c = categoryId ->
  updateFound categoryId f (before ++ c :: after) = before ++ f c :: after.
Proof.
  intros Hout Hid. induction before as [|x l IH]; simpl in *.
  - rewrite Hid, String.eqb_refl. reflexivity.
  - destruct (String.eqb (Category.id x) categoryId) eqn:E.
    + apply String.eqb_eq in E. exfalso. apply Hout. now left.
    + f_equal. apply IH. intros H. apply Hout. now right.
Qed.

(** X7.  In a state whose ids are unique and were minted below the
    counters, the counters holding positive integers below 2^53, creating
    a category and removing it again, or creating a grade item and
    removing it again, leaves the categories as they were; only the
    counter has moved on, to the value [counter + 1] has as a double. *)
Theorem create_then_remove (s : State.t) :
  wellNumbered s ->
  (forall name weight,
      removeCategory (Category.id (fst (createCategory name weight s)))
                     (snd (createCategory name weight s))
      = State.mk (State.categories s) (State.isWeighted s)
                 (increment (State.nextCategoryId s)) (State.nextGradeId s))
  /\ (forall categoryId name score max g s',
      createGrade categoryId name score max s = (Some g, s') ->
      removeGrade categoryId (Grade.id g) s'
      = State.mk (State.categories s) (State.isWeighted s)
                 (State.nextCategoryId s) (increment (State.nextGradeId s))).
Proof.
  intros (nc & ng & [Enc Eng] & Hc0 & Hcr & Hg0 & Hgr & Hc & Hg & Hnc & Hng).
  rewrite Nat2Z.inj_0, Z.add_0_r in Hcr, Hgr. split.
  - intros name weight. unfold removeCategory, createCategory. simpl.
    rewrite filter_app. simpl. rewrite String.eqb_refl. simpl.
    rewrite app_nil_r. f_equal. apply filter_all.
    intros c Hin. apply negb_true_iff, String.eqb_neq. intros E.
    apply (next_id_fresh categoryIdAt nc (categoryIds s) categoryIdAt_inj);
      [unfold safe; lia | exact Hnc |].
    unfold categoryIds, categoryIdAt. rewrite <- Enc, <- E. now apply in_map.
  - intros categoryId name score max g s'. unfold createGrade.
    destruct (findCategory categoryId s) as [c|] eqn:Ef; [|discriminate].
    destruct (findCategory_split _ _ _ Ef) as (before & after & Ecs & Hid & Hout & Hup).
    intros [= <- <-]. unfold removeGrade, findCategory. simpl.
    rewrite Hup.
    rewrite (find_app_first categoryId before after (pushGrade _ c) Hout Hid).
    rewrite (updateFound_app_first categoryId _ before after (pushGrade _ c) Hout Hid).
    f_equal. rewrite Ecs. f_equal. f_equal.
    unfold filterGrades, pushGrade. simpl.
    rewrite filter_app. simpl. rewrite String.eqb_refl. simpl.
    rewrite app_nil_r, filter_all; [apply Category_eta|].
    intros x Hx. apply negb_true_iff, String.eqb_neq. intros E.
    apply (next_id_fresh gradeIdAt ng (gradeIds s) gradeIdAt_inj);
      [unfold safe; lia | exact Hng |].
    unfold gradeIds, gradeIdAt. apply in_flat_map. exists c. split.
    + rewrite Ecs. apply in_or_app. right. now left.
    + rewrite <- Eng, <- E. now apply in_map.
Qed.

Lemma initialState_wellNumbered : wellNumbered initialState.
Proof. apply fresh_wellNumbered. lia. Qed.

Lemma create_then_remove_sample :
  wellNumbered initialState
  /\ removeCategory "cat-1" (snd (createCategory "Tests" 50%float initialState))
     = State.mk [] true 2%float 1%float.
Proof.
  split; [exact initialState_wellNumbered|].
  exact (proj1 (create_then_remove initialState initialState_wellNumbered)
               "Tests"%string 50%float).
Defined.

(** ** New entries and the grades *)

(** The final grade depends on the categories only through the averages
    and weights of those with data. *)
Lemma calculateFinalGrade_withData (cs cs' : list Category.t) (weighted : bool) :
  withData cs = withData cs' ->
  calculateFinalGrade cs weighted = calculateFinalGrade cs' weighted.
Proof.
  intros E. destruct weighted.
  - rewrite !calculateFinalGrade_weighted_unfold.
    now rewrite !totalWeight_sum_or, !weightedSum_sum_or, E.
  - rewrite !calculateFinalGrade_unweighted_unfold.
    unfold averages. now rewrite E.
Qed.

Lemma pushGrade_invalid (g : Grade.t) (c : Category.t) :
  ~ Valid g ->
  calculateCategoryAverage (Category.grades (pushGrade g c))
  = calculateCategoryAverage (Category.grades c).
Proof.
  intros Hg. unfold pushGrade, calculateCategoryAverage. simpl.
  rewrite (validGrades_skip (Category.grades c) [] g Hg).
  now rewrite app_nil_r.
Qed.

Lemma withData_updateFound (categoryId : string) (f : Category.t -> Category.t)
      (cs : list Category.t) :
  (forall c, Category.weight (f c) = Category.weight c
             /\ calculateCategoryAverage (Category.grades (f c))
                = calculateCategoryAverage (Category.grades c)) ->
  withData (updateFound categoryId f cs) = withData cs
  /\ map (fun c => calculateCategoryAverage (Category.grades c))
         (updateFound categoryId f cs)
     = map (fun c => calculateCategoryAverage (Category.grades c)) cs.
Proof.
  intros Hf. induction cs as [|c rest [IH1 IH2]]; simpl; [now split|].
  destruct (String.eqb (Category.id c) categoryId); simpl.
  - destruct (Hf c) as [Hw Ha]. rewrite Ha, Hw. now split.
  - rewrite IH1, IH2. now split.
Qed.

(** X8.  Adding a category, or adding a grade item whose score is still
    null (the way the add buttons do), changes no category average and
    leaves the final grade as it was, in both modes. *)
Theorem new_entries_keep_the_grades (s : State.t) (weighted : bool) :
  (forall name weight,
      calculateFinalGrade
        (State.categories (snd (createCategory name weight s))) weighted
      = calculateFinalGrade (State.categories s) weighted)
  /\ (forall categoryId name max,
      map (fun c => calculateCategoryAverage (Category.grades c))
          (State.categories (snd (createGrade categoryId name Null max s)))
      = map (fun c => calculateCategoryAverage (Category.grades c))
            (State.categories s)
      /\ calculateFinalGrade
           (State.categories (snd (createGrade categoryId name Null max s))) weighted
         = calculateFinalGrade (State.categories s) weighted).
Proof.
  split.
  - intros name weight. unfold createCategory. simpl.
    unfold calculateFinalGrade.
    rewrite (categoriesWithAvg_skip
               (State.categories s) []
               (Category.mk (categoryIdOf (State.nextCategoryId s)) name weight [])
               eq_refl).
    now rewrite app_nil_r.
  - intros categoryId name max. unfold createGrade.
    destruct (findCategory categoryId s); [|now split]. simpl.
    set (g := Grade.mk _ name Null max).
    assert (Hg : ~ Valid g) by (intros (Hs & _); now apply Hs).
    destruct (withData_updateFound categoryId (pushGrade g) (State.categories s))
      as [Hd Ha].
    { intros c. split; [reflexivity | now apply pushGrade_invalid]. }
    split; [exact Ha | now apply calculateFinalGrade_withData].
Qed.

(** ** What a load leaves can be saved and loaded again *)

Lemma jsonify_VObj (ps : list (string * value)) :
  jsonify (VObj ps) = VObj (propsOf ps).
Proof. reflexivity. Qed.

Lemma propsOf_length (ps : list (string * value)) :
  (List.length (propsOf ps) <= List.length ps)%nat.
Proof.
  induction ps as [|[k v] rest IH]; simpl; [lia|].
  destruct v; simpl; lia.
Qed.

(** In a clean object every property is defined and clean. *)
Lemma propsOf_fixed (ps : list (string * value)) :
  propsOf ps = ps ->
  Forall (fun p => snd p <> VUndefined /\ jsonClean (snd p)) ps.
Proof.
  induction ps as [|[k v] rest IH]; intros E; [constructor|].
  destruct v.
  1: { exfalso. simpl in E. pose proof (propsOf_length rest) as Hl.
       rewrite E in Hl. simpl in Hl. lia. }
  all: constructor;
    [ split; [discriminate|]; unfold jsonClean;
      exact (f_equal (fun l => match l with
                               | (_, x) :: _ => x
                               | [] => VNull
                               end) E)
    | apply IH; exact (f_equal (@tl _) E) ].
Qed.

Lemma lookup_clean (k : string) (ps : list (string * value)) :
  Forall (fun p => snd p <> VUndefined /\ jsonClean (snd p)) ps ->
  lookup k ps = VUndefined \/ jsonClean (lookup k ps).
Proof.
  induction 1 as [|[k' v] rest [_ Hv] _ IH]; simpl; [now left|].
  destruct (String.eqb k' k); [now right | exact IH].
Qed.

Lemma fieldOf_clean (data : value) (k : string) :
  jsonClean data -> fieldOf data k = VUndefined \/ jsonClean (fieldOf data k).
Proof.
  intros Hd. destruct data; simpl; try (now left).
  apply lookup_clean, propsOf_fixed.
  unfold jsonClean in Hd. rewrite jsonify_VObj in Hd.
  exact (f_equal (fun v => match v with VObj ps => ps | _ => [] end) Hd).
Qed.

(** A default that is clean and truthy makes [x || default] clean and
    truthy. *)
Lemma orElse_clean (x d : value) :
  x = VUndefined \/ jsonClean x -> jsonClean d -> truthy d = true ->
  jsonClean (orElse x d) /\ truthy (orElse x d) = true.
Proof.
  intros Hx Hd Ht. unfold orElse.
  destruct (truthy x) eqn:E; [|now split].
  split; [|exact E]. destruct Hx as [-> | Hx]; [discriminate | exact Hx].
Qed.

Lemma truthy_defined (v : value) : truthy v = true -> v <> VUndefined.
Proof. destruct v; simpl; congruence. Qed.

(** A state object whose fields are clean, with truthy categories and
    counters and a defined [isWeighted], is written and read back as it
    is. *)
Lemma load_after_save_raw (r : Raw.t) (sto : storage) (st : Raw.t) :
  jsonClean (Raw.categories r) -> truthy (Raw.categories r) = true ->
  jsonClean (Raw.isWeighted r) -> Raw.isWeighted r <> VUndefined ->
  jsonClean (Raw.nextCategoryId r) -> truthy (Raw.nextCategoryId r) = true ->
  jsonClean (Raw.nextGradeId r) -> truthy (Raw.nextGradeId r) = true ->
  writable sto = true -> readable sto = true ->
  loadState (saveState r sto) st = (true, r).
Proof.
  intros Hc Tc Hw Dw Hn Tn Hg Tg Hwr Hrd.
  assert (Dc := truthy_defined _ Tc).
  assert (Dn := truthy_defined _ Tn).
  assert (Dg := truthy_defined _ Tg).
  assert (Hkeep : forall k v rest,
             jsonClean v -> v <> VUndefined ->
             propsOf ((k, v) :: rest) = (k, v) :: propsOf rest).
  { intros k v rest Hv Dv. unfold jsonClean in Hv.
    destruct v; try congruence; cbn [propsOf]; now rewrite Hv. }
  assert (E : jsonify (dataToSave r) = dataToSave r).
  { unfold dataToSave. rewrite jsonify_VObj.
    now rewrite !Hkeep by assumption. }
  unfold saveState. rewrite Hwr, E.
  rewrite (loadState_parsed _ (dataToSave r)); try reflexivity;
    try discriminate; try assumption.
  unfold fieldOf, dataToSave, orElse. simpl lookup.
  rewrite Tc, Tn, Tg.
  destruct r as [c w n g]. simpl in *.
  destruct w; try congruence; reflexivity.
Qed.

(** X9.  Whatever record a successful [loadState] read, well-shaped or
    not, provided [JSON.stringify] writes it back as it is (it holds no
    number that overflowed to an infinity and no negative zero), the state
    [loadState] leaves is stable: [saveState] of that state followed by
    [loadState] gives the same state again. *)
Theorem loaded_state_is_stable
        (sto sto' : storage) (st st' : Raw.t) (data : value) :
  readable sto = true -> item sto = Some (Parses data) ->
  jsonClean data -> data <> VNull ->
  writable sto' = true -> readable sto' = true ->
  loadState (saveState (snd (loadState sto st)) sto') st'
  = (true, snd (loadState sto st)).
Proof.
  intros Hr Hi Hd Hn Hw' Hr'.
  assert (Hu : data <> VUndefined).
  { intros E. rewrite E in Hd. discriminate Hd. }
  rewrite (loadState_parsed sto data st Hr Hi Hn Hu). simpl.
  assert (Hone : jsonClean one /\ truthy one = true) by (split; reflexivity).
  destruct Hone as [Hone Tone].
  destruct (orElse_clean (fieldOf data "categories") (VArr [])
                         (fieldOf_clean data _ Hd) eq_refl eq_refl) as [Hc Tc].
  destruct (orElse_clean (fieldOf data "nextCategoryId") one
                         (fieldOf_clean data _ Hd) Hone Tone) as [Hnc Tnc].
  destruct (orElse_clean (fieldOf data "nextGradeId") one
                         (fieldOf_clean data _ Hd) Hone Tone) as [Hng Tng].
  apply load_after_save_raw; simpl; try assumption.
  - destruct (fieldOf_clean data "isWeighted" Hd) as [-> | Hw];
      [reflexivity|].
    now destruct (fieldOf data "isWeighted").
  - destruct (fieldOf data "isWeighted"); simpl; discriminate.
Qed.

Lemma loaded_state_is_stable_sample :
  jsonClean corruptCategories
  /\ loadState
       (saveState
          (snd (loadState (holding (Some (Parses corruptCategories)))
                          (stateObject initialState)))
          (holding None))
       (stateObject sampleState)
     = (true, Raw.mk (VStr "corrupt") (VBool false)
                     (VNum 3%float) (VNum 7%float)).
Proof.
  split; [reflexivity|].
  exact (loaded_state_is_stable
           (holding (Some (Parses corruptCategories))) (holding None)
           (stateObject initialState) (stateObject sampleState)
           corruptCategories eq_refl eq_refl eq_refl
           ltac:(discriminate) eq_refl eq_refl).
Defined.

(** The proviso of X9 is needed: a counter that was stored as [1e400] is
    read as an infinity, saved as [null] and read back as [1]. *)
Example overflowed_counter_not_stable :
  let data := VObj [("nextCategoryId"%string, VNum infinity)] in
  let loaded := snd (loadState (holding (Some (Parses data))) (stateObject initialState)) in
  StringToNumber "1e400" = infinity
  /\ Raw.nextCategoryId loaded = VNum infinity
  /\ Raw.nextCategoryId
       (snd (loadState (saveState loaded (holding None)) (stateObject initialState)))
     = VNum 1%float.
Proof. repeat split. Qed.

(** ** Debouncing *)

Lemma debounced_pending {args : Type} (wait : nat) (calls : list (nat * args))
      (finish t0 : nat) (a0 : args) :
  debounced wait calls finish (Some ((t0 + wait)%nat, a0))
  = settled wait ((t0, a0) :: calls) finish.
Proof.
  revert t0 a0. induction calls as [|[t a] rest IH]; intros t0 a0.
  - simpl. destruct (Nat.leb (t0 + wait) finish); reflexivity.
  - cbn [debounced settled elapse].
    destruct (Nat.leb (t0 + wait) t); unfold executedFunction;
      rewrite IH; reflexivity.
Qed.

Lemma debounced_settled {args : Type} (wait : nat) (calls : list (nat * args))
      (finish : nat) :
  debounced wait calls finish None = settled wait calls finish.
Proof.
  destruct calls as [|[t a] rest]; [reflexivity|].
  cbn [debounced elapse]. unfold executedFunction. simpl app.
  apply debounced_pending.
Qed.

Lemma settled_length {args : Type} (wait : nat) (calls : list (nat * args))
      (finish : nat) :
  (List.length (settled wait calls finish) <= List.length calls)%nat.
Proof.
  induction calls as [|[t a] rest IH]; simpl; [lia|].
  destruct (Nat.leb _ _); simpl; lia.
Qed.

Lemma settled_burst {args : Type} (wait : nat) (calls : list (nat * args))
      (t : nat) (a : args) (finish : nat) :
  burst wait (calls ++ [(t, a)]) -> (t + wait <= finish)%nat ->
  settled wait (calls ++ [(t, a)]) finish = [((t + wait)%nat, a)].
Proof.
  intros Hb Hf. induction calls as [|[t1 a1] rest IH].
  - simpl. apply Nat.leb_le in Hf. now rewrite Hf.
  - change (((t1, a1) :: rest) ++ [(t, a)])
      with ((t1, a1) :: (rest ++ [(t, a)])) in *.
    cbn [settled]. cbn [burst] in Hb.
    destruct (rest ++ [(t, a)]) as [|[t2 a2] more] eqn:E.
    + destruct rest; discriminate.
    + destruct Hb as [[Hle Hlt] Hb].
      assert (Hn : Nat.leb (t1 + wait) t2 = false) by (apply Nat.leb_gt; lia).
      rewrite Hn. now apply IH.
Qed.

(** X10.  From no timer set, the debounced function runs [func] exactly
    for the calls that are followed by [wait] milliseconds without another
    call, [wait] after each such call and with its arguments; [func] never
    runs more often than the debounced function was called; and a burst of
    calls, each less than [wait] after the one before, followed by [wait]
    milliseconds of quiet, runs [func] once, with the arguments of the
    last call. *)
Theorem debounce_runs_settled_calls
        {args : Type} (wait : nat) (calls : list (nat * args)) (finish : nat) :
  debounced wait calls finish None = settled wait calls finish
  /\ (List.length (debounced wait calls finish None) <= List.length calls)%nat
  /\ (forall before t a,
        calls = before ++ [(t, a)] -> burst wait calls ->
        (t + wait <= finish)%nat ->
        debounced wait calls finish None = [((t + wait)%nat, a)]).
Proof.
  split; [apply debounced_settled|]. split.
  - rewrite debounced_settled. apply settled_length.
  - intros before t a -> Hb Hf. rewrite debounced_settled.
    now apply settled_burst.
Qed.

Lemma threeCalls_run_once :
  debounced 300 threeCalls 1000 None = [(550%nat, "c"%string)].
Proof.
  destruct (debounce_runs_settled_calls 300 threeCalls 1000) as (_ & _ & H).
  apply (H [(0%nat, "a"%string); (100%nat, "b"%string)] 250%nat "c"%string).
  - reflexivity.
  - simpl. lia.
  - lia.
Defined.

(** ** Clearing *)

(** X11.  A confirmed [clearAllData] leaves one category, Assignments with
    weight 100, id cat-1 and no grade item, and the counters 2 and 1,
    whatever the counters were: ids start again.  [isWeighted] is kept.
    The stored entry is removed when the storage can be reached, after
    which [loadState] finds nothing; when it cannot, the failure is
    swallowed and the state is reset all the same.  Without confirmation
    nothing changes. *)
Theorem clearAllData_starts_again (s : State.t) (sto : storage) :
  fst (clearAllData true s sto)
  = State.mk [Category.mk "cat-1" "Assignments" 100%float []]
             (State.isWeighted s) 2%float 1%float
  /\ (readable sto = true ->
      item (snd (clearAllData true s sto)) = None
      /\ forall st, loadState (snd (clearAllData true s sto)) st = (false, st))
  /\ (readable sto = false -> snd (clearAllData true s sto) = sto)
  /\ (forall name weight,
        Category.id (fst (createCategory name weight (fst (clearAllData true s sto))))
        = "cat-2"%string)
  /\ calculateFinalGrade (State.categories (fst (clearAllData true s sto)))
                         (State.isWeighted s) = None
  /\ clearAllData false s sto = (s, sto).
Proof.
  split; [reflexivity|]. split.
  { intros Hr. unfold clearAllData, removeItem. rewrite Hr. cbn [snd item].
    split; [reflexivity|]. intros st. apply loadState_nothing.
    right. left. reflexivity. }
  split.
  { intros Hr. unfold clearAllData, removeItem. now rewrite Hr. }
  split; [reflexivity|]. split; [|reflexivity].
  now destruct (State.isWeighted s).
Qed.

(** ** Sessions *)

Lemma map_updateAt {A B : Type} (g : A -> B) (f : A -> A) (i : nat) (l : list A) :
  (forall x, g (f x) = g x) -> map g (updateAt i f l) = map g l.
Proof.
  intros Hf. revert i. induction l as [|x l IH]; intros [|i]; simpl;
    try reflexivity.
  - now rewrite Hf.
  - now rewrite IH.
Qed.

Lemma flat_map_updateAt {A B : Type} (g : A -> list B) (f : A -> A) (i : nat)
      (l : list A) :
  (forall x, g (f x) = g x) -> flat_map g (updateAt i f l) = flat_map g l.
Proof.
  intros Hf. revert i. induction l as [|x l IH]; intros [|i]; simpl;
    try reflexivity.
  - now rewrite Hf.
  - now rewrite IH.
Qed.

Lemma Forall_updateAt {A : Type} (P : A -> Prop) (f : A -> A) (i : nat)
      (l : list A) :
  (forall x, P x -> P (f x)) -> Forall P l -> Forall P (updateAt i f l).
Proof.
  intros Hf H. revert i. induction H as [|x l Hx Hl IH]; intros [|i]; simpl;
    constructor; auto.
Qed.

Lemma Forall_updateFound (P : Category.t -> Prop) (categoryId : string)
      (f : Category.t -> Category.t) (cs : list Category.t) :
  (forall c, P c -> P (f c)) -> Forall P cs ->
  Forall P (updateFound categoryId f cs).
Proof.
  intros Hf. induction 1 as [|c rest Hc Hrest IH]; simpl; [constructor|].
  destruct (String.eqb (Category.id c) categoryId); constructor; auto.
Qed.

Lemma Forall_filter {A : Type} (P : A -> Prop) (p : A -> bool) (l : list A) :
  Forall P l -> Forall P (filter p l).
Proof.
  induction 1 as [|x l Hx Hl IH]; simpl; [constructor|].
  destruct (p x); [constructor|]; assumption.
Qed.

(** An edit of a field other than the ids keeps the ids. *)
Lemma edit_wellNumbered (room : nat) (cs : list Category.t) (s : State.t) :
  map Category.id cs = categoryIds s ->
  gradeIdsOf cs = gradeIds s ->
  wellNumberedFor room s -> wellNumberedFor room (withCategories cs s).
Proof.
  intros Ec Eg (nc & ng & Hs). exists nc, ng.
  unfold withCategories, countersAt, categoryIds, gradeIds in *.
  simpl. unfold gradeIdsOf in Eg. now rewrite Ec, Eg.
Qed.

Lemma onCategory_wellNumbered (room : nat) (i : nat) (f : Category.t -> Category.t)
      (w : App.t) :
  (forall c, Category.id (f c) = Category.id c
             /\ map Grade.id (Category.grades (f c))
                = map Grade.id (Category.grades c)) ->
  wellNumberedFor room (App.state w) ->
  wellNumberedFor room (App.state (onCategory i f w)).
Proof.
  intros Hf Hs. unfold onCategory.
  destruct (categoryAt i (App.state w)); [|exact Hs].
  simpl. apply edit_wellNumbered; [| |exact Hs].
  - apply map_updateAt. intros c. apply Hf.
  - apply flat_map_updateAt. intros c. apply Hf.
Qed.

Lemma onGrade_wellNumbered (room : nat) (i j : nat) (f : Grade.t -> Grade.t)
      (w : App.t) :
  (forall g, Grade.id (f g) = Grade.id g) ->
  wellNumberedFor room (App.state w) ->
  wellNumberedFor room (App.state (onGrade i j f w)).
Proof.
  intros Hf Hs. unfold onGrade.
  destruct (gradeAt i j (App.state w)); [|exact Hs].
  simpl. apply edit_wellNumbered; [| |exact Hs].
  - apply map_updateAt. intros c. reflexivity.
  - apply flat_map_updateAt. intros c. simpl. now apply map_updateAt.
Qed.

(** After a confirmed clear the counters are back at 2 and 1: there is
    as much room as before. *)
Lemma clearAllData_wellNumbered (room : nat) (confirmed : bool) (s : State.t)
      (sto : storage) :
  wellNumberedFor (S room) s -> wellNumberedFor room (fst (clearAllData confirmed s sto)).
Proof.
  intros Hs. unfold clearAllData.
  destruct confirmed; [|apply (wellNumberedFor_less (S room)); [lia | exact Hs]].
  cbn [fst]. apply createCategory_wellNumbered, fresh_wellNumbered.
  destruct Hs as (nc & ng & _ & Hc0 & Hcr & _).
  lia.
Qed.

Lemma handle_wellNumbered (room : nat) (e : event) (w : App.t) :
  wellNumberedFor (S room) (App.state w) ->
  wellNumberedFor room (App.state (handle e w)).
Proof.
  intros Hmore.
  assert (Hs : wellNumberedFor room (App.state w))
    by (apply (wellNumberedFor_less (S room)); [lia | exact Hmore]).
  destruct e; simpl.
  - now apply createCategory_wellNumbered.
  - apply onCategory_wellNumbered; [|exact Hs]. intros c. now split.
  - apply onCategory_wellNumbered; [|exact Hs]. intros c. now split.
  - destruct (categoryAt i (App.state w)); [|exact Hs].
    simpl. now apply removeCategory_wellNumbered.
  - destruct (categoryAt i (App.state w)) as [c|]; [|exact Hs].
    pose proof (createGrade_wellNumbered room (Category.id c) defaultGradeName
                  defaultGradeScore defaultGradeMax _ Hmore) as H.
    destruct (createGrade _ _ _ _ _) as [[g|] s']; exact H.
  - now apply onGrade_wellNumbered.
  - now apply onGrade_wellNumbered.
  - now apply onGrade_wellNumbered.
  - destruct (categoryAt i (App.state w)) as [c|]; [|exact Hs].
    destruct (gradeAt i j (App.state w)); [|exact Hs].
    destruct (findCategory (Category.id c) (App.state w)) eqn:Ef; [|exact Hs].
    simpl. now apply removeGrade_wellNumbered.
  - destruct Hs as (nc & ng & Hs). now exists nc, ng.
  - pose proof (clearAllData_wellNumbered room confirmed _ (App.stored w) Hmore) as H.
    destruct (clearAllData confirmed (App.state w) (App.stored w)). exact H.
  - unfold timerFires. destruct (App.saveTimer w); exact Hs.
  - exact Hs.
  - exact Hs.
Qed.

Lemma session_wellNumbered (events : list event) (room : nat) (w : App.t) :
  wellNumberedFor (List.length events + room) (App.state w) ->
  wellNumberedFor room (App.state (session events w)).
Proof.
  unfold session. revert w.
  induction events as [|e rest IH]; intros w Hw; simpl; [exact Hw|].
  apply IH. now apply handle_wellNumbered.
Qed.

(** An invariant of every handler is an invariant of a session. *)
Lemma session_invariant (P : App.t -> Prop) :
  (forall e w, P w -> P (handle e w)) ->
  forall events w, P w -> P (session events w).
Proof.
  intros Hstep events. unfold session.
  induction events as [|e rest IH]; intros w Hw; simpl; [exact Hw|].
  apply IH. now apply Hstep.
Qed.

(** X12.  Through any session of clicks, inputs, mode changes, clears,
    timer runs and page events, a state whose ids are unique and were
    minted below the counters, the counters holding positive integers with
    room below 2^53 for one more id per event, stays such a state: no two
    categories and no two grade items ever share an id. *)
Theorem session_keeps_ids_unique (events : list event) (w : App.t) :
  wellNumberedFor (List.length events) (App.state w) ->
  wellNumbered (App.state (session events w))
  /\ NoDup (categoryIds (App.state (session events w)))
  /\ NoDup (gradeIds (App.state (session events w))).
Proof.
  intros Hs.
  assert (H : wellNumbered (App.state (session events w))).
  { apply session_wellNumbered. now rewrite Nat.add_0_r. }
  split; [exact H|].
  destruct H as (nc & ng & _ & _ & _ & _ & _ & Hc & Hg & _). now split.
Qed.

Lemma sampleState_wellNumbered (room : nat) :
  (3 + Z.of_nat room < 2 ^ 53)%Z -> wellNumberedFor room sampleState.
Proof.
  intros Hr. exists 3%Z, 3%Z. split; [split; reflexivity|].
  assert (Ec : categoryIds sampleState = ["cat-1"; "cat-2"]%string) by reflexivity.
  assert (Eg : gradeIds sampleState = ["grade-1"; "grade-2"]%string) by reflexivity.
  rewrite Ec, Eg.
  split; [lia|]. split; [lia|]. split; [lia|]. split; [lia|].
  split; [repeat constructor; simpl; intuition discriminate|].
  split; [repeat constructor; simpl; intuition discriminate|].
  split; (constructor; [exists 1%Z|constructor; [exists 2%Z|constructor]]);
    (split; [reflexivity | lia]).
Qed.

Lemma session_keeps_ids_unique_sample :
  wellNumberedFor (List.length sampleEvents) (App.state samplePage)
  /\ NoDup (categoryIds (App.state (session sampleEvents samplePage))).
Proof.
  assert (H : wellNumberedFor (List.length sampleEvents) (App.state samplePage))
    by (apply sampleState_wellNumbered; simpl; lia).
  split; [exact H|].
  apply (session_keeps_ids_unique sampleEvents samplePage H).
Defined.

(** *** Weights *)

Lemma handle_weightsAreNumbers (e : event) (w : App.t) :
  weightsAreNumbers (App.state w) -> weightsAreNumbers (App.state (handle e w)).
Proof.
  unfold weightsAreNumbers. intros Hs. destruct e; simpl.
  - apply Forall_app. split; [exact Hs|]. repeat constructor; intros E; apply (f_equal Prim2SF) in E; discriminate E.
  - unfold onCategory. destruct (categoryAt i (App.state w)); [|exact Hs].
    simpl. now apply Forall_updateAt.
  - unfold onCategory. destruct (categoryAt i (App.state w)); [|exact Hs].
    simpl. apply Forall_updateAt; [|exact Hs].
    intros c _. simpl. apply or_zero_not_nan.
  - destruct (categoryAt i (App.state w)); [|exact Hs].
    simpl. now apply Forall_filter.
  - destruct (categoryAt i (App.state w)) as [c|]; [|exact Hs].
    unfold createGrade, findCategory. destruct (find _ _); [|exact Hs].
    simpl. now apply Forall_updateFound.
  - unfold onGrade. destruct (gradeAt i j (App.state w)); [|exact Hs].
    simpl. now apply Forall_updateAt.
  - unfold onGrade. destruct (gradeAt i j (App.state w)); [|exact Hs].
    simpl. now apply Forall_updateAt.
  - unfold onGrade. destruct (gradeAt i j (App.state w)); [|exact Hs].
    simpl. now apply Forall_updateAt.
  - destruct (categoryAt i (App.state w)) as [c|]; [|exact Hs].
    destruct (gradeAt i j (App.state w)); [|exact Hs].
    destruct (findCategory (Category.id c) (App.state w)) eqn:Ef; [|exact Hs].
    simpl. unfold removeGrade. rewrite Ef.
    simpl. now apply Forall_updateFound.
  - exact Hs.
  - unfold clearAllData. destruct confirmed; [|exact Hs].
    simpl. repeat constructor; intros E; apply (f_equal Prim2SF) in E; discriminate E.
  - unfold timerFires. destruct (App.saveTimer w); exact Hs.
  - exact Hs.
  - exact Hs.
Qed.

(** X13.  The handlers never leave [NaN] in a weight: the weight field
    stores [parseFloat(text) || 0], new categories get 25 or 100, and
    nothing else assigns a weight.  A state without a [NaN] weight stays
    so through any session. *)
Theorem session_keeps_weights_numbers (events : list event) (w : App.t) :
  weightsAreNumbers (App.state w) ->
  weightsAreNumbers (App.state (session events w)).
Proof.
  apply (session_invariant (fun w => weightsAreNumbers (App.state w))).
  intros e w'. apply handle_weightsAreNumbers.
Qed.

Lemma session_keeps_weights_numbers_sample :
  weightsAreNumbers (App.state samplePage)
  /\ weightsAreNumbers
       (App.state (session (CategoryWeightInput 0 Num.nan :: sampleEvents) samplePage)).
Proof.
  assert (H : weightsAreNumbers (App.state samplePage))
    by (repeat constructor; intros E; apply (f_equal Prim2SF) in E; discriminate E).
  split; [exact H|].
  exact (session_keeps_weights_numbers _ samplePage H).
Defined.

(** *** Saving *)

Lemma sound_restorable (s : State.t) : sound s -> restorable s.
Proof.
  intros (H & Hc & Hg).
  split; [exact H|]. split; now apply counting_storable.
Qed.

(** What [saveState] stores for a restorable state, [loadState] reads
    back. *)
Lemma saved_state_loads (s : State.t) (sto : storage) (st : Raw.t) :
  restorable s -> working sto ->
  loadState (saveState (stateObject s) sto) st = (true, stateObject s).
Proof.
  intros Hs [Hr Hw].
  unfold saveState. rewrite Hw, (jsonify_dataToSave s Hs).
  rewrite (loadState_parsed _ (dataToSave (stateObject s)));
    try reflexivity; try discriminate; try assumption.
  destruct Hs as (_ & Hc & Hg).
  unfold fieldOf, dataToSave, orElse. simpl lookup.
  now rewrite (truthy_counter _ Hc), (truthy_counter _ Hg).
Qed.

Lemma saveState_working (r : Raw.t) (sto : storage) :
  working sto -> working (saveState r sto).
Proof. intros [Hr Hw]. unfold saveState. rewrite Hw. now split. Qed.

Lemma handle_working (e : event) (w : App.t) :
  working (App.stored w) -> working (App.stored (handle e w)).
Proof.
  intros Hw. destruct e; simpl.
  - exact Hw.
  - unfold onCategory. destruct (categoryAt _ _); exact Hw.
  - unfold onCategory. destruct (categoryAt _ _); exact Hw.
  - destruct (categoryAt i (App.state w)); exact Hw.
  - destruct (categoryAt i (App.state w)); [|exact Hw].
    destruct (createGrade _ _ _ _ _) as [[g|] s']; exact Hw.
  - unfold onGrade. destruct (gradeAt _ _ _); exact Hw.
  - unfold onGrade. destruct (gradeAt _ _ _); exact Hw.
  - unfold onGrade. destruct (gradeAt _ _ _); exact Hw.
  - destruct (categoryAt i (App.state w)); [|exact Hw].
    destruct (gradeAt i j (App.state w)); [|exact Hw].
    unfold findCategory. destruct (find _ _); exact Hw.
  - exact Hw.
  - unfold clearAllData, removeItem. destruct confirmed; [|exact Hw].
    destruct Hw as [Hr Hwr]. rewrite Hr. simpl. now split.
  - unfold timerFires. destruct (App.saveTimer w); [|exact Hw].
    simpl. now apply saveState_working.
  - now apply saveState_working.
  - now apply saveState_working.
Qed.

Lemma storable_literal (n : number) :
  Num.is_finite n = true -> Prim2SF n <> S754_zero true -> storableNumber n.
Proof.
  intros Hf Hz. split; [exact Hf|]. intros E. apply Hz. now rewrite E.
Qed.

(** What the weight field stores, [parseFloat(text) || 0], is a storable
    number unless the text read as an infinity. *)
Lemma or_zero_storable (n : number) :
  n <> PrimFloat.infinity -> n <> PrimFloat.neg_infinity ->
  storableNumber (Num.or n Num.zero).
Proof.
  intros Hp Hn. unfold Num.or. destruct (Num.truthy n) eqn:T.
  - unfold Num.truthy in T. apply andb_true_iff in T. destruct T as [Tz Tn].
    apply negb_true_iff in Tz, Tn. split.
    + apply is_finite_spec.
      destruct (Prim2SF n) as [sg|sg| |sg m e] eqn:E.
      * left. now exists sg.
      * exfalso. destruct sg; [apply Hn | apply Hp]; apply Prim2SF_inj; now rewrite E.
      * apply is_nan_spec in E. congruence.
      * right. now exists sg, m, e.
    + intros ->. discriminate Tz.
  - apply storable_literal; [reflexivity | discriminate].
Qed.

Lemma enteredValue_storable (entered : option number) :
  match entered with Some n => storableNumber n | None => True end ->
  storable (enteredValue entered).
Proof. destruct entered; simpl; tauto. Qed.

Lemma withGrades_storable (f : Grade.t -> Grade.t) (j : nat) (c : Category.t) :
  (forall g, storableGrade g -> storableGrade (f g)) ->
  storableCategory c -> storableCategory (withGrades (updateAt j f) c).
Proof.
  intros Hf [Hw Hg]. split; [exact Hw|]. simpl. now apply Forall_updateAt.
Qed.

Lemma onCategory_sound (i : nat) (f : Category.t -> Category.t) (w : App.t) :
  (forall c, storableCategory c -> storableCategory (f c)) ->
  sound (App.state w) -> sound (App.state (onCategory i f w)).
Proof.
  intros Hf (H & Hc & Hg). unfold onCategory.
  destruct (categoryAt i (App.state w)); [|now split].
  simpl. split; [|split; assumption]. now apply Forall_updateAt.
Qed.

Lemma onGrade_sound (i j : nat) (f : Grade.t -> Grade.t) (w : App.t) :
  (forall g, storableGrade g -> storableGrade (f g)) ->
  sound (App.state w) -> sound (App.state (onGrade i j f w)).
Proof.
  intros Hf (H & Hc & Hg). unfold onGrade.
  destruct (gradeAt i j (App.state w)); [|now split].
  simpl. split; [|split; assumption].
  apply Forall_updateAt; [|exact H]. intros c. now apply withGrades_storable.
Qed.

Lemma handle_sound (e : event) (w : App.t) :
  ordinary e -> sound (App.state w) -> sound (App.state (handle e w)).
Proof.
  intros He Hs. destruct e; simpl.
  - destruct Hs as (H & Hc & Hg).
    split; [|split; [now apply counting_increment | exact Hg]]. simpl.
    apply Forall_app. split; [exact H|].
    constructor; [|constructor]. split; [|constructor].
    apply storable_literal; [reflexivity | discriminate].
  - apply onCategory_sound; [|exact Hs]. intros c [Hw Hg]. now split.
  - apply onCategory_sound; [|exact Hs]. intros c [Hw Hg].
    split; [|exact Hg]. simpl. destruct He. now apply or_zero_storable.
  - destruct (categoryAt i (App.state w)); [|exact Hs].
    destruct Hs as (H & Hc & Hg).
    split; [|split; assumption]. simpl. now apply Forall_filter.
  - destruct (categoryAt i (App.state w)); [|exact Hs].
    unfold createGrade, findCategory. destruct (find _ _); [|exact Hs].
    destruct Hs as (H & Hc & Hg).
    split; [|split; [exact Hc | now apply counting_increment]]. simpl.
    apply Forall_updateFound; [|exact H].
    intros c [Hw Hgs]. split; [exact Hw|]. simpl.
    apply Forall_app. split; [exact Hgs|].
    constructor; [|constructor]. split; [exact I|].
    apply storable_literal; [reflexivity | discriminate].
  - apply onGrade_sound; [|exact Hs]. intros g [H1 H2]. now split.
  - apply onGrade_sound; [|exact Hs]. intros g [H1 H2].
    split; [|exact H2]. simpl. apply enteredValue_storable.
    destruct entered; exact He.
  - apply onGrade_sound; [|exact Hs]. intros g [H1 H2].
    split; [exact H1|]. simpl. apply enteredValue_storable.
    destruct entered; exact He.
  - destruct (categoryAt i (App.state w)) as [c|]; [|exact Hs].
    destruct (gradeAt i j (App.state w)); [|exact Hs].
    destruct (findCategory (Category.id c) (App.state w)) eqn:Ef; [|exact Hs].
    simpl. unfold removeGrade. rewrite Ef.
    destruct Hs as (H & Hc & Hg).
    split; [|split; assumption]. simpl.
    apply Forall_updateFound; [|exact H].
    intros c' [Hw Hgs]. split; [exact Hw|]. simpl. now apply Forall_filter.
  - exact Hs.
  - unfold clearAllData. destruct confirmed; [|exact Hs].
    simpl. split; [|split].
    + constructor; [|constructor]. split; [|constructor].
      apply storable_literal; [reflexivity | discriminate].
    + exists 2%Z. split; [lia | reflexivity].
    + exists 1%Z. split; [lia | reflexivity].
  - unfold timerFires. destruct (App.saveTimer w); exact Hs.
  - exact Hs.
  - exact Hs.
Qed.

(** A save is scheduled, or the storage holds the state. *)
Lemma handle_saved_or_scheduled (e : event) (w : App.t) :
  working (App.stored w) -> sound (App.state w) ->
  App.saveTimer w = true \/ persisted w ->
  App.saveTimer (handle e w) = true \/ persisted (handle e w).
Proof.
  intros Hw Hs Hinv.
  assert (Hsave : forall timer,
             persisted (App.mk (App.state w)
                               (saveState (stateObject (App.state w)) (App.stored w))
                               timer)).
  { intros timer st. simpl.
    apply saved_state_loads; [now apply sound_restorable | exact Hw]. }
  destruct e; simpl.
  - now left.
  - unfold onCategory. destruct (categoryAt _ _); [now left | exact Hinv].
  - unfold onCategory. destruct (categoryAt _ _); [now left | exact Hinv].
  - destruct (categoryAt i (App.state w)); [now left | exact Hinv].
  - destruct (categoryAt i (App.state w)); [|exact Hinv].
    unfold createGrade, findCategory. destruct (find _ _); [now left|].
    destruct w; exact Hinv.
  - unfold onGrade. destruct (gradeAt _ _ _); [now left | exact Hinv].
  - unfold onGrade. destruct (gradeAt _ _ _); [now left | exact Hinv].
  - unfold onGrade. destruct (gradeAt _ _ _); [now left | exact Hinv].
  - destruct (categoryAt i (App.state w)); [|exact Hinv].
    destruct (gradeAt i j (App.state w)); [|exact Hinv].
    unfold findCategory. destruct (find _ _); [now left | exact Hinv].
  - now left.
  - unfold clearAllData. destruct confirmed.
    + left. simpl. apply orb_true_r.
    + simpl. rewrite orb_false_r. destruct w; exact Hinv.
  - unfold timerFires. destruct (App.saveTimer w) eqn:E.
    + right. apply Hsave.
    + destruct Hinv as [Hinv | Hinv]; [congruence | now right].
  - right. apply Hsave.
  - right. apply Hsave.
Qed.

(** The three invariants together. *)
Lemma session_saving (events : list event) (w : App.t) :
  Forall ordinary events ->
  working (App.stored w) -> sound (App.state w) ->
  App.saveTimer w = true \/ persisted w ->
  working (App.stored (session events w))
  /\ sound (App.state (session events w))
  /\ (App.saveTimer (session events w) = true \/ persisted (session events w)).
Proof.
  unfold session. intros Hev. revert w.
  induction Hev as [|e rest He _ IH]; intros w Hw Hs Hinv; simpl.
  - split; [exact Hw | split; [exact Hs | exact Hinv]].
  - apply IH.
    + now apply handle_working.
    + now apply handle_sound.
    + now apply handle_saved_or_scheduled.
Qed.

(** X14.  With a working storage, storable numbers typed into the fields
    (finite ones, a weight also as [NaN] or a zero, which the handler
    turns into [0]) and counters that hold positive integers up to 2^53,
    no edit is ever left unsaved without a save
    being scheduled: at every point of a session the save timer is set,
    or [loadState] on the storage gives exactly the current state.  When
    the timer then runs, [loadState] gives the current state. *)
Theorem edits_are_saved_or_scheduled (events : list event) (w : App.t) :
  Forall ordinary events ->
  working (App.stored w) -> sound (App.state w) ->
  App.saveTimer w = true \/ persisted w ->
  (App.saveTimer (session events w) = true \/ persisted (session events w))
  /\ persisted (handle SaveTimerRuns (session events w)).
Proof.
  intros Hev Hw Hs Hinv.
  destruct (session_saving events w Hev Hw Hs Hinv) as (Hw' & Hs' & Hinv').
  split; [exact Hinv'|].
  destruct (handle_saved_or_scheduled SaveTimerRuns _ Hw' Hs' Hinv') as [H | H];
    [|exact H].
  simpl in H. unfold timerFires in *.
  destruct (App.saveTimer (session events w)) eqn:E; simpl in H; congruence.
Qed.

Lemma sampleEvents_ordinary : Forall ordinary sampleEvents.
Proof.
  unfold sampleEvents. constructor.
  { split; intros E; apply (f_equal Prim2SF) in E; discriminate E. }
  repeat (constructor; [exact I|]).
  constructor; [apply storable_literal; [reflexivity | discriminate]|].
  repeat constructor.
Qed.

Lemma sampleGrade_storable (n score max : Z) :
  (0 <= score < 1000)%Z -> (0 <= max < 1000)%Z -> storableGrade (sampleGrade n score max).
Proof.
  intros Hs Hm.
  assert (H : forall k, (0 <= k < 1000)%Z -> storableNumber (Num.of_Z k)).
  { intros k Hk. apply storable_literal.
    - destruct k as [|p|p]; [reflexivity | | lia].
      apply is_finite_spec. right. exists false.
      rewrite Prim2SF_of_Z by lia. unfold integerSF. eauto.
    - destruct k as [|p|p]; [discriminate | | lia].
      rewrite Prim2SF_of_Z by lia. discriminate. }
  split; simpl; now apply H.
Qed.

Lemma sampleState_sound : sound sampleState.
Proof.
  split; [|split; exists 3%Z; (split; [lia | reflexivity])].
  unfold sampleState, evenWeights. simpl.
  assert (Hw : storableNumber (Num.of_Z 50))
    by (apply storable_literal; [reflexivity | discriminate]).
  constructor; [|constructor; [|constructor]];
    (split; [exact Hw|]); simpl;
    (constructor; [apply sampleGrade_storable; lia | constructor]).
Qed.

Lemma edits_are_saved_or_scheduled_sample :
  Forall ordinary sampleEvents
  /\ working (App.stored scheduledPage)
  /\ sound (App.state scheduledPage)
  /\ App.saveTimer scheduledPage = true
  /\ persisted (handle SaveTimerRuns (session sampleEvents scheduledPage)).
Proof.
  split; [exact sampleEvents_ordinary|].
  split; [split; reflexivity|].
  split; [exact sampleState_sound|].
  split; [reflexivity|].
  apply (edits_are_saved_or_scheduled sampleEvents scheduledPage).
  - exact sampleEvents_ordinary.
  - split; reflexivity.
  - exact sampleState_sound.
  - now left.
Defined.

(** *** Leaving and coming back *)

Lemma session_sound (events : list event) (w : App.t) :
  Forall ordinary events ->
  working (App.stored w) -> sound (App.state w) ->
  working (App.stored (session events w)) /\ sound (App.state (session events w)).
Proof.
  unfold session. intros Hev. revert w.
  induction Hev as [|e rest He _ IH]; intros w Hw Hs; simpl; [now split|].
  apply IH; [now apply handle_working | now apply handle_sound].
Qed.

(** X15.  With a working storage, storable numbers typed into the fields
    and counters that hold positive integers up to 2^53, what the page stores when it is hidden or
    unloaded is the state it has then: in a new session [loadState]
    returns true and that very state.  [init] then shows it as it is when
    it has a category; when every category had been removed, [init] adds
    the default category Assignments, with the next id of the stored
    counter, leaves [counter + 1] as a double computes it in the counter,
    and schedules a save. *)
Theorem leaving_then_coming_back (events : list event) (w : App.t) (leave : event) :
  Forall ordinary events ->
  working (App.stored w) -> sound (App.state w) ->
  leave = PageHidden \/ leave = BeforeUnload ->
  let s := App.state (session events w) in
  let sto := App.stored (handle leave (session events w)) in
  loadState sto (stateObject initialState) = (true, stateObject s)
  /\ (State.categories s <> [] -> initAfterLoad true s sto = App.mk s sto false)
  /\ (State.categories s = [] ->
      initAfterLoad true s sto
      = App.mk (State.mk [Category.mk (categoryIdOf (State.nextCategoryId s))
                                      "Assignments" 100%float []]
                         (State.isWeighted s)
                         (increment (State.nextCategoryId s)) (State.nextGradeId s))
               sto true).
Proof.
  intros Hev Hw Hs Hleave s sto.
  destruct (session_sound events w Hev Hw Hs) as [Hw' Hs'].
  split; [|split].
  - assert (E : sto = saveState (stateObject s) (App.stored (session events w)))
      by (destruct Hleave as [-> | ->]; reflexivity).
    rewrite E. apply saved_state_loads; [now apply sound_restorable | exact Hw'].
  - intros Hne. unfold initAfterLoad.
    destruct (State.categories s); [congruence | reflexivity].
  - intros E. unfold initAfterLoad, createCategory. rewrite E. reflexivity.
Qed.

Lemma leaving_then_coming_back_sample :
  Forall ordinary sampleEvents
  /\ working (App.stored samplePage)
  /\ sound (App.state samplePage)
  /\ loadState (App.stored (handle BeforeUnload (session sampleEvents samplePage)))
               (stateObject initialState)
     = (true, stateObject (App.state (session sampleEvents samplePage))).
Proof.
  split; [exact sampleEvents_ordinary|].
  split; [split; reflexivity|].
  split; [exact sampleState_sound|].
  apply (leaving_then_coming_back sampleEvents samplePage BeforeUnload).
  - exact sampleEvents_ordinary.
  - split; reflexivity.
  - exact sampleState_sound.
  - now right.
Defined.

(** *** Starting *)

(** A successful [loadState] does not depend on the state it starts from. *)
Lemma loadState_true_any (sto : storage) (st st' : Raw.t) (r : Raw.t) :
  loadState sto st = (true, r) -> loadState sto st' = (true, r).
Proof.
  destruct (stored_cases sto) as [H | (Hr & data & Hi & Hn & Hu)].
  - rewrite (loadState_nothing sto st H). discriminate.
  - now rewrite !(loadState_parsed sto data _ Hr Hi Hn Hu).
Qed.

Lemma loadState_false_same (sto : storage) (st r : Raw.t) :
  loadState sto st = (false, r) -> r = st.
Proof.
  destruct (stored_cases sto) as [H | (Hr & data & Hi & Hn & Hu)].
  - rewrite (loadState_nothing sto st H). now intros [= <-].
  - rewrite (loadState_parsed sto data _ Hr Hi Hn Hu). discriminate.
Qed.

(** X18.  When [loadState] at the start of [init] leaves a state of the
    shapes of the data model, the page [init] sets up has a save
    scheduled, or its storage holds its state.  When [loadState] found
    nothing, the page starts with the single category Assignments, weight
    100, id cat-1, and a save scheduled. *)
Theorem init_saved_or_scheduled (sto : storage) (hasStoredState : bool) (s : State.t) :
  loadState sto (stateObject initialState) = (hasStoredState, stateObject s) ->
  (App.saveTimer (initAfterLoad hasStoredState s sto) = true
   \/ persisted (initAfterLoad hasStoredState s sto))
  /\ (hasStoredState = false ->
      initAfterLoad hasStoredState s sto
      = App.mk (State.mk [Category.mk "cat-1" "Assignments" 100%float []]
                         true 2%float 1%float)
               sto true).
Proof.
  intros Hload. split.
  - unfold initAfterLoad. destruct hasStoredState; simpl; [|now left].
    destruct (Nat.eqb _ _); simpl; [now left|].
    right. intros st. simpl.
    exact (loadState_true_any sto _ st _ Hload).
  - intros ->. apply loadState_false_same, stateObject_inj in Hload.
    subst s. reflexivity.
Qed.

Lemma init_first_visit :
  loadState (holding None) (stateObject initialState)
  = (false, stateObject initialState)
  /\ App.saveTimer (initAfterLoad false initialState (holding None)) = true.
Proof.
  split; [reflexivity|].
  destruct (init_saved_or_scheduled (holding None) false initialState eq_refl)
    as [_ H].
  now rewrite (H eq_refl).
Defined.
